(** * commy: a shallow embedding of the commit-message generator

    The development follows the four source files of the package:
    [config_utils.py] (the configuration store), [git_utils.py] (the
    version-control adapter), [ai_utils.py] (the message generator) and
    [main.py] (the interactive controller).

    Python objects are modelled as the interpreter has them: scalars are
    values, dictionaries are mutable objects that live in a store and are
    referred to by location, so that two names for one dictionary see each
    other's updates.  Everything outside the interpreter (the configuration
    file, the process environment, the [git] binary, the HTTP endpoint, the
    terminal) is a component of the [world] that the functions thread. *)

From Stdlib Require Import ZArith String Ascii List Lia Bool.
From Stdlib Require Import Floats.
From stdpp Require Import gmap strings.
Import ListNotations.

Set Warnings "-inexact-float,-register-all".
Local Open Scope string_scope.
Local Open Scope Z_scope.

(** ** Python strings *)

(** A [str] is a sequence of code points.  The model covers the code points
    below 256, one [ascii] each; [len], slicing, [strip], [lower],
    [replace], [splitlines] and [join] follow CPython on that range. *)
Module Str.

Definition len (s : string) : Z := Z.of_nat (String.length s).

Fixpoint take (n : nat) (s : string) : string :=
  match n, s with
  | S n', String c s' => String c (take n' s')
  | _, _ => EmptyString
  end.

(** [s[:stop]]: a negative [stop] counts from the end, and the bounds are
    clipped to the string. *)
Definition slice_to (s : string) (stop : Z) : string :=
  if stop <? 0 then take (Z.to_nat (len s + stop)) s
  else take (Z.to_nat stop) s.

Definition code (c : ascii) : N := N_of_ascii c.

(** [str.isspace] on one code point below 256. *)
Definition isspace (c : ascii) : bool :=
  let n := code c in
  ((9 <=? n) && (n <=? 13) || (28 <=? n) && (n <=? 32)
   || (n =? 133) || (n =? 160))%N.

Fixpoint lstrip (s : string) : string :=
  match s with
  | String c s' => if isspace c then lstrip s' else s
  | EmptyString => EmptyString
  end.

Fixpoint rstrip (s : string) : string :=
  match s with
  | String c s' =>
      match rstrip s' with
      | EmptyString => if isspace c then EmptyString else String c EmptyString
      | r => String c r
      end
  | EmptyString => EmptyString
  end.

Definition strip (s : string) : string := rstrip (lstrip s).

(** [str.lower] on one code point below 256: the ASCII capitals and the
    Latin-1 capitals other than the multiplication sign. *)
Definition lower_char (c : ascii) : ascii :=
  let n := code c in
  if ((65 <=? n) && (n <=? 90)
      || (192 <=? n) && (n <=? 222) && negb (n =? 215))%N
  then ascii_of_N (n + 32) else c.

Fixpoint lower (s : string) : string :=
  match s with
  | String c s' => String (lower_char c) (lower s')
  | EmptyString => EmptyString
  end.

(** [s.replace(old, new)] for a one-character [old]. *)
Fixpoint replace (old : ascii) (new : string) (s : string) : string :=
  match s with
  | String c s' =>
      if Ascii.eqb c old then new ++ replace old new s'
      else String c (replace old new s')
  | EmptyString => EmptyString
  end.

(** The line boundaries of [str.splitlines] below 256, other than the
    carriage return, which may pair with a line feed. *)
Definition islinebreak (c : ascii) : bool :=
  let n := code c in
  ((n =? 10) || (n =? 11) || (n =? 12) || (28 <=? n) && (n <=? 30)
   || (n =? 133))%N.

Fixpoint splitlines_from (cur : string) (s : string) : list string :=
  match s with
  | EmptyString =>
      match cur with EmptyString => [] | _ => [cur] end
  | String c rest =>
      if (code c =? 13)%N then
        match rest with
        | String c' rest' =>
            if (code c' =? 10)%N then cur :: splitlines_from EmptyString rest'
            else cur :: splitlines_from EmptyString rest
        | EmptyString => [cur]
        end
      else if islinebreak c then cur :: splitlines_from EmptyString rest
      else splitlines_from (cur ++ String c EmptyString) rest
  end.

Definition splitlines (s : string) : list string :=
  splitlines_from EmptyString s.

Fixpoint join (sep : string) (l : list string) : string :=
  match l with
  | [] => EmptyString
  | [x] => x
  | x :: l' => x ++ sep ++ join sep l'
  end.

Definition nl : string := String (ascii_of_N 10) EmptyString.

Definition truthy (s : string) : bool :=
  match s with EmptyString => false | _ => true end.

Definition elem (s : string) (l : list string) : bool :=
  existsb (String.eqb s) l.

End Str.

(** ** Python values, objects and exceptions *)

Abbreviation loc := positive (only parsing).

(** A value is a scalar, a list of values (no list is mutated by the
    program, so lists are kept by value) or a reference to a dictionary
    object. *)
Inductive value : Type :=
| VNone
| VBool (b : bool)
| VInt (n : Z)
| VFloat (x : float)
| VStr (s : string)
| VList (items : list value)
| VDict (l : loc).

(** A dictionary object: its items in insertion order, keys unique.  The
    keys of the configuration are strings. *)
Abbreviation dict := (list (string * value)) (only parsing).

(** Plain data, as the text of a YAML document or of a JSON body denotes
    it, before any Python object is built from it. *)
Inductive doc : Type :=
| DNull
| DBool (b : bool)
| DInt (n : Z)
| DFloat (x : float)
| DStr (s : string)
| DSeq (items : list doc)
| DMap (entries : list (string * doc)).

Module Dict.

Fixpoint get (d : dict) (k : string) : option value :=
  match d with
  | [] => None
  | (k', v) :: d' => if String.eqb k' k then Some v else get d' k
  end.

(** [d[k] = v]: an existing key keeps its position, a new key goes last. *)
Fixpoint set (d : dict) (k : string) (v : value) : dict :=
  match d with
  | [] => [(k, v)]
  | (k', v') :: d' =>
      if String.eqb k' k then (k', v) :: d' else (k', v') :: set d' k v
  end.

Definition keys (d : dict) : list string := map fst d.

Definition mem (d : dict) (k : string) : bool :=
  match get d k with Some _ => true | None => false end.

End Dict.

(** The dictionaries of a process, by location, and the next location to
    give out.  The functions below give some outcome for a location that
    holds no dictionary; they create no reference to such a location. *)
Record store : Type := Store {
  objects : gmap loc dict;
  next_loc : loc
}.

Module Store.

Definition alloc (d : dict) (st : store) : loc * store :=
  (next_loc st,
   {| objects := <[next_loc st := d]> (objects st);
      next_loc := Pos.succ (next_loc st) |}).

Definition write (l : loc) (d : dict) (st : store) : store :=
  {| objects := <[l := d]> (objects st); next_loc := next_loc st |}.

Definition read (st : store) (l : loc) : option dict := objects st !! l.

End Store.

(** The Python objects [yaml.safe_load] builds for a document: a mapping
    becomes a fresh dictionary filled entry by entry (a repeated key keeps
    its last value), a sequence a list, a scalar itself. *)
Section Construct.

Variable construct : doc -> store -> value * store.

Fixpoint construct_items (items : list doc) (st : store) : list value * store :=
  match items with
  | [] => ([], st)
  | d :: items' =>
      let '(v, st1) := construct d st in
      let '(vs, st2) := construct_items items' st1 in
      (v :: vs, st2)
  end.

Fixpoint construct_entries (entries : list (string * doc)) (acc : dict)
    (st : store) : dict * store :=
  match entries with
  | [] => (acc, st)
  | (k, d) :: entries' =>
      let '(v, st1) := construct d st in
      construct_entries entries' (Dict.set acc k v) st1
  end.

End Construct.

Fixpoint construct (d : doc) (st : store) : value * store :=
  match d with
  | DNull => (VNone, st)
  | DBool b => (VBool b, st)
  | DInt n => (VInt n, st)
  | DFloat x => (VFloat x, st)
  | DStr s => (VStr s, st)
  | DSeq items =>
      let '(vs, st') := construct_items construct items st in
      (VList vs, st')
  | DMap entries =>
      let '(items, st1) := construct_entries construct entries [] st in
      let '(l, st2) := Store.alloc items st1 in
      (VDict l, st2)
  end.

(** Python exceptions, by class.  [SystemExit] is the only one here that
    is not an [Exception]. *)
Inductive exn : Type :=
| RecursionError
| RuntimeError (msg : string)
| AttributeError (msg : string)
| TypeError (msg : string)
| KeyError (key_repr : string)
| IndexError (msg : string)
| ValueError (msg : string)
| YAMLError (msg : string)
| CalledProcessError (returncode : Z) (cmd : list string) (output err : string)
| FileNotFoundError (msg : string)
| RequestException (msg : string)
| Abort
| SystemExit (code : Z).

Definition is_Exception (e : exn) : bool :=
  match e with SystemExit _ => false | _ => true end.

(** ** The world outside the interpreter *)

(** What [subprocess.run] finds: the program ran to completion, or there
    is no such program. *)
Record completed : Type := Completed {
  returncode : Z;
  stdout : string;
  stderr : string
}.

Inductive spawn : Type :=
| Ran (p : completed)
| NoSuchProgram (msg : string).

(** The configuration file holds a YAML document or text that the parser
    rejects. *)
Inductive file : Type :=
| Yaml (d : doc)
| Unparseable (msg : string).

(** One POST to the chat-completions endpoint: the address, the two
    headers (the credential is what follows ["Bearer "]), the fields of the
    JSON payload with its single user message, and the timeout. *)
Record request : Type := Request {
  url : string;
  header_content_type : string;
  header_bearer : value;
  json_model : value;
  json_user_content : string;
  json_temperature : value;
  json_max_tokens : value;
  timeout : Z
}.

(** What [requests.post] followed by [raise_for_status] and [json] gives:
    a [RequestException] (no connection, a timeout, an error status, a
    body that is not JSON) or the decoded body. *)
Inductive response : Type :=
| Failed (detail : string)
| Body (d : doc).

(** What reaches the terminal. *)
Inductive output : Type :=
| Printed (s : string)
| ConsolePrint (markup : string)
| ConsolePanel (body : string) (title : option string)
| ConsoleStatus (markup : string)
| Prompt (text default : string).

Record world : Type := World {
  mem : store;
  recursion_budget : nat;
  config_path : string;
  config_file : option file;
  environ : string -> option string;
  git : list (list string) -> list string -> spawn;
  subprocess_log : list (list string);
  http : list request -> request -> response;
  http_log : list request;
  terminal : list output
}.

Module World.

Definition set_mem (st : store) (w : world) : world :=
  {| mem := st; recursion_budget := recursion_budget w;
     config_path := config_path w; config_file := config_file w;
     environ := environ w; git := git w;
     subprocess_log := subprocess_log w; http := http w;
     http_log := http_log w; terminal := terminal w |}.

Definition set_config_file (f : option file) (w : world) : world :=
  {| mem := mem w; recursion_budget := recursion_budget w;
     config_path := config_path w; config_file := f;
     environ := environ w; git := git w;
     subprocess_log := subprocess_log w; http := http w;
     http_log := http_log w; terminal := terminal w |}.

Definition log_subprocess (argv : list string) (w : world) : world :=
  {| mem := mem w; recursion_budget := recursion_budget w;
     config_path := config_path w; config_file := config_file w;
     environ := environ w; git := git w;
     subprocess_log := subprocess_log w ++ [argv]; http := http w;
     http_log := http_log w; terminal := terminal w |}.

Definition log_http (r : request) (w : world) : world :=
  {| mem := mem w; recursion_budget := recursion_budget w;
     config_path := config_path w; config_file := config_file w;
     environ := environ w; git := git w;
     subprocess_log := subprocess_log w; http := http w;
     http_log := http_log w ++ [r]; terminal := terminal w |}.

Definition emit (o : output) (w : world) : world :=
  {| mem := mem w; recursion_budget := recursion_budget w;
     config_path := config_path w; config_file := config_file w;
     environ := environ w; git := git w;
     subprocess_log := subprocess_log w; http := http w;
     http_log := http_log w; terminal := terminal w ++ [o] |}.

End World.

(** ** Computations *)

(** A Python call either returns a value or raises, and in both cases
    leaves a world behind. *)
Inductive outcome (A : Type) : Type :=
| Ok (a : A) (w : world)
| Raise (e : exn) (w : world).
Arguments Ok {A} a w.
Arguments Raise {A} e w.

Definition py (A : Type) : Type := world -> outcome A.

#[global] Instance py_ret : MRet py := fun A (a : A) w => Ok a w.

#[global] Instance py_bind : MBind py := fun A B (k : A -> py B) (m : py A) w =>
  match m w with
  | Ok a w' => k a w'
  | Raise e w' => Raise e w'
  end.

Definition raise {A : Type} (e : exn) : py A := fun w => Raise e w.

(** [try: m  except <class> as e: h e], the class given as a predicate. *)
Definition try_except {A : Type} (m : py A) (caught : exn -> bool)
    (h : exn -> py A) : py A := fun w =>
  match m w with
  | Ok a w' => Ok a w'
  | Raise e w' => if caught e then h e w' else Raise e w'
  end.

Definition get_world : py world := fun w => Ok w w.
Definition modify (f : world -> world) : py unit := fun w => Ok tt (f w).

(** The builtin [print], [console.print] of the rich console, and the
    spinner of [console.status]. *)
Definition print (s : string) : py unit := modify (World.emit (Printed s)).
Definition console_print (s : string) : py unit :=
  modify (World.emit (ConsolePrint s)).
Definition console_panel (body : string) (title : option string) : py unit :=
  modify (World.emit (ConsolePanel body title)).
Definition console_status (s : string) : py unit :=
  modify (World.emit (ConsoleStatus s)).

(** [sys.exit(code)]. *)
Definition sys_exit {A : Type} (code : Z) : py A := raise (SystemExit code).

Module Py.

(** Truth value testing. *)
Definition truthy (st : store) (v : value) : bool :=
  match v with
  | VNone => false
  | VBool b => b
  | VInt n => negb (n =? 0)
  | VFloat x => negb (PrimFloat.eqb x 0)
  | VStr s => Str.truthy s
  | VList items => match items with [] => false | _ => true end
  | VDict l =>
      match Store.read st l with
      | Some [] => false
      | _ => true
      end
  end.

Definition isinstance_dict (v : value) : bool :=
  match v with VDict _ => true | _ => false end.

Definition type_name (v : value) : string :=
  match v with
  | VNone => "NoneType"
  | VBool _ => "bool"
  | VInt _ => "int"
  | VFloat _ => "float"
  | VStr _ => "str"
  | VList _ => "list"
  | VDict _ => "dict"
  end.

(** [repr(k)] for a key made of plain characters. *)
Definition repr_key (k : string) : string := "'" ++ k ++ "'".

(** [v[k]] for a string key [k]. *)
Definition subscript (v : value) (k : string) : py value := fun w =>
  match v with
  | VDict l =>
      match Store.read (mem w) l with
      | Some d =>
          match Dict.get d k with
          | Some x => Ok x w
          | None => Raise (KeyError (repr_key k)) w
          end
      | None => Raise (KeyError (repr_key k)) w
      end
  | VStr _ => Raise (TypeError "string indices must be integers, not 'str'") w
  | VList _ =>
      Raise (TypeError "list indices must be integers or slices, not str") w
  | _ =>
      Raise (TypeError ("'" ++ type_name v ++ "' object is not subscriptable")) w
  end.

(** [v.get(k, default)] on a dictionary. *)
Definition dict_get (v : value) (k : string) (default : value) : py value :=
  fun w =>
  match v with
  | VDict l =>
      match Store.read (mem w) l with
      | Some d =>
          match Dict.get d k with
          | Some x => Ok x w
          | None => Ok default w
          end
      | None => Ok default w
      end
  | _ =>
      Raise (AttributeError
               ("'" ++ type_name v ++ "' object has no attribute 'get'")) w
  end.

(** [str(e)] for an exception, as the handlers of the program print it.
    No handler receives a [CalledProcessError] (each is caught where it is
    raised), an [Abort] or a [SystemExit]; their text is left empty. *)
Definition str_exn (e : exn) : string :=
  match e with
  | RecursionError => "maximum recursion depth exceeded"
  | RuntimeError msg | AttributeError msg | TypeError msg | IndexError msg
  | ValueError msg | YAMLError msg | FileNotFoundError msg
  | RequestException msg => msg
  | KeyError key_repr => key_repr
  | CalledProcessError _ _ _ _ => EmptyString
  | Abort => EmptyString
  | SystemExit _ => EmptyString
  end.

End Py.

(** ** config_utils.py *)

Module config_utils.

(** The objects the module creates when it is imported: the dictionary of
    the ["ai"] section first, then the dictionary that holds it.  The
    name [DEFAULT_CONFIG] stays bound to the second one. *)
Definition DEFAULT_AI : loc := 1%positive.
Definition DEFAULT_CONFIG : loc := 2%positive.

Definition default_ai : dict :=
  [ ("provider", VStr "openai");
    ("model", VStr "gpt-3.5-turbo");
    ("temperature", VFloat 0.7);
    ("max_tokens", VInt 100);
    ("api_key", VStr EmptyString) ].

Definition default_config : dict :=
  [ ("ai", VDict DEFAULT_AI);
    ("commit_style", VStr "conventional");
    ("diff_truncation_limit", VInt 4000) ].

Definition imported : store :=
  {| objects := <[DEFAULT_CONFIG := default_config]>
                  (<[DEFAULT_AI := default_ai]> ∅);
     next_loc := 3%positive |}.

(** [Path.home() / ".commy" / "config.yaml"], as the world has it. *)
Definition get_config_path : py string := fun w => Ok (config_path w) w.

(** *** What [yaml.dump] writes *)

Fixpoint insert_sorted (e : string * value) (d : dict) : dict :=
  match d with
  | [] => [e]
  | e' :: d' =>
      if String.leb (fst e) (fst e') then e :: d
      else e' :: insert_sorted e d'
  end.

(** [yaml.dump] sorts the keys of a mapping. *)
Definition sorted (d : dict) : dict := fold_right insert_sorted [] d.

Fixpoint sequence {A : Type} (l : list (option A)) : option (list A) :=
  match l with
  | [] => Some []
  | Some a :: l' =>
      match sequence l' with Some r => Some (a :: r) | None => None end
  | None :: _ => None
  end.

(** The document that represents a value; [None] when its lists and
    dictionaries nest deeper than [depth].  No dictionary of the program
    is reachable along two paths, so the anchors of YAML are left out. *)
Fixpoint represent (depth : nat) (st : store) (v : value) : option doc :=
  match v with
  | VNone => Some DNull
  | VBool b => Some (DBool b)
  | VInt n => Some (DInt n)
  | VFloat x => Some (DFloat x)
  | VStr s => Some (DStr s)
  | VList items =>
      match depth with
      | O => None
      | S depth' =>
          option_map DSeq (sequence (map (represent depth' st) items))
      end
  | VDict l =>
      match depth, Store.read st l with
      | S depth', Some d =>
          option_map DMap
            (sequence
               (map (fun e : string * value =>
                       option_map (pair (fst e))
                         (represent depth' st (snd e)))
                  (sorted d)))
      | _, _ => None
      end
  end.

(** The parent directory is created when missing, and the file is
    written; the file system takes every write. *)
Definition create_default_config : py unit := fun w =>
  match represent (recursion_budget w) (mem w) (VDict DEFAULT_CONFIG) with
  | Some d => Ok tt (World.set_config_file (Some (Yaml d)) w)
  | None => Raise RecursionError w
  end.

(** *** The merge *)

(** The body of the loop of [_merge_dicts] for one item; [rec] is the
    recursive call. *)
Definition merge_item (rec : loc -> value -> py unit)
    (base : loc) (k : string) (v : value) : py unit := fun w =>
  match Store.read (mem w) base with
  | Some b =>
      match Dict.get b k with
      | Some (VDict b') =>
          if Py.isinstance_dict v then rec b' v w
          else Ok tt (World.set_mem (Store.write base (Dict.set b k v) (mem w)) w)
      | _ => Ok tt (World.set_mem (Store.write base (Dict.set b k v) (mem w)) w)
      end
  | None => Raise (KeyError (Py.repr_key k)) w
  end.

(** [for k, v in overlay.items(): ...].  The iterator walks the live
    dictionary by position: each step first checks that the size is the
    one it started with, then reads the item at its position, or stops at
    the end. *)
Fixpoint merge_loop (rec : loc -> value -> py unit) (base overlay : loc)
    (used remaining : nat) : py unit := fun w =>
  match Store.read (mem w) overlay with
  | Some items =>
      if negb (Nat.eqb (List.length items) used) then
        Raise (RuntimeError "dictionary changed size during iteration") w
      else
        match remaining with
        | O => Ok tt w
        | S remaining' =>
            match items !! (used - remaining)%nat with
            | Some (k, v) =>
                (merge_item rec base k v;;
                 merge_loop rec base overlay used remaining') w
            | None => Ok tt w
            end
        end
  | None => Ok tt w
  end.

(** [depth] is the number of frames the interpreter still allows. *)
Fixpoint _merge_dicts (depth : nat) (base : loc) (overlay : value)
    {struct depth} : py unit :=
  match depth with
  | O => raise RecursionError
  | S depth' =>
      match overlay with
      | VDict o => fun w =>
          match Store.read (mem w) o with
          | Some items =>
              merge_loop (_merge_dicts depth') base o
                (List.length items) (List.length items) w
          | None => Ok tt w
          end
      | _ =>
          raise (AttributeError
                   ("'" ++ Py.type_name overlay
                    ++ "' object has no attribute 'items'"))
      end
  end.

(** *** Loading *)

(** [open(config_path, "r")] and [yaml.safe_load(f)]. *)
Definition safe_load_file : py value := fun w =>
  match config_file w with
  | Some (Yaml d) =>
      let '(v, st) := construct d (mem w) in Ok v (World.set_mem st w)
  | Some (Unparseable msg) => Raise (YAMLError msg) w
  | None =>
      Raise (FileNotFoundError
               ("[Errno 2] No such file or directory: '"
                ++ config_path w ++ "'")) w
  end.

(** [DEFAULT_CONFIG.copy()]: a new dictionary with the same items, so
    the values that are dictionaries are shared with the original. *)
Definition copy (l : loc) : py loc := fun w =>
  match Store.read (mem w) l with
  | Some d =>
      let '(l', st) := Store.alloc d (mem w) in Ok l' (World.set_mem st w)
  | None => Raise (KeyError EmptyString) w
  end.

Definition load_config : py value :=
  config_path ← get_config_path;
  w ← get_world;
  (match config_file w with
   | None =>
       create_default_config;;
       print ("Created default configuration at " ++ config_path);;
       print "Please update it with your AI provider API key."
   | Some _ => mret tt
   end);;
  try_except
    (config ← safe_load_file;
     merged_config ← copy DEFAULT_CONFIG;
     w ← get_world;
     (if Py.truthy (mem w) config
      then _merge_dicts (recursion_budget w) merged_config config
      else mret tt);;
     mret (VDict merged_config))
    is_Exception
    (fun e =>
       print ("Error loading configuration: " ++ Py.str_exn e);;
       print "Using default configuration.";;
       mret (VDict DEFAULT_CONFIG)).

(** [os.environ.get(name)]. *)
Definition os_environ_get (name : string) : py value := fun w =>
  match environ w name with
  | Some s => Ok (VStr s) w
  | None => Ok VNone w
  end.

Definition get_api_key : py value :=
  let env_var := "COMMY_API_KEY" in
  config ← load_config;
  api_key ← os_environ_get env_var;
  w ← get_world;
  if Py.truthy (mem w) api_key then mret api_key
  else
    ai ← Py.subscript config "ai";
    Py.subscript ai "api_key".

End config_utils.

(** ** git_utils.py *)

Module git_utils.

(** [subprocess.run(argv, capture_output=True, text=True, check=check)]:
    the call is recorded, a missing program raises [FileNotFoundError],
    and with [check] a non-zero exit status raises [CalledProcessError]. *)
Definition subprocess_run (argv : list string) (check : bool)
    : py completed := fun w =>
  let w' := World.log_subprocess argv w in
  match git w (subprocess_log w) argv with
  | NoSuchProgram msg => Raise (FileNotFoundError msg) w'
  | Ran p =>
      if check && negb (returncode p =? 0)
      then Raise (CalledProcessError (returncode p) argv (stdout p) (stderr p)) w'
      else Ok p w'
  end.

Definition is_CalledProcessError (e : exn) : bool :=
  match e with CalledProcessError _ _ _ _ => true | _ => false end.

Definition is_FileNotFoundError (e : exn) : bool :=
  match e with FileNotFoundError _ => true | _ => false end.

Definition err_of (e : exn) : string :=
  match e with CalledProcessError _ _ _ err => err | _ => EmptyString end.

Definition is_git_repository : py bool :=
  try_except
    (result ← subprocess_run ["git"; "rev-parse"; "--is-inside-work-tree"] false;
     mret ((returncode result =? 0)
           && String.eqb (Str.strip (stdout result)) "true"))
    is_FileNotFoundError
    (fun _ => mret false).

Definition has_staged_changes : py bool :=
  try_except
    (result ← subprocess_run ["git"; "diff"; "--cached"; "--name-only"] true;
     mret (Str.truthy (Str.strip (stdout result))))
    is_CalledProcessError
    (fun _ => mret false).

Definition truncation_marker : string :=
  Str.nl ++ "[... diff truncated due to size ...]".

(** [n > x] for an [int] and a [float], compared exactly. *)
Definition int_gt_float (n : Z) (x : float) : bool :=
  match Prim2SF x with
  | S754_nan => false
  | S754_infinity s => s
  | S754_zero _ => 0 <? n
  | S754_finite s m e =>
      let x_num := if s then Z.neg m else Z.pos m in
      if 0 <=? e then x_num * 2 ^ e <? n
      else x_num <? n * 2 ^ (- e)
  end.

(** [truncate_length and len(diff) > truncate_length], then the slice
    [diff[:truncate_length]], for whatever value the caller passes: the
    result says whether to truncate and at which index. *)
Definition truncation (st : store) (diff : string) (truncate_length : value)
    : exn + option Z :=
  if negb (Py.truthy st truncate_length) then inr None
  else
    match truncate_length with
    | VInt n => if n <? Str.len diff then inr (Some n) else inr None
    | VBool b =>
        if (if b then 1 else 0) <? Str.len diff
        then inr (Some (if b then 1 else 0)) else inr None
    | VFloat x =>
        if int_gt_float (Str.len diff) x
        then inl (TypeError
                    "slice indices must be integers or None or have an __index__ method")
        else inr None
    | v =>
        inl (TypeError
               ("'>' not supported between instances of 'int' and '"
                ++ Py.type_name v ++ "'"))
    end.

Definition get_staged_diff (truncate_length : value) : py (string * bool) :=
  try_except
    (result ← subprocess_run ["git"; "diff"; "--cached"] true;
     let diff := stdout result in
     w ← get_world;
     match truncation (mem w) diff truncate_length with
     | inl e => raise e
     | inr (Some n) => mret (Str.slice_to diff n ++ truncation_marker, true)
     | inr None => mret (diff, false)
     end)
    is_CalledProcessError
    (fun e => raise (RuntimeError ("Failed to get staged diff: " ++ err_of e))).

Definition get_staged_files : py (list string) :=
  try_except
    (result ← subprocess_run ["git"; "diff"; "--cached"; "--name-only"] true;
     mret (filter (fun line => Str.truthy line) (Str.splitlines (stdout result))))
    is_CalledProcessError
    (fun e => raise (RuntimeError ("Failed to get staged files: " ++ err_of e))).

Definition double_quote : ascii := ascii_of_N 34.
Definition backslash : ascii := ascii_of_N 92.

Definition commit_changes (message : string) : py bool :=
  try_except
    (let safe_message :=
       Str.replace double_quote (String backslash (String double_quote EmptyString))
         message in
     result ← subprocess_run ["git"; "commit"; "-m"; safe_message] true;
     mret (returncode result =? 0))
    is_CalledProcessError
    (fun e => print ("Commit failed: " ++ err_of e);; mret false).

End git_utils.

(** ** ai_utils.py *)

Module ai_utils.
Import config_utils.

Definition create_commit_prompt (diff : string) (commit_style : value)
    : string :=
  let prompt_base :=
    "Analyze the following Git diff and generate a concise, informative commit message that describes the changes:"
    ++ Str.nl ++ Str.nl in
  let prompt_base := prompt_base ++ diff ++ Str.nl ++ Str.nl in
  match commit_style with
  | VStr "conventional" =>
      prompt_base
      ++ "Use the Conventional Commits format (type(scope): description)." ++ Str.nl
      ++ "Choose the most appropriate type from: feat, fix, docs, style, refactor, perf, test, chore." ++ Str.nl
      ++ "Ensure the first line is no more than 72 characters." ++ Str.nl
      ++ "Commit message:"
  | _ =>
      prompt_base
      ++ "Commit message (concise, present tense, less than 72 characters):"
  end.

(** The abstract base class: a provider is anything with the method. *)
Class AIProvider (P : Type) : Type := {
  generate_commit_message_with : P -> string -> py string
}.

Record OpenAIProvider : Type := {
  api_key : value;
  model : value;
  temperature : value;
  max_tokens : value;
  api_url : string
}.

(** [OpenAIProvider(api_key=..., model=..., temperature=..., max_tokens=...)];
    the constructor keeps [api_key], or the empty string when it is not
    truthy. *)
Definition OpenAIProvider_init (api_key model temperature max_tokens : value)
    : py OpenAIProvider := fun w =>
  Ok {| api_key := if Py.truthy (mem w) api_key then api_key
                   else VStr EmptyString;
        model := model;
        temperature := temperature;
        max_tokens := max_tokens;
        api_url := "https://api.openai.com/v1/chat/completions" |} w.

(** [requests.post(...)], [response.raise_for_status()] and
    [response.json()]. *)
Definition requests_post (r : request) : py doc := fun w =>
  let w' := World.log_http r w in
  match http w (http_log w) r with
  | Failed detail => Raise (RequestException detail) w'
  | Body d => Ok d w'
  end.

Definition is_RequestException (e : exn) : bool :=
  match e with RequestException _ => true | _ => false end.

(** Reading the decoded body, which is fresh and only read: [d[k]],
    [d[0]] and [d.strip()]. *)
Definition doc_type_name (d : doc) : string :=
  match d with
  | DNull => "NoneType"
  | DBool _ => "bool"
  | DInt _ => "int"
  | DFloat _ => "float"
  | DStr _ => "str"
  | DSeq _ => "list"
  | DMap _ => "dict"
  end.

(** A JSON object that repeats a name keeps the last value. *)
Fixpoint doc_lookup (entries : list (string * doc)) (k : string) : option doc :=
  match entries with
  | [] => None
  | (k', d) :: entries' =>
      match doc_lookup entries' k with
      | Some d' => Some d'
      | None => if String.eqb k' k then Some d else None
      end
  end.

Definition doc_key (d : doc) (k : string) : py doc :=
  match d with
  | DMap entries =>
      match doc_lookup entries k with
      | Some x => mret x
      | None => raise (KeyError (Py.repr_key k))
      end
  | DStr _ => raise (TypeError "string indices must be integers, not 'str'")
  | DSeq _ => raise (TypeError "list indices must be integers or slices, not str")
  | _ => raise (TypeError ("'" ++ doc_type_name d ++ "' object is not subscriptable"))
  end.

Definition doc_first (d : doc) : py doc :=
  match d with
  | DSeq (x :: _) => mret x
  | DSeq [] => raise (IndexError "list index out of range")
  | DStr (String c _) => mret (DStr (String c EmptyString))
  | DStr EmptyString => raise (IndexError "string index out of range")
  | DMap _ => raise (KeyError "0")
  | _ => raise (TypeError ("'" ++ doc_type_name d ++ "' object is not subscriptable"))
  end.

Definition doc_strip (d : doc) : py string :=
  match d with
  | DStr s => mret (Str.strip s)
  | _ => raise (AttributeError
                  ("'" ++ doc_type_name d ++ "' object has no attribute 'strip'"))
  end.

#[global] Instance OpenAIProvider_AIProvider : AIProvider OpenAIProvider := {
  generate_commit_message_with self prompt :=
    w ← get_world;
    if negb (Py.truthy (mem w) (api_key self)) then
      raise (RuntimeError
               ("OpenAI API key not found. Please set it in the configuration file "
                ++ "at ~/.commy/config.yaml or set the COMMY_API_KEY environment variable."))
    else
      try_except
        (result ← requests_post
                    {| url := api_url self;
                       header_content_type := "application/json";
                       header_bearer := api_key self;
                       json_model := model self;
                       json_user_content := prompt;
                       json_temperature := temperature self;
                       json_max_tokens := max_tokens self;
                       timeout := 30 |};
         choices ← doc_key result "choices";
         choice ← doc_first choices;
         message ← doc_key choice "message";
         content ← doc_key message "content";
         doc_strip content)
        is_RequestException
        (fun e => raise (RuntimeError ("Error calling OpenAI API: " ++ Py.str_exn e)))
}.

(** A provider of some class. *)
Inductive provider : Type :=
| Provider {P : Type} `{AIProvider P} (self : P).

Definition str_lower (v : value) : py string :=
  match v with
  | VStr s => mret (Str.lower s)
  | _ => raise (AttributeError
                  ("'" ++ Py.type_name v ++ "' object has no attribute 'lower'"))
  end.

Definition get_ai_provider : py provider :=
  config ← load_config;
  api_key ← get_api_key;
  ai ← Py.subscript config "ai";
  name ← Py.subscript ai "provider";
  provider_name ← str_lower name;
  if String.eqb provider_name "openai" then
    ai ← Py.subscript config "ai";
    model ← Py.subscript ai "model";
    ai ← Py.subscript config "ai";
    temperature ← Py.subscript ai "temperature";
    ai ← Py.subscript config "ai";
    max_tokens ← Py.subscript ai "max_tokens";
    self ← OpenAIProvider_init api_key model temperature max_tokens;
    mret (Provider self)
  else raise (ValueError ("Unsupported AI provider: " ++ provider_name)).

Definition generate_commit_message (diff : string) : py string :=
  config ← load_config;
  commit_style ← Py.dict_get config "commit_style" (VStr "conventional");
  let prompt := create_commit_prompt diff commit_style in
  p ← get_ai_provider;
  match p with
  | Provider self => generate_commit_message_with self prompt
  end.

End ai_utils.

(** ** main.py *)

Module main.
Import config_utils git_utils ai_utils.

(** [typer.prompt(text, default=default)]: the prompt is shown, the next
    line the user enters is read, and an empty line stands for the
    default; the end of the input aborts. *)
Definition prompt_text : string :=
  Str.nl ++ "Do you want to [y]es commit, [r]egenerate message, or [n]o abort?".

Definition entered (line default : string) : string :=
  if Str.truthy line then line else default.

(** The [while True] loop of [generate]: one iteration for each line the
    user enters. *)
Fixpoint review (inputs : list string) (diff commit_message : string)
    {struct inputs} : py unit :=
  modify (World.emit (Prompt prompt_text "y"));;
  match inputs with
  | [] => raise Abort
  | line :: inputs' =>
      let choice := Str.lower (entered line "y") in
      if Str.elem choice ["y"; "yes"] then
        committed ← commit_changes commit_message;
        if (committed : bool)
        then console_print "[bold green]Commit successful![/bold green]"
        else console_print "[bold red]Commit failed.[/bold red]"
      else if Str.elem choice ["r"; "regenerate"] then
        console_status "[bold green]Regenerating commit message...[/bold green]";;
        commit_message ←
          try_except
            (commit_message ← generate_commit_message diff;
             console_print (Str.nl ++ "[bold]Regenerated commit message:[/bold]");;
             console_panel commit_message None;;
             mret commit_message)
            is_Exception
            (fun e =>
               console_print
                 ("[bold red]Error:[/bold red] Failed to regenerate commit message: "
                  ++ Py.str_exn e);;
               sys_exit 1);
        review inputs' diff commit_message
      else if Str.elem choice ["n"; "no"] then
        console_print "[bold yellow]Aborted. No changes were committed.[/bold yellow]"
      else
        console_print "[bold red]Invalid choice. Please try again.[/bold red]";;
        review inputs' diff commit_message
  end.

(** [generate] from the point where the diff is known: the first
    generation, the display of its message, and the loop. *)
Definition generate_and_review (diff : string) (inputs : list string)
    : py unit :=
  console_status "[bold green]Generating commit message...[/bold green]";;
  commit_message ←
    try_except
      (generate_commit_message diff)
      is_Exception
      (fun e =>
         console_print
           ("[bold red]Error:[/bold red] Failed to generate commit message: "
            ++ Py.str_exn e);;
         sys_exit 1);
  console_print (Str.nl ++ "[bold]Generated commit message:[/bold]");;
  console_panel commit_message None;;
  review inputs diff commit_message.

Definition generate (verbose : bool) (inputs : list string) : py unit :=
  repository ← is_git_repository;
  if negb repository then
    console_print
      "[bold red]Error:[/bold red] Current directory is not a Git repository.";;
    sys_exit 1
  else
    staged ← has_staged_changes;
    if negb staged then
      console_print "[bold yellow]Warning:[/bold yellow] No staged changes to commit.";;
      sys_exit 0
    else
      staged_files ← get_staged_files;
      console_print
        ("[bold green]Staged files:[/bold green] " ++ Str.join ", " staged_files);;
      config ← load_config;
      truncate_length ← Py.dict_get config "diff_truncation_limit" (VInt 4000);
      diff ←
        try_except
          ('(diff, is_truncated) ← get_staged_diff truncate_length;
           (if verbose then console_panel diff (Some "Git Diff") else mret tt);;
           (if (is_truncated : bool)
            then console_print
                   "[bold yellow]Warning:[/bold yellow] Diff was truncated due to size."
            else mret tt);;
           mret diff)
          is_Exception
          (fun e =>
             console_print ("[bold red]Error:[/bold red] " ++ Py.str_exn e);;
             sys_exit 1);
      generate_and_review diff inputs.

End main.

(** ** Sample worlds *)

Module Sample.

(** A process that has just imported the package. *)
Definition started (f : option file) (env : string -> option string)
    (g : list (list string) -> list string -> spawn)
    (h : list request -> request -> response) : world :=
  {| mem := config_utils.imported;
     recursion_budget := 1000;
     config_path := "/home/user/.commy/config.yaml";
     config_file := f;
     environ := env;
     git := g;
     subprocess_log := [];
     http := h;
     http_log := [];
     terminal := [] |}.

Definition no_environ : string -> option string := fun _ => None.

Definition with_key (key : string) : string -> option string :=
  fun name => if String.eqb name "COMMY_API_KEY" then Some key else None.

Definition no_network : list request -> request -> response :=
  fun _ _ => Failed "Connection refused".

(** A machine without [git]. *)
Definition no_git : list (list string) -> list string -> spawn :=
  fun _ _ => NoSuchProgram "[Errno 2] No such file or directory: 'git'".

(** A repository where every command succeeds and prints [out]. *)
Definition git_prints (out : string) : list (list string) -> list string -> spawn :=
  fun _ _ => Ran {| returncode := 0; stdout := out; stderr := EmptyString |}.

(** A repository where every command fails with [err]. *)
Definition git_fails (err : string) : list (list string) -> list string -> spawn :=
  fun _ _ => Ran {| returncode := 1; stdout := EmptyString; stderr := err |}.

End Sample.

(** * Vocabulary of the properties *)

Import config_utils git_utils ai_utils main.

(** ** The commands run *)

Definition diff_argv : list string := ["git"; "diff"; "--cached"].

Definition names_argv : list string := ["git"; "diff"; "--cached"; "--name-only"].

Definition commit_argv (message : string) : list string :=
  ["git"; "commit"; "-m";
   Str.replace double_quote (String backslash (String double_quote EmptyString))
     message].


(** ** Stores *)

(** Setting the items of one dictionary in another, in order: the keys
    set win, the others are kept. *)
Definition set_all (items b : dict) : dict :=
  fold_left (fun d e => Dict.set d (fst e) (snd e)) items b.

(** Nothing lives at or after the next free location. *)
Definition allocated_below (st : store) : Prop :=
  forall l, (next_loc st <= l)%positive -> objects st !! l = None.

Definition points_above (lo : loc) (v : value) : Prop :=
  match v with VDict l => (lo <= l)%positive | _ => True end.

(** [st'] is [st] with new dictionaries after it: the old ones are as they
    were, and the new ones have unique keys and refer, at their top level,
    to new dictionaries only. *)
Record grows (st st' : store) : Prop := {
  grows_next : (next_loc st <= next_loc st')%positive;
  grows_old : forall l, (l < next_loc st)%positive ->
              objects st' !! l = objects st !! l;
  grows_below : allocated_below st';
  grows_new : forall l d, (next_loc st <= l)%positive ->
              objects st' !! l = Some d ->
              NoDup (Dict.keys d)
              /\ Forall (fun e => points_above (next_loc st) (snd e)) d
}.

(** The statement proved by induction on the document. *)
Definition construct_grows_at (d : doc) : Prop :=
  forall st, allocated_below st ->
    grows st (snd (construct d st))
    /\ points_above (next_loc st) (fst (construct d st)).

(** ** Merges *)

(** The loop of [_merge_dicts] over a fixed list of items. *)
Fixpoint merge_items (rec : loc -> value -> py unit) (base : loc)
    (items : dict) : py unit :=
  match items with
  | [] => mret tt
  | (k, v) :: items' => merge_item rec base k v;; merge_items rec base items'
  end.

Definition leaf (v : value) : bool := negb (Py.isinstance_dict v).

(** The store during the merge of a recognized overlay into the copy [m]
    of the defaults: [m] holds [M], the dictionary of the section holds
    [A], and the rest is [O]. *)
Definition during (O : gmap loc dict) (n : loc) (w0 : world) (m : loc)
    (M A : dict) : world :=
  World.set_mem
    {| objects := <[m := M]> (<[DEFAULT_AI := A]> O); next_loc := n |} w0.

(** What one item of the overlay does to the copy and to the dictionary
    of the section. *)
Definition top_step (M : dict) (e : string * value) : dict :=
  if leaf (snd e) then Dict.set M (fst e) (snd e) else M.

Definition section_step (O : gmap loc dict) (A : dict) (e : string * value)
    : dict :=
  match snd e with
  | VDict oa =>
      match O !! oa with
      | Some aitems => set_all aitems A
      | None => A
      end
  | _ => A
  end.

(** An item of a recognized overlay: a leaf under a key other than
    ["ai"], or under ["ai"] a dictionary of leaves that is neither the copy
    nor the dictionary of the section. *)
Definition item_ok (O : gmap loc dict) (m : loc) (e : string * value) : Prop :=
  (fst e <> "ai" /\ leaf (snd e) = true)
  \/ (fst e = "ai"
      /\ exists oa aitems,
           snd e = VDict oa /\ oa <> m /\ oa <> DEFAULT_AI
           /\ O !! oa = Some aitems
           /\ Forall (fun e' => leaf (snd e') = true) aitems).

(** ** Configurations *)

Definition section_keys : list string :=
  ["provider"; "model"; "temperature"; "max_tokens"; "api_key"].

Definition setting_keys : list string :=
  ["commit_style"; "diff_truncation_limit"].

(** The paths of the seven settings. *)
Definition recognized_paths : list (list string) :=
  (map (fun k => ["ai"; k]) section_keys ++ map (fun k => [k]) setting_keys)%list.

(** The value of the ["ai"] key is a dictionary whose keys are keys of the
    section and whose values are leaves. *)
Definition recognized_section (st : store) (v : value) : bool :=
  match v with
  | VDict oa =>
      match Store.read st oa with
      | Some aitems =>
          forallb (fun e => Str.elem (fst e) section_keys && leaf (snd e)) aitems
      | None => false
      end
  | _ => false
  end.

Definition recognized_item (st : store) (e : string * value) : bool :=
  if String.eqb (fst e) "ai" then recognized_section st (snd e)
  else Str.elem (fst e) setting_keys && leaf (snd e).

(** A parsed configuration whose keys are recognized keys: a dictionary
    that gives values to some of the seven settings and to nothing else. *)
Definition recognized (st : store) (config : value) : bool :=
  match config with
  | VDict o =>
      match Store.read st o with
      | Some items => forallb (recognized_item st) items
      | None => false
      end
  | _ => false
  end.

(** The value found by following keys from a value. *)
Fixpoint lookup_path (st : store) (v : value) (path : list string)
    : option value :=
  match path with
  | [] => Some v
  | k :: path' =>
      match v with
      | VDict l =>
          match Store.read st l with
          | Some d =>
              match Dict.get d k with
              | Some x => lookup_path st x path'
              | None => None
              end
          | None => None
          end
      | _ => None
      end
  end.

(** What the store satisfies when the package is imported, and what every
    function of the package keeps: [DEFAULT_CONFIG] has its three items,
    the dictionary of its ["ai"] section has the five keys, nothing lives
    at or after the next free location, no dictionary holds a reference to
    [DEFAULT_CONFIG], and keys are unique. *)
Record wf (st : store) : Prop := {
  wf_config : Store.read st DEFAULT_CONFIG = Some default_config;
  wf_ai : exists a, Store.read st DEFAULT_AI = Some a
                    /\ forall k, In k section_keys -> Dict.mem a k = true;
  wf_below : allocated_below st;
  wf_private : forall l d, Store.read st l = Some d ->
               Forall (fun e => snd e <> VDict DEFAULT_CONFIG) d;
  wf_keys : forall l d, Store.read st l = Some d -> NoDup (Dict.keys d)
}.

(** [DEFAULT_CONFIG] holds what the source gives it. *)
Definition pristine (st : store) : Prop :=
  Store.read st DEFAULT_CONFIG = Some default_config
  /\ Store.read st DEFAULT_AI = Some default_ai.

(** [merged = DEFAULT_CONFIG.copy(); _merge_dicts(merged, DEFAULT_CONFIG)]. *)
Definition merge_defaults_onto_copy : py loc :=
  merged ← copy DEFAULT_CONFIG;
  w ← get_world;
  _merge_dicts (recursion_budget w) merged (VDict DEFAULT_CONFIG);;
  mret merged.

(** The document written for the defaults of the source, keys sorted. *)
Definition default_document : doc :=
  DMap [ ("ai",
          DMap [ ("api_key", DStr EmptyString);
                 ("max_tokens", DInt 100);
                 ("model", DStr "gpt-3.5-turbo");
                 ("provider", DStr "openai");
                 ("temperature", DFloat 0.7) ]);
         ("commit_style", DStr "conventional");
         ("diff_truncation_limit", DInt 4000) ].

(** The node found by following keys in a document. *)
Fixpoint doc_path (d : doc) (path : list string) : option doc :=
  match path with
  | [] => Some d
  | k :: path' =>
      match d with
      | DMap entries =>
          match doc_lookup entries k with
          | Some x => doc_path x path'
          | None => None
          end
      | _ => None
      end
  end.

(** The two lines printed when the file is created. *)
Definition creation_report (w : world) : list output :=
  [ Printed ("Created default configuration at " ++ config_path w);
    Printed "Please update it with your AI provider API key." ].

(** ** Outcomes and frames *)

Definition world_of {A : Type} (o : outcome A) : world :=
  match o with Ok _ w | Raise _ w => w end.

(** [w'] differs from [w] in the store at most. *)
Definition only_mem (w w' : world) : Prop := w' = World.set_mem (mem w') w.

(** What is raised, if anything, is an [Exception]. *)
Definition raises_Exception {A : Type} (o : outcome A) : Prop :=
  match o with Raise e _ => is_Exception e = true | Ok _ _ => True end.

Definition merge_safe (w : world) (o : outcome unit) : Prop :=
  only_mem w (world_of o) /\ raises_Exception o.

(** [w'] differs from [w] in the store, the configuration file and the
    terminal at most. *)
Definition keeps_outside (w w' : world) : Prop :=
  recursion_budget w' = recursion_budget w
  /\ config_path w' = config_path w
  /\ environ w' = environ w
  /\ git w' = git w
  /\ subprocess_log w' = subprocess_log w
  /\ http w' = http w
  /\ http_log w' = http_log w.

(** A computation that changes the store, the configuration file and the
    terminal at most. *)
Definition keeps {A : Type} (m : py A) : Prop :=
  forall w, keeps_outside w (world_of (m w)).

(** A computation that keeps the store well-formed, whether it returns or
    raises. *)
Definition stable {A : Type} (m : py A) : Prop :=
  forall w, wf (mem w) -> wf (mem (world_of (m w))).

(** A computation that, when it returns, has left the world as it was. *)
Definition reads_only {A : Type} (m : py A) : Prop :=
  forall w a w', m w = Ok a w' -> w' = w.

(** ** The review *)


Definition regenerated_title : string :=
  Str.nl ++ "[bold]Regenerated commit message:[/bold]".

(** The world once a message is displayed under a title, once the user is
    asked, and once a spinner is started. *)
Definition shown (title message : string) (w : world) : world :=
  World.emit (ConsolePanel message None) (World.emit (ConsolePrint title) w).

Definition asked (w : world) : world :=
  World.emit (Prompt prompt_text "y") w.


Definition regenerating (w : world) : world :=
  World.emit (ConsoleStatus "[bold green]Regenerating commit message...[/bold green]") w.

Definition rejected (w : world) : world :=
  World.emit (ConsolePrint "[bold red]Invalid choice. Please try again.[/bold red]") w.

(** The choice a line stands for, and the three kinds of choice. *)
Definition choice_of (line : string) : string := Str.lower (entered line "y").

Definition accepts (line : string) : bool :=
  Str.elem (choice_of line) ["y"; "yes"].

Definition regenerates (line : string) : bool :=
  Str.elem (choice_of line) ["r"; "regenerate"].

Definition aborts (line : string) : bool :=
  Str.elem (choice_of line) ["n"; "no"].

(** The commit and the report of its result. *)
Definition commit_and_report (message : string) : py unit :=
  committed ← commit_changes message;
  if (committed : bool)
  then console_print "[bold green]Commit successful![/bold green]"
  else console_print "[bold red]Commit failed.[/bold red]".

(** ** Further vocabulary *)

Definition rev_parse_argv : list string :=
  ["git"; "rev-parse"; "--is-inside-work-tree"].

(** [s.startswith(sub)] and [sub in s]. *)
Fixpoint starts_with (sub s : string) : bool :=
  match sub, s with
  | EmptyString, _ => true
  | String c sub', String c' s' => Ascii.eqb c c' && starts_with sub' s'
  | String _ _, EmptyString => false
  end.

Fixpoint contains (sub s : string) : bool :=
  starts_with sub s
  || match s with
     | EmptyString => false
     | String _ s' => contains sub s'
     end.

(** No character of the string ends a line. *)
Fixpoint no_line_break (s : string) : bool :=
  match s with
  | EmptyString => true
  | String c s' =>
      negb (Str.code c =? 13)%N && negb (Str.islinebreak c) && no_line_break s'
  end.

(** A file name as [git] lists it: not empty, on one line. *)
Definition file_name (s : string) : bool := Str.truthy s && no_line_break s.

(** The listing [git] prints for some names: each followed by a line feed. *)
Fixpoint listing (names : list string) : string :=
  match names with
  | [] => EmptyString
  | name :: names' => name ++ Str.nl ++ listing names'
  end.

Fixpoint count_char (c : ascii) (s : string) : nat :=
  match s with
  | EmptyString => O
  | String c' s' => (if Ascii.eqb c' c then 1 else 0) + count_char c s'
  end.

(** Some character of the string is not white space. *)
Fixpoint has_text (s : string) : bool :=
  match s with
  | EmptyString => false
  | String c s' => negb (Str.isspace c) || has_text s'
  end.

(** The two endings of the prompt, and its beginning. *)
Definition prompt_header : string :=
  "Analyze the following Git diff and generate a concise, informative commit message that describes the changes:"
  ++ Str.nl ++ Str.nl.

Definition conventional_instructions : string :=
  "Use the Conventional Commits format (type(scope): description)." ++ Str.nl
  ++ "Choose the most appropriate type from: feat, fix, docs, style, refactor, perf, test, chore." ++ Str.nl
  ++ "Ensure the first line is no more than 72 characters." ++ Str.nl
  ++ "Commit message:".

Definition plain_instructions : string :=
  "Commit message (concise, present tense, less than 72 characters):".

(** The types of the Conventional Commits format that the prompt names. *)
Definition commit_types : list string :=
  ["feat"; "fix"; "docs"; "style"; "refactor"; "perf"; "test"; "chore"].

(** ** The request of the backend *)

(** The request that the OpenAI backend sends for a prompt. *)
Definition openai_request (self : OpenAIProvider) (prompt : string) : request :=
  {| url := api_url self;
     header_content_type := "application/json";
     header_bearer := api_key self;
     json_model := model self;
     json_user_content := prompt;
     json_temperature := temperature self;
     json_max_tokens := max_tokens self;
     timeout := 30 |}.

(** The content of the message of the first choice of a body. *)
Definition first_choice_content (d : doc) : option doc :=
  match doc_path d ["choices"] with
  | Some (DSeq (choice :: _)) => doc_path choice ["message"; "content"]
  | _ => None
  end.

Definition missing_key_message : string :=
  "OpenAI API key not found. Please set it in the configuration file "
  ++ "at ~/.commy/config.yaml or set the COMMY_API_KEY environment variable.".

(** A request as the program sends them: to the chat-completions address,
    as JSON, with the timeout of 30 seconds. *)
Definition bounded_request (r : request) : Prop :=
  url r = "https://api.openai.com/v1/chat/completions"
  /\ header_content_type r = "application/json"
  /\ timeout r = 30.

(** A computation that runs no subprocess and sends at most [n] requests,
    each of them bounded, whether it returns or raises. *)
Definition sends {A : Type} (n : nat) (m : py A) : Prop :=
  forall w,
    subprocess_log (world_of (m w)) = subprocess_log w
    /\ exists reqs,
         http_log (world_of (m w)) = (http_log w ++ reqs)%list
         /\ (List.length reqs <= n)%nat
         /\ Forall bounded_request reqs.

(** ** What a run adds to the two logs *)

(** From [w] to [w'] the subprocesses [subs] were run and the requests
    [reqs] were sent, in that order, and no others. *)
Definition traffic (w w' : world) (subs : list (list string))
    (reqs : list request) : Prop :=
  subprocess_log w' = (subprocess_log w ++ subs)%list
  /\ http_log w' = (http_log w ++ reqs)%list.

(** ** The lines of the controller *)

Definition not_a_repository_line : output :=
  ConsolePrint "[bold red]Error:[/bold red] Current directory is not a Git repository.".

Definition nothing_staged_line : output :=
  ConsolePrint "[bold yellow]Warning:[/bold yellow] No staged changes to commit.".

Definition aborted_line : output :=
  ConsolePrint "[bold yellow]Aborted. No changes were committed.[/bold yellow]".

Definition commit_successful_line : output :=
  ConsolePrint "[bold green]Commit successful![/bold green]".

Definition commit_failed_line : output :=
  ConsolePrint "[bold red]Commit failed.[/bold red]".


Definition regeneration_failed_line (e : exn) : output :=
  ConsolePrint ("[bold red]Error:[/bold red] Failed to regenerate commit message: "
                ++ Py.str_exn e).

(** [git] says that the directory is inside a work tree. *)
Definition inside_work_tree (s : spawn) : bool :=
  match s with
  | Ran p => (returncode p =? 0) && String.eqb (Str.strip (stdout p)) "true"
  | NoSuchProgram _ => false
  end.



(** ** Loading, continued *)

(** The body of the [try] statement of [load_config], and the statement:
    what [load_config] does once the file is there. *)
Definition load_merging : py value :=
  config ← safe_load_file;
  merged_config ← copy DEFAULT_CONFIG;
  w ← get_world;
  (if Py.truthy (mem w) config
   then _merge_dicts (recursion_budget w) merged_config config
   else mret tt);;
  mret (VDict merged_config).

Definition load_existing : py value :=
  try_except load_merging is_Exception
    (fun e =>
       print ("Error loading configuration: " ++ Py.str_exn e);;
       print "Using default configuration.";;
       mret (VDict DEFAULT_CONFIG)).

(** The world after the two lines of the fallback. *)
Definition fallback_report (e : exn) (w : world) : world :=
  World.emit (Printed "Using default configuration.")
    (World.emit (Printed ("Error loading configuration: " ++ Py.str_exn e)) w).

(** The world after the two lines that report the creation of the file. *)
Definition created (d : doc) (w : world) : world :=
  World.emit (Printed "Please update it with your AI provider API key.")
    (World.emit (Printed ("Created default configuration at " ++ config_path w))
       (World.set_config_file (Some (Yaml d)) w)).

Definition is_mapping (d : doc) : bool :=
  match d with DMap _ => true | _ => false end.

(** The truth value of the object built for a document. *)
Definition doc_truthy (d : doc) : bool :=
  match d with
  | DNull => false
  | DBool b => b
  | DInt n => negb (n =? 0)
  | DFloat x => negb (PrimFloat.eqb x 0)
  | DStr s => Str.truthy s
  | DSeq items => match items with [] => false | _ => true end
  | DMap entries => match entries with [] => false | _ => true end
  end.

(** The store with the copy of [DEFAULT_CONFIG] that a load makes after
    parsing [d]. *)
Definition parsed (d : doc) (w : world) : store := snd (construct d (mem w)).

Definition copied (d : doc) (w : world) : world :=
  World.set_mem (snd (Store.alloc default_config (parsed d w))) w.

(** Every key that a dictionary of [st] has, the dictionary at the same
    place in [st'] has. *)
Definition keys_kept (st st' : store) : Prop :=
  forall l d k,
    Store.read st l = Some d -> Dict.mem d k = true ->
    exists d', Store.read st' l = Some d' /\ Dict.mem d' k = true.

(** ** Merging any mapping *)

(** The value of [b] under [k], if any, is no dictionary: an item with
    this key is set, whatever its value. *)
Definition flat_at (b : dict) (k : string) : Prop :=
  match Dict.get b k with Some (VDict _) => False | _ => True end.

(** The dictionary of the ["ai"] section of [DEFAULT_CONFIG] holds no
    dictionary, as when the package is imported. *)
Definition section_flat (st : store) : Prop :=
  forall a k, Store.read st DEFAULT_AI = Some a -> flat_at a k.

(** What one item of any overlay does to the copy and to the dictionary
    of the section. *)
Definition top_step_any (M : dict) (e : string * value) : dict :=
  if String.eqb (fst e) "ai" && Py.isinstance_dict (snd e) then M
  else Dict.set M (fst e) (snd e).

Definition section_step_any (O : gmap loc dict) (A : dict) (e : string * value)
    : dict :=
  if String.eqb (fst e) "ai" then section_step O A e else A.

(** The value a scalar of a document stands for. *)
Definition scalar_value (d : doc) : option value :=
  match d with
  | DNull => Some VNone
  | DBool b => Some (VBool b)
  | DInt n => Some (VInt n)
  | DFloat x => Some (VFloat x)
  | DStr s => Some (VStr s)
  | DSeq _ | DMap _ => None
  end.

(** What the subscripts of an item of the overlay find, during the merge
    into the copy [m]: under ["ai"] the dictionary of the section, which
    has no dictionary under the keys that the item brings; under another
    key no dictionary. *)
Definition item_any (O : gmap loc dict) (m : loc) (M A : dict)
    (e : string * value) : Prop :=
  (fst e = "ai" ->
   Dict.get M "ai" = Some (VDict DEFAULT_AI)
   /\ forall oa, snd e = VDict oa ->
        oa <> m /\ oa <> DEFAULT_AI
        /\ forall aitems, O !! oa = Some aitems ->
             NoDup (Dict.keys aitems)
             /\ forall k, k ∈ Dict.keys aitems -> flat_at A k)
  /\ (fst e <> "ai" -> flat_at M (fst e)).

(** A reference is to a dictionary allocated before [hi]. *)
Definition points_below (hi : loc) (v : value) : Prop :=
  match v with VDict l => (l < hi)%positive | _ => True end.

(** The entries of the document written for the defaults. *)
Definition default_entries : list (string * doc) :=
  match default_document with DMap entries => entries | _ => [] end.

(** The provider that the defaults of the source and a key give. *)
Definition default_provider (key : string) : OpenAIProvider :=
  {| api_key := VStr key;
     model := VStr "gpt-3.5-turbo";
     temperature := VFloat 0.7;
     max_tokens := VInt 100;
     api_url := "https://api.openai.com/v1/chat/completions" |}.

(** A process that runs on the defaults of the source: the store is
    well-formed and pristine, and the configuration file is missing or is
    the one that a first run writes. *)
Definition on_defaults (w : world) : Prop :=
  wf (mem w)
  /\ pristine (mem w)
  /\ (2 <= recursion_budget w)%nat
  /\ (config_file w = None \/ config_file w = Some (Yaml default_document)).

(** The key that the environment gives: the empty string when the
    variable is unset. *)
Definition environment_key (w : world) : string :=
  match environ w "COMMY_API_KEY" with
  | Some key => key
  | None => EmptyString
  end.


(** * Properties *)

(** Unfolding the plumbing of computations. *)
Ltac run :=
  unfold print, console_print, console_panel, console_status, sys_exit in *;
  unfold mbind, py_bind, mret, py_ret, try_except, raise, modify, get_world
    in *.

(** ** Strings *)

Section StrFacts.

Lemma append_cons (c : ascii) (s t : string) :
  String c s ++ t = String c (s ++ t).
Proof. reflexivity. Qed.

Lemma append_nil (t : string) : EmptyString ++ t = t.
Proof. reflexivity. Qed.

Lemma length_append (s t : string) :
  String.length (s ++ t) = (String.length s + String.length t)%nat.
Proof. induction s as [|c s IH]; simpl; [reflexivity | now rewrite IH]. Qed.

Lemma len_append (s t : string) : Str.len (s ++ t) = Str.len s + Str.len t.
Proof. unfold Str.len. rewrite length_append. lia. Qed.

Lemma length_take (n : nat) (s : string) :
  String.length (Str.take n s) = Nat.min n (String.length s).
Proof.
  revert s; induction n as [|n IH]; intros [|c s]; simpl; try reflexivity.
  now rewrite IH.
Qed.

(** [take n s] is a prefix of [s]. *)
Lemma take_prefix (n : nat) (s : string) :
  exists rest, s = Str.take n s ++ rest.
Proof.
  revert s; induction n as [|n IH]; intros s.
  - exists s. now destruct s.
  - destruct s as [|c s]; simpl.
    + now exists EmptyString.
    + destruct (IH s) as [rest Hrest]. exists rest.
      rewrite append_cons. now f_equal.
Qed.

Lemma take_all (n : nat) (s : string) :
  (String.length s <= n)%nat -> Str.take n s = s.
Proof.
  revert s; induction n as [|n IH]; intros [|c s] H; simpl in *;
    try reflexivity; try lia.
  rewrite IH; [reflexivity | lia].
Qed.

Lemma len_nonneg (s : string) : 0 <= Str.len s.
Proof. unfold Str.len. lia. Qed.

End StrFacts.

(** ** The version-control adapter *)

Section GitFacts.

Variable w : world.

(** The world after one more subprocess call. *)
Let after (argv : list string) : world := World.log_subprocess argv w.

(** The test of [get_staged_diff] on an integer limit other than [0]. *)
Lemma truncation_int (st : store) (diff : string) (n : Z) (flag : bool) :
  n <> 0 ->
  (n <? Str.len diff) = flag ->
  truncation st diff (VInt n) = inr (if flag then Some n else None).
Proof.
  intros Hn <-. unfold truncation. simpl.
  destruct (Z.eqb_spec n 0); [contradiction |].
  simpl. now destruct (n <? Str.len diff).
Qed.

(** C1.  When the diff command succeeds with text [diff] and the limit
    is a positive integer [T]: a diff of at most [T] characters is
    returned as it is, not truncated; a longer one is returned as its
    first [T] characters followed by the marker, truncated, and the
    payload is [T] plus the length of the marker long. *)
Theorem get_staged_diff_truncation (p : completed) (T : Z) :
  git w (subprocess_log w) diff_argv = Ran p ->
  returncode p = 0 ->
  0 < T ->
  let diff := stdout p in
  let head := Str.take (Z.to_nat T) diff in
  (Str.len diff <= T ->
   get_staged_diff (VInt T) w = Ok (diff, false) (after diff_argv))
  /\ (T < Str.len diff ->
      get_staged_diff (VInt T) w
        = Ok (head ++ truncation_marker, true) (after diff_argv)
      /\ (exists rest, diff = head ++ rest)
      /\ Str.len head = T
      /\ Str.len (head ++ truncation_marker) = T + Str.len truncation_marker).
Proof.
  intros Hgit Hrc HT diff head.
  assert (Hrun : subprocess_run diff_argv true w = Ok p (after diff_argv)).
  { unfold subprocess_run. rewrite Hgit, Hrc. reflexivity. }
  assert (Hbody : forall r : string * bool,
    truncation (mem w) diff (VInt T)
      = inr (if snd r then Some T else None) ->
    fst r = (if snd r then Str.slice_to diff T ++ truncation_marker else diff) ->
    get_staged_diff (VInt T) w = Ok r (after diff_argv)).
  { intros [text flag] Htr Htext. simpl in Htr, Htext.
    unfold get_staged_diff; run. fold diff_argv. rewrite Hrun.
    change (mem (after diff_argv)) with (mem w).
    fold diff. rewrite Htr, Htext. now destruct flag. }
  assert (Hslice : Str.slice_to diff T = head).
  { unfold Str.slice_to. destruct (Z.ltb_spec T 0); [lia | reflexivity]. }
  split; intros HL.
  - apply Hbody; [| reflexivity].
    apply truncation_int; [lia |].
    simpl. destruct (Z.ltb_spec T (Str.len diff)); [lia | reflexivity].
  - assert (Hhead : Str.len head = T).
    { unfold head, Str.len in *. rewrite length_take. lia. }
    repeat split.
    + apply Hbody; [| simpl; now rewrite Hslice].
      apply truncation_int; [lia |].
      simpl. destruct (Z.ltb_spec T (Str.len diff)); [reflexivity | lia].
    + apply take_prefix.
    + exact Hhead.
    + rewrite len_append, Hhead. reflexivity.
Qed.

(** C10.  With the limit [None] or [0] the diff is returned whole and
    not truncated, whatever its length. *)
Theorem get_staged_diff_no_limit (p : completed) (limit : value) :
  git w (subprocess_log w) diff_argv = Ran p ->
  returncode p = 0 ->
  limit = VNone \/ limit = VInt 0 ->
  get_staged_diff limit w = Ok (stdout p, false) (after diff_argv).
Proof.
  intros Hgit Hrc Hlimit.
  unfold get_staged_diff, subprocess_run; run. fold diff_argv.
  rewrite Hgit, Hrc. simpl.
  destruct Hlimit as [-> | ->]; reflexivity.
Qed.

Lemma truthy_nonempty (s : string) :
  Str.truthy s = true <-> s <> EmptyString.
Proof. destruct s; simpl; split; congruence. Qed.




End GitFacts.

Lemma get_staged_diff_truncation_witness :
  get_staged_diff (VInt 4)
    (Sample.started None Sample.no_environ (Sample.git_prints "diff --git")
       Sample.no_network)
  = Ok ("diff" ++ truncation_marker, true)
      (World.log_subprocess diff_argv
         (Sample.started None Sample.no_environ (Sample.git_prints "diff --git")
            Sample.no_network)).
Proof.
  apply (get_staged_diff_truncation
           (Sample.started None Sample.no_environ (Sample.git_prints "diff --git")
              Sample.no_network)
           {| returncode := 0; stdout := "diff --git"; stderr := EmptyString |} 4);
    [reflexivity | reflexivity | lia | vm_compute; reflexivity].
Defined.

Lemma get_staged_diff_no_limit_witness :
  get_staged_diff (VInt 0)
    (Sample.started None Sample.no_environ (Sample.git_prints "diff --git")
       Sample.no_network)
  = Ok ("diff --git", false)
      (World.log_subprocess diff_argv
         (Sample.started None Sample.no_environ (Sample.git_prints "diff --git")
            Sample.no_network)).
Proof.
  apply (get_staged_diff_no_limit
           (Sample.started None Sample.no_environ (Sample.git_prints "diff --git")
              Sample.no_network)
           {| returncode := 0; stdout := "diff --git"; stderr := EmptyString |}
           (VInt 0));
    [reflexivity | reflexivity | right; reflexivity].
Defined.


(** ** Strings: examples *)

Example strip_example :
  Str.strip (" true" ++ Str.nl) = "true".
Proof. reflexivity. Qed.

Example lower_example : Str.lower "OpenAI" = "openai".
Proof. reflexivity. Qed.

Example splitlines_example :
  Str.splitlines ("a.py" ++ Str.nl ++ Str.nl ++ "b.py" ++ Str.nl)
  = ["a.py"; EmptyString; "b.py"].
Proof. reflexivity. Qed.

Example slice_to_examples :
  Str.slice_to "abcdef" (-2) = "abcd"
  /\ Str.slice_to "abc" (-5) = EmptyString
  /\ Str.slice_to "abc" 10 = "abc".
Proof. repeat split. Qed.

Example join_example : Str.join ", " ["a.py"; "b.py"] = "a.py, b.py".
Proof. reflexivity. Qed.

(** ** Dictionaries and the store *)

Section DictFacts.

Lemma get_set_eq (d : dict) (k : string) (v : value) :
  Dict.get (Dict.set d k v) k = Some v.
Proof.
  induction d as [|[k' v'] d IH]; simpl.
  - now rewrite String.eqb_refl.
  - destruct (String.eqb_spec k' k) as [-> | Hne]; simpl.
    + now rewrite String.eqb_refl.
    + apply String.eqb_neq in Hne. now rewrite Hne.
Qed.

Lemma get_set_ne (d : dict) (k k' : string) (v : value) :
  k <> k' -> Dict.get (Dict.set d k v) k' = Dict.get d k'.
Proof.
  intros Hne. induction d as [|[k0 v0] d IH]; simpl.
  - apply String.eqb_neq in Hne. now rewrite Hne.
  - destruct (String.eqb_spec k0 k) as [-> | Hk0]; simpl.
    + apply String.eqb_neq in Hne. now rewrite Hne.
    + now rewrite IH.
Qed.

Lemma get_set (d : dict) (k k' : string) (v : value) :
  Dict.get (Dict.set d k v) k'
  = if String.eqb k k' then Some v else Dict.get d k'.
Proof.
  destruct (String.eqb_spec k k') as [<- | Hne].
  - apply get_set_eq.
  - now apply get_set_ne.
Qed.

(** Writing back the value a key already has changes nothing. *)
Lemma set_same (d : dict) (k : string) (v : value) :
  Dict.get d k = Some v -> Dict.set d k v = d.
Proof.
  induction d as [|[k' v'] d IH]; simpl; [discriminate |].
  destruct (String.eqb_spec k' k) as [-> | Hne].
  - now intros [= ->].
  - intros H. now rewrite IH.
Qed.

Lemma keys_set (d : dict) (k : string) (v : value) :
  Dict.keys (Dict.set d k v)
  = if Dict.mem d k then Dict.keys d else (Dict.keys d ++ [k])%list.
Proof.
  unfold Dict.mem. induction d as [|[k' v'] d IH]; simpl; [reflexivity |].
  destruct (String.eqb_spec k' k) as [-> | Hne]; simpl; [reflexivity |].
  rewrite IH. now destruct (Dict.get d k).
Qed.

Lemma mem_keys (d : dict) (k : string) :
  Dict.mem d k = true <-> In k (Dict.keys d).
Proof.
  unfold Dict.mem. induction d as [|[k' v'] d IH]; simpl.
  - split; [discriminate | tauto].
  - destruct (String.eqb_spec k' k) as [-> | Hne].
    + split; auto.
    + rewrite IH. split; [auto | intros [H | H]; [contradiction | exact H]].
Qed.

Lemma nodup_set (d : dict) (k : string) (v : value) :
  NoDup (Dict.keys d) -> NoDup (Dict.keys (Dict.set d k v)).
Proof.
  intros Hd. rewrite keys_set.
  destruct (Dict.mem d k) eqn:Hmem; [exact Hd |].
  apply NoDup_app. split; [exact Hd |]. split.
  - intros x Hx Hin. apply list_elem_of_In in Hx, Hin.
    destruct Hin as [<- | []].
    apply mem_keys in Hx. congruence.
  - apply NoDup_singleton.
Qed.

Lemma mem_set (d : dict) (k k' : string) (v : value) :
  Dict.mem d k' = true -> Dict.mem (Dict.set d k v) k' = true.
Proof.
  unfold Dict.mem. rewrite get_set.
  now destruct (String.eqb k k').
Qed.

Lemma forall_set (P : string * value -> Prop) (d : dict) (k : string) (v : value) :
  (forall k', P (k', v)) -> Forall P d -> Forall P (Dict.set d k v).
Proof.
  intros Hv. induction 1 as [|[k' v'] d Hx Hd IH]; simpl.
  - constructor; [apply Hv | constructor].
  - destruct (String.eqb k' k); constructor; auto.
Qed.

(** An item found by position is found by key when the keys are unique. *)
Lemma get_nth (d : dict) (i : nat) (k : string) (v : value) :
  NoDup (Dict.keys d) -> d !! i = Some (k, v) -> Dict.get d k = Some v.
Proof.
  revert i; induction d as [|[k' v'] d IH]; intros i Hd Hi.
  - now destruct i.
  - simpl in Hd. apply NoDup_cons in Hd as [Hk' Hd'].
    destruct i as [|i]; simpl in *.
    + injection Hi as -> ->. now rewrite String.eqb_refl.
    + destruct (String.eqb_spec k' k) as [-> | Hne]; [| eauto].
      exfalso. apply Hk'. apply list_elem_of_fmap.
      exists (k, v). split; [reflexivity |].
      eapply list_elem_of_lookup_2. exact Hi.
Qed.

Lemma get_absent (d : dict) (k : string) :
  k ∉ Dict.keys d -> Dict.get d k = None.
Proof.
  intros Hk. destruct (Dict.get d k) eqn:Hget; [| reflexivity].
  exfalso. apply Hk. apply list_elem_of_In, mem_keys.
  unfold Dict.mem. now rewrite Hget.
Qed.

Lemma get_set_all (items b : dict) (k : string) :
  NoDup (Dict.keys items) ->
  Dict.get (set_all items b) k
  = match Dict.get items k with Some v => Some v | None => Dict.get b k end.
Proof.
  unfold set_all. revert b; induction items as [|[k0 v0] items IH]; intros b Hd; simpl.
  - reflexivity.
  - simpl in Hd. apply NoDup_cons in Hd as [Hk0 Hd'].
    rewrite IH by exact Hd'. rewrite get_set.
    destruct (String.eqb_spec k0 k) as [<- | Hne]; [| reflexivity].
    now rewrite get_absent.
Qed.

Lemma mem_set_all (items b : dict) (k : string) :
  Dict.mem b k = true -> Dict.mem (set_all items b) k = true.
Proof.
  unfold set_all. revert b; induction items as [|[k0 v0] items IH]; intros b Hb; simpl.
  - exact Hb.
  - apply IH. now apply mem_set.
Qed.

End DictFacts.

Section StoreFacts.

Lemma set_mem_same (w : world) : World.set_mem (mem w) w = w.
Proof. now destruct w. Qed.

Lemma set_mem_set_mem (st st' : store) (w : world) :
  World.set_mem st' (World.set_mem st w) = World.set_mem st' w.
Proof. reflexivity. Qed.

Lemma write_same (st : store) (l : loc) (d : dict) :
  Store.read st l = Some d -> Store.write l d st = st.
Proof.
  destruct st as [objs n]. unfold Store.read, Store.write; simpl.
  intros H. f_equal. now apply insert_id.
Qed.

Lemma write_write (st : store) (l : loc) (d d' : dict) :
  Store.write l d' (Store.write l d st) = Store.write l d' st.
Proof. unfold Store.write; simpl. f_equal. apply insert_insert_eq. Qed.

Lemma read_write_eq (st : store) (l : loc) (d : dict) :
  Store.read (Store.write l d st) l = Some d.
Proof. unfold Store.read, Store.write; simpl. apply lookup_insert_eq. Qed.

Lemma read_write_ne (st : store) (l l' : loc) (d : dict) :
  l <> l' -> Store.read (Store.write l d st) l' = Store.read st l'.
Proof. intros H. unfold Store.read, Store.write; simpl. now apply lookup_insert_ne. Qed.

(** Induction on documents, through their sequences and mappings. *)
Lemma doc_induction (P : doc -> Prop) :
  P DNull ->
  (forall b, P (DBool b)) ->
  (forall n, P (DInt n)) ->
  (forall x, P (DFloat x)) ->
  (forall s, P (DStr s)) ->
  (forall items, Forall P items -> P (DSeq items)) ->
  (forall entries, Forall (fun e => P (snd e)) entries -> P (DMap entries)) ->
  forall d, P d.
Proof.
  intros HNull HBool HInt HFloat HStr HSeq HMap.
  fix IH 1. intros [| b | n | x | s | items | entries].
  - exact HNull.
  - apply HBool.
  - apply HInt.
  - apply HFloat.
  - apply HStr.
  - apply HSeq. induction items as [|d items IHitems]; constructor.
    + apply IH.
    + exact IHitems.
  - apply HMap. induction entries as [|[k d] entries IHentries]; constructor.
    + apply IH.
    + exact IHentries.
Qed.

End StoreFacts.

(** ** What [construct] does to the store *)

Section ConstructFacts.

Lemma grows_refl (st : store) : allocated_below st -> grows st st.
Proof.
  intros Hst. split; [lia | reflexivity | exact Hst |].
  intros l d Hl Hd. rewrite (Hst l Hl) in Hd. discriminate.
Qed.

Lemma points_above_le (lo lo' : loc) (v : value) :
  (lo <= lo')%positive -> points_above lo' v -> points_above lo v.
Proof. destruct v; simpl; auto. lia. Qed.

Lemma grows_trans (st1 st2 st3 : store) :
  grows st1 st2 -> grows st2 st3 -> grows st1 st3.
Proof.
  intros [Hn1 Ho1 Hb1 Hw1] [Hn2 Ho2 Hb2 Hw2].
  split; [lia | | exact Hb2 |].
  - intros l Hl. rewrite Ho2 by lia. now apply Ho1.
  - intros l d Hl Hd.
    destruct (Pos.ltb_spec l (next_loc st2)) as [Hlt | Hge].
    + rewrite Ho2 in Hd by exact Hlt. exact (Hw1 l d Hl Hd).
    + destruct (Hw2 l d Hge Hd) as [Hk Hp]. split; [exact Hk |].
      eapply Forall_impl; [exact Hp |].
      intros e. apply points_above_le. exact Hn1.
Qed.

Lemma grows_alloc (st st1 : store) (d : dict) :
  grows st st1 ->
  NoDup (Dict.keys d) ->
  Forall (fun e => points_above (next_loc st) (snd e)) d ->
  grows st (snd (Store.alloc d st1)).
Proof.
  intros [Hn Ho Hb Hw] Hk Hp. unfold Store.alloc; simpl.
  split; simpl.
  - lia.
  - intros l Hl. rewrite lookup_insert_ne by lia. now apply Ho.
  - unfold allocated_below; simpl.
    intros l Hl. rewrite lookup_insert_ne by lia. apply Hb. lia.
  - intros l d' Hl Hd'.
    destruct (decide (next_loc st1 = l)) as [<- | Hne].
    + rewrite lookup_insert_eq in Hd'. injection Hd' as <-. now split.
    + rewrite lookup_insert_ne in Hd' by exact Hne.
      exact (Hw l d' Hl Hd').
Qed.

Lemma construct_items_grows (items : list doc) :
  Forall construct_grows_at items ->
  forall st, allocated_below st ->
    grows st (snd (construct_items construct items st)).
Proof.
  induction 1 as [|d items Hd _ IH]; intros st Hst; simpl.
  - now apply grows_refl.
  - destruct (Hd st Hst) as [Hg _].
    destruct (construct d st) as [v st1]; simpl in *.
    specialize (IH st1 (grows_below _ _ Hg)).
    destruct (construct_items construct items st1) as [vs st2]; simpl in *.
    eapply grows_trans; eassumption.
Qed.

Lemma construct_entries_grows (entries : list (string * doc)) :
  Forall (fun e => construct_grows_at (snd e)) entries ->
  forall lo acc st,
    allocated_below st ->
    (lo <= next_loc st)%positive ->
    NoDup (Dict.keys acc) ->
    Forall (fun e => points_above lo (snd e)) acc ->
    grows st (snd (construct_entries construct entries acc st))
    /\ NoDup (Dict.keys (fst (construct_entries construct entries acc st)))
    /\ Forall (fun e => points_above lo (snd e))
         (fst (construct_entries construct entries acc st)).
Proof.
  induction 1 as [|[k d] entries Hd _ IH]; intros lo acc st Hst Hlo Hk Hp; simpl.
  - split; [now apply grows_refl | now split].
  - simpl in Hd. destruct (Hd st Hst) as [Hg Hv].
    destruct (construct d st) as [v st1]; simpl in *.
    destruct (IH lo (Dict.set acc k v) st1) as (Hg' & Hk' & Hp').
    + exact (grows_below _ _ Hg).
    + pose proof (grows_next _ _ Hg). lia.
    + now apply nodup_set.
    + apply forall_set; [| exact Hp].
      intros k'. simpl. eapply points_above_le; eassumption.
    + split; [eapply grows_trans; eassumption | now split].
Qed.

Lemma construct_grows (d : doc) : construct_grows_at d.
Proof.
  induction d as [| b | n | x | s | items IH | entries IH] using doc_induction;
    intros st Hst; simpl; try (split; [now apply grows_refl | exact I]).
  - pose proof (construct_items_grows items IH st Hst) as Hg.
    destruct (construct_items construct items st) as [vs st']; simpl in *.
    now split.
  - destruct (construct_entries_grows entries IH (next_loc st) [] st)
      as (Hg & Hk & Hp); [exact Hst | idtac | constructor | constructor |];
      [lia |].
    destruct (construct_entries construct entries [] st) as [items st1];
      simpl in *.
    pose proof (grows_next _ _ Hg) as Hn.
    split; [| exact Hn].
    now apply grows_alloc.
Qed.

End ConstructFacts.

(** ** The merge *)

Section MergeFacts.

Variable rec : loc -> value -> py unit.

(** While the dictionary iterated over stays as it is, iterating over the
    live object is iterating over its list of items. *)
Lemma merge_loop_snapshot (base overlay : loc) (items : dict)
    (P : world -> Prop) :
  (forall w, P w -> Store.read (mem w) overlay = Some items) ->
  (forall w k v w', P w -> (k, v) ∈ items ->
     merge_item rec base k v w = Ok tt w' -> P w') ->
  forall remaining w,
    (remaining <= List.length items)%nat -> P w ->
    merge_loop rec base overlay (List.length items) remaining w
    = merge_items rec base (drop (List.length items - remaining) items) w.
Proof.
  intros Hread Hstep.
  induction remaining as [|remaining IH]; intros w Hle HP; simpl.
  - rewrite (Hread w HP), Nat.eqb_refl; simpl.
    rewrite Nat.sub_0_r, drop_all. reflexivity.
  - rewrite (Hread w HP), Nat.eqb_refl; simpl.
    destruct (lookup_lt_is_Some_2 items (List.length items - S remaining))
      as [[k v] Hkv]; [lia |].
    rewrite Hkv. rewrite (drop_S _ _ _ Hkv). simpl.
    run. destruct (merge_item rec base k v w) as [[] w' | e w'] eqn:Hitem;
      [| reflexivity].
    replace (S (List.length items - S remaining))
      with (List.length items - remaining)%nat by lia.
    apply IH; [lia |].
    eapply Hstep; [exact HP | | exact Hitem].
    eapply list_elem_of_lookup_2. exact Hkv.
Qed.

Lemma merge_item_leaf (base : loc) (b : dict) (k : string) (v : value)
    (w : world) :
  Store.read (mem w) base = Some b ->
  leaf v = true ->
  merge_item rec base k v w
  = Ok tt (World.set_mem (Store.write base (Dict.set b k v) (mem w)) w).
Proof.
  intros Hb Hv. unfold merge_item. rewrite Hb.
  unfold leaf in Hv. apply negb_true_iff in Hv. rewrite Hv.
  destruct (Dict.get b k) as [[]|]; reflexivity.
Qed.

Lemma merge_items_leaves (base : loc) (items : dict) :
  Forall (fun e => leaf (snd e) = true) items ->
  forall (b : dict) (w : world),
    Store.read (mem w) base = Some b ->
    merge_items rec base items w
    = Ok tt (World.set_mem (Store.write base (set_all items b) (mem w)) w).
Proof.
  induction 1 as [|[k v] items Hv _ IH]; intros b w Hb; simpl.
  - unfold set_all; simpl. now rewrite write_same, set_mem_same.
  - run. rewrite (merge_item_leaf base b k v w Hb Hv).
    rewrite (IH (Dict.set b k v)); simpl; [| apply read_write_eq].
    rewrite write_write. reflexivity.
Qed.

End MergeFacts.

(** Merging a dictionary of leaves into another dictionary sets each of
    its items there, and touches nothing else. *)
Lemma merge_dicts_leaves (depth : nat) (base o : loc) (items b : dict)
    (w : world) :
  base <> o ->
  Store.read (mem w) o = Some items ->
  Store.read (mem w) base = Some b ->
  Forall (fun e => leaf (snd e) = true) items ->
  _merge_dicts (S depth) base (VDict o) w
  = Ok tt (World.set_mem (Store.write base (set_all items b) (mem w)) w).
Proof.
  intros Hne Ho Hb Hleaves. simpl. rewrite Ho.
  rewrite (merge_loop_snapshot (_merge_dicts depth) base o items
             (fun w' => Store.read (mem w') o = Some items
                        /\ exists b', Store.read (mem w') base = Some b')).
  - rewrite Nat.sub_diag. simpl. now apply merge_items_leaves.
  - tauto.
  - intros w1 k v w2 [Ho1 [b1 Hb1]] Hin Hitem.
    rewrite (merge_item_leaf _ base b1 k v w1 Hb1) in Hitem.
    + injection Hitem as <-. simpl. split.
      * rewrite read_write_ne by exact Hne. exact Ho1.
      * eexists. apply read_write_eq.
    + rewrite Forall_forall in Hleaves. exact (Hleaves (k, v) Hin).
  - lia.
  - split; [exact Ho | eauto].
Qed.

#[local] Arguments _merge_dicts : simpl never.

(** ** Recognized overlays *)

Section TopLevel.

(** The parameters of [during]. *)
Variable O : gmap loc dict.
Variable n : loc.
Variable w0 : world.
Variable m : loc.
Hypothesis m_fresh : m <> DEFAULT_AI.

#[local] Abbreviation during := (during O n w0 m).
#[local] Abbreviation section_step := (section_step O).
#[local] Abbreviation item_ok := (item_ok O m).

Lemma read_during_m (M A : dict) : Store.read (mem (during M A)) m = Some M.
Proof. unfold Store.read; simpl. apply lookup_insert_eq. Qed.

Lemma read_during_ai (M A : dict) :
  Store.read (mem (during M A)) DEFAULT_AI = Some A.
Proof.
  unfold Store.read; simpl.
  rewrite lookup_insert_ne by exact m_fresh. apply lookup_insert_eq.
Qed.

Lemma read_during_other (M A : dict) (l : loc) :
  l <> m -> l <> DEFAULT_AI -> Store.read (mem (during M A)) l = O !! l.
Proof.
  intros H1 H2. unfold Store.read; simpl.
  rewrite lookup_insert_ne by congruence. apply lookup_insert_ne. congruence.
Qed.

Lemma during_write_m (M M' A : dict) :
  World.set_mem (Store.write m M' (mem (during M A))) (during M A) = during M' A.
Proof.
  unfold during, Store.write; simpl. now rewrite insert_insert_eq.
Qed.

Lemma during_write_ai (M A A' : dict) :
  World.set_mem (Store.write DEFAULT_AI A' (mem (during M A))) (during M A)
  = during M A'.
Proof.
  unfold during, Store.write; simpl.
  rewrite insert_insert_ne by congruence. now rewrite insert_insert_eq.
Qed.

Lemma merge_item_top (depth : nat) (M A : dict) (e : string * value) :
  item_ok e ->
  Dict.get M "ai" = Some (VDict DEFAULT_AI) ->
  merge_item (_merge_dicts (S depth)) m (fst e) (snd e) (during M A)
  = Ok tt (during (top_step M e) (section_step A e))
  /\ Dict.get (top_step M e) "ai" = Some (VDict DEFAULT_AI).
Proof.
  intros [[Hk Hv] | [Hk (oa & aitems & Hv & Hoam & Hoa & HO & Hleaves)]] HM.
  - unfold top_step, section_step. rewrite Hv. split.
    + rewrite (merge_item_leaf _ m M _ _ _ (read_during_m M A) Hv).
      rewrite during_write_m.
      destruct (snd e); try reflexivity. discriminate Hv.
    + now rewrite get_set_ne.
  - unfold top_step, section_step. rewrite Hv, HO. simpl. split; [| exact HM].
    unfold merge_item. rewrite read_during_m, Hk, HM.
    cbv beta iota delta [Py.isinstance_dict].
    transitivity (_merge_dicts (S depth) DEFAULT_AI (VDict oa) (during M A));
      [reflexivity |].
    rewrite (merge_dicts_leaves depth DEFAULT_AI oa aitems A).
    + now rewrite during_write_ai.
    + congruence.
    + now rewrite read_during_other.
    + apply read_during_ai.
    + exact Hleaves.
Qed.

Lemma merge_items_top (depth : nat) (items : dict) :
  Forall item_ok items ->
  forall M A,
    Dict.get M "ai" = Some (VDict DEFAULT_AI) ->
    merge_items (_merge_dicts (S depth)) m items (during M A)
    = Ok tt (during (fold_left top_step items M) (fold_left section_step items A))
    /\ Dict.get (fold_left top_step items M) "ai" = Some (VDict DEFAULT_AI).
Proof.
  induction 1 as [|e items He _ IH]; intros M A HM; simpl.
  - now split.
  - destruct (merge_item_top depth M A e He HM) as [Hrun HM'].
    destruct e as [k v]. run. simpl in Hrun. rewrite Hrun.
    exact (IH _ _ HM').
Qed.

Lemma merge_dicts_top (depth : nat) (o : loc) (items M A : dict) :
  o <> m -> o <> DEFAULT_AI ->
  O !! o = Some items ->
  Forall item_ok items ->
  Dict.get M "ai" = Some (VDict DEFAULT_AI) ->
  _merge_dicts (S (S depth)) m (VDict o) (during M A)
  = Ok tt (during (fold_left top_step items M) (fold_left section_step items A)).
Proof.
  intros Hom Hoa HO Hitems HM.
  change (_merge_dicts (S (S depth)) m (VDict o) (during M A))
    with (match Store.read (mem (during M A)) o with
          | Some items0 =>
              merge_loop (_merge_dicts (S depth)) m o
                (List.length items0) (List.length items0) (during M A)
          | None => Ok tt (during M A)
          end).
  rewrite read_during_other, HO by assumption.
  rewrite (merge_loop_snapshot (_merge_dicts (S depth)) m o items
             (fun w' => exists M' A',
                  w' = during M' A'
                  /\ Dict.get M' "ai" = Some (VDict DEFAULT_AI))).
  - rewrite Nat.sub_diag. simpl. now apply merge_items_top.
  - intros w' (M' & A' & -> & _). now rewrite read_during_other.
  - intros w1 k v w2 (M' & A' & -> & HM') Hin Hitem.
    rewrite Forall_forall in Hitems.
    destruct (merge_item_top depth M' A' (k, v) (Hitems _ Hin) HM') as [Hrun HM2].
    simpl in Hrun. rewrite Hrun in Hitem. injection Hitem as <-. eauto.
  - lia.
  - eauto.
Qed.

End TopLevel.

Section OverlayFacts.

Lemma get_top_fold (items M : dict) (k : string) :
  NoDup (Dict.keys items) ->
  (forall v, (k, v) ∈ items -> leaf v = true) ->
  Dict.get (fold_left top_step items M) k
  = match Dict.get items k with Some v => Some v | None => Dict.get M k end.
Proof.
  revert M; induction items as [|[k0 v0] items IH]; intros M Hd Hleaf; simpl.
  - reflexivity.
  - simpl in Hd. apply NoDup_cons in Hd as [Hk0 Hd'].
    rewrite IH; [| exact Hd' | intros v Hv; apply Hleaf; now right].
    destruct (String.eqb_spec k0 k) as [<- | Hne].
    + rewrite get_absent by exact Hk0.
      unfold top_step; simpl. rewrite (Hleaf v0) by now left.
      apply get_set_eq.
    + destruct (Dict.get items k); [reflexivity |].
      unfold top_step; simpl. destruct (leaf v0); [| reflexivity].
      now apply get_set_ne.
Qed.

Lemma section_fold_leaves (O : gmap loc dict) (items A : dict) :
  Forall (fun e => leaf (snd e) = true) items ->
  fold_left (section_step O) items A = A.
Proof.
  induction 1 as [|[k v] items Hv _ IH]; simpl; [reflexivity |].
  rewrite <- IH at 2. f_equal. unfold section_step; simpl.
  destruct v; try reflexivity. discriminate Hv.
Qed.

Lemma section_fold (O : gmap loc dict) (m : loc) (items A : dict) :
  Forall (item_ok O m) items ->
  NoDup (Dict.keys items) ->
  fold_left (section_step O) items A
  = match Dict.get items "ai" with
    | Some (VDict oa) =>
        match O !! oa with
        | Some aitems => set_all aitems A
        | None => A
        end
    | _ => A
    end.
Proof.
  revert A; induction items as [|[k v] items IH]; intros A Hok Hd; simpl.
  - reflexivity.
  - apply Forall_cons in Hok as [Hkv Hok].
    simpl in Hd. apply NoDup_cons in Hd as [Hk Hd'].
    destruct Hkv as [[Hk' Hv] | [Hk' (oa & aitems & Hv & _ & _ & HO & _)]];
      simpl in Hk', Hv.
    + apply String.eqb_neq in Hk'. rewrite Hk'.
      rewrite IH by assumption.
      unfold section_step at 2; simpl.
      destruct v; try reflexivity. discriminate Hv.
    + subst k v. simpl.
      rewrite section_fold_leaves.
      * unfold section_step; simpl. now rewrite HO.
      * rewrite Forall_forall in Hok. apply Forall_forall. intros [k v] Hin.
        destruct (Hok _ Hin) as [[_ Hv] | [Hk' _]]; [exact Hv |].
        simpl in Hk'. subst k. exfalso. apply Hk.
        apply list_elem_of_fmap. now exists ("ai", v).
Qed.

(** What [recognized] says of the parsed object, in the terms of the
    merge. *)
Lemma recognized_items (st0 st1 : store) (config : value) :
  grows st0 st1 ->
  points_above (next_loc st0) config ->
  (DEFAULT_AI < next_loc st0)%positive ->
  recognized st1 config = true ->
  exists o items,
    config = VDict o
    /\ Store.read st1 o = Some items
    /\ o <> next_loc st1 /\ o <> DEFAULT_AI
    /\ NoDup (Dict.keys items)
    /\ Forall (item_ok (objects st1) (next_loc st1)) items.
Proof.
  intros Hg Hconfig Hai Hrec.
  destruct config as [| | | | | | o]; try discriminate Hrec.
  simpl in Hrec, Hconfig.
  destruct (Store.read st1 o) as [items |] eqn:Ho; [| discriminate Hrec].
  assert (Hbelow : forall l dl, Store.read st1 l = Some dl -> l <> next_loc st1).
  { intros l dl Hl ->. unfold Store.read in Hl.
    rewrite (grows_below _ _ Hg) in Hl by lia. discriminate. }
  destruct (grows_new _ _ Hg o items Hconfig Ho) as [Hkeys Habove].
  exists o, items. repeat split; eauto; [lia |].
  rewrite forallb_forall in Hrec.
  rewrite Forall_forall in Habove. apply Forall_forall. intros [k v] Hin.
  specialize (Hrec (k, v) (proj1 (list_elem_of_In _ _) Hin)).
  specialize (Habove (k, v) Hin). simpl in Habove.
  unfold recognized_item in Hrec; simpl in Hrec.
  destruct (String.eqb_spec k "ai") as [-> | Hk].
  - right. split; [reflexivity |].
    destruct v as [| | | | | | oa]; try discriminate Hrec. simpl in Hrec, Habove.
    destruct (Store.read st1 oa) as [aitems |] eqn:Hoa; [| discriminate Hrec].
    exists oa, aitems. repeat split; eauto; [lia |].
    rewrite forallb_forall in Hrec. apply Forall_forall. intros e He.
    specialize (Hrec e (proj1 (list_elem_of_In _ _) He)).
    now apply andb_true_iff in Hrec.
  - left. split; [exact Hk |]. now apply andb_true_iff in Hrec.
Qed.

End OverlayFacts.

(** ** Loading *)

Section LoadFacts.

Lemma wf_ai_below (st : store) : wf st -> (DEFAULT_AI < next_loc st)%positive.
Proof.
  intros Hwf. destruct (wf_ai _ Hwf) as (a & Ha & _).
  destruct (Pos.ltb_spec DEFAULT_AI (next_loc st)) as [H | H]; [exact H |].
  unfold Store.read in Ha. rewrite (wf_below _ Hwf) in Ha by exact H.
  discriminate.
Qed.

Lemma wf_config_below (st : store) :
  wf st -> (DEFAULT_CONFIG < next_loc st)%positive.
Proof.
  intros Hwf. pose proof (wf_config _ Hwf) as Hc.
  destruct (Pos.ltb_spec DEFAULT_CONFIG (next_loc st)) as [H | H]; [exact H |].
  unfold Store.read in Hc. rewrite (wf_below _ Hwf) in Hc by exact H.
  discriminate.
Qed.

(** Loading a file that holds a recognized overlay: the result is a new
    dictionary, and the world differs from the world after parsing in that
    dictionary and in the dictionary of the ["ai"] section only. *)
Lemma load_config_recognized (w : world) (d : doc) (config : value)
    (st1 : store) :
  wf (mem w) ->
  config_file w = Some (Yaml d) ->
  (2 <= recursion_budget w)%nat ->
  construct d (mem w) = (config, st1) ->
  recognized st1 config = true ->
  exists o items a,
    config = VDict o
    /\ Store.read st1 o = Some items
    /\ Store.read (mem w) DEFAULT_AI = Some a
    /\ NoDup (Dict.keys items)
    /\ Forall (item_ok (objects st1) (next_loc st1)) items
    /\ grows (mem w) st1
    /\ load_config w
       = Ok (VDict (next_loc st1))
           (during (objects st1) (Pos.succ (next_loc st1)) w (next_loc st1)
              (fold_left top_step items default_config)
              (fold_left (section_step (objects st1)) items a)).
Proof.
  intros Hwf Hfile Hbudget Hparse Hrec.
  pose proof (construct_grows d (mem w) (wf_below _ Hwf)) as [Hg Hv].
  rewrite Hparse in Hg, Hv. simpl in Hg, Hv.
  pose proof (wf_ai_below _ Hwf) as Hai.
  pose proof (wf_config_below _ Hwf) as Hcfg.
  destruct (recognized_items _ _ _ Hg Hv Hai Hrec)
    as (o & items & -> & Ho & Hom & Hoa & Hkeys & Hok).
  destruct (wf_ai _ Hwf) as (a & Ha & _).
  exists o, items, a.
  do 6 (split; [assumption || reflexivity |]).
  assert (Hc1 : Store.read st1 DEFAULT_CONFIG = Some default_config).
  { unfold Store.read. rewrite (grows_old _ _ Hg) by exact Hcfg.
    apply (wf_config _ Hwf). }
  assert (Ha1 : objects st1 !! DEFAULT_AI = Some a).
  { rewrite (grows_old _ _ Hg) by exact Hai. exact Ha. }
  assert (Hm : next_loc st1 <> DEFAULT_AI).
  { pose proof (grows_next _ _ Hg). lia. }
  assert (Hstart :
    World.set_mem (snd (Store.alloc default_config st1)) w
    = during (objects st1) (Pos.succ (next_loc st1)) w (next_loc st1)
        default_config a).
  { unfold during, Store.alloc; simpl. now rewrite (insert_id _ _ _ Ha1). }
  unfold load_config; run. unfold get_config_path, safe_load_file, copy.
  cbv beta iota. rewrite Hfile. cbv beta iota. rewrite Hfile, Hparse.
  cbv beta iota. change (mem (World.set_mem st1 w)) with st1. rewrite Hc1.
  change (World.set_mem ?s (World.set_mem st1 w)) with (World.set_mem s w).
  change (Store.alloc default_config st1)
    with (next_loc st1, snd (Store.alloc default_config st1)).
  cbv beta iota. rewrite Hstart.
  assert (Hread : Store.read
            (mem (during (objects st1) (Pos.succ (next_loc st1)) w
                    (next_loc st1) default_config a)) o = Some items).
  { rewrite read_during_other by assumption. exact Ho. }
  unfold Py.truthy. rewrite Hread.
  destruct items as [|e items]; [reflexivity |].
  change (recursion_budget (during _ _ w _ _ _)) with (recursion_budget w).
  destruct (recursion_budget w) as [|[|depth]]; [lia | lia |].
  rewrite (merge_dicts_top (objects st1) (Pos.succ (next_loc st1)) w
             (next_loc st1) Hm depth o (e :: items)); try assumption;
    reflexivity.
Qed.

End LoadFacts.

Section MergedFacts.

Lemma get_elem (d : dict) (k : string) (v : value) :
  Dict.get d k = Some v -> (k, v) ∈ d.
Proof.
  induction d as [|[k' v'] d IH]; simpl; [discriminate |].
  destruct (String.eqb_spec k' k) as [-> | Hne].
  - intros [= ->]. now left.
  - intros H. right. now apply IH.
Qed.

Lemma grows_keys (st0 st1 : store) (l : loc) (d : dict) :
  wf st0 -> grows st0 st1 -> Store.read st1 l = Some d -> NoDup (Dict.keys d).
Proof.
  intros Hwf Hg Hd.
  destruct (Pos.ltb_spec l (next_loc st0)) as [Hlt | Hge].
  - unfold Store.read in Hd. rewrite (grows_old _ _ Hg) in Hd by exact Hlt.
    exact (wf_keys _ Hwf l d Hd).
  - exact (proj1 (grows_new _ _ Hg l d Hge Hd)).
Qed.

Variables (w : world) (d : doc) (config : value) (st1 : store).
Hypothesis Hwf : wf (mem w).
Hypothesis Hfile : config_file w = Some (Yaml d).
Hypothesis Hbudget : (2 <= recursion_budget w)%nat.
Hypothesis Hparse : construct d (mem w) = (config, st1).
Hypothesis Hrec : recognized st1 config = true.

(** A setting outside the section: the overlay's value when the overlay
    has the key, the value of [DEFAULT_CONFIG] otherwise. *)
Lemma load_config_setting (k : string) :
  In k setting_keys ->
  exists merged w',
    load_config w = Ok (VDict merged) w'
    /\ is_Some (lookup_path (mem w') (VDict merged) [k])
    /\ lookup_path (mem w') (VDict merged) [k]
       = match lookup_path st1 config [k] with
         | Some v => Some v
         | None => lookup_path (mem w) (VDict DEFAULT_CONFIG) [k]
         end.
Proof.
  intros Hk.
  destruct (load_config_recognized w d config st1 Hwf Hfile Hbudget Hparse Hrec)
    as (o & items & a & -> & Ho & Ha & Hkeys & Hok & Hg & Hload).
  eexists _, _. split; [exact Hload |].
  assert (Hm : next_loc st1 <> DEFAULT_AI).
  { pose proof (grows_next _ _ Hg). pose proof (wf_ai_below _ Hwf). lia. }
  assert (Hget : Dict.get (fold_left top_step items default_config) k
                 = match Dict.get items k with
                   | Some v => Some v
                   | None => Dict.get default_config k
                   end).
  { apply get_top_fold; [exact Hkeys |].
    intros v Hv. rewrite Forall_forall in Hok.
    destruct (Hok _ Hv) as [[_ Hleaf] | [Hai _]]; [exact Hleaf |].
    simpl in Hai. subst k. simpl in Hk. intuition discriminate. }
  cbn [lookup_path]. rewrite read_during_m.
  rewrite Hget, Ho, (wf_config _ Hwf).
  split.
  - destruct (Dict.get items k); [eauto |].
    simpl in Hk. destruct Hk as [<- | [<- | []]]; simpl; eauto.
  - now destruct (Dict.get items k).
Qed.

(** A setting of the section, likewise; the value of [DEFAULT_CONFIG] is
    read through the dictionary of its section. *)
Lemma load_config_section (k : string) :
  In k section_keys ->
  exists merged w',
    load_config w = Ok (VDict merged) w'
    /\ is_Some (lookup_path (mem w') (VDict merged) ["ai"; k])
    /\ lookup_path (mem w') (VDict merged) ["ai"; k]
       = match lookup_path st1 config ["ai"; k] with
         | Some v => Some v
         | None => lookup_path (mem w) (VDict DEFAULT_CONFIG) ["ai"; k]
         end.
Proof.
  intros Hk.
  destruct (load_config_recognized w d config st1 Hwf Hfile Hbudget Hparse Hrec)
    as (o & items & a & -> & Ho & Ha & Hkeys & Hok & Hg & Hload).
  eexists _, _. split; [exact Hload |].
  assert (Hm : next_loc st1 <> DEFAULT_AI).
  { pose proof (grows_next _ _ Hg). pose proof (wf_ai_below _ Hwf). lia. }
  destruct (merge_items_top (objects st1) (Pos.succ (next_loc st1)) w
              (next_loc st1) Hm 0 items Hok default_config a eq_refl)
    as [_ Hai].
  destruct (wf_ai _ Hwf) as (a' & Ha' & Hmem).
  rewrite Ha in Ha'. injection Ha' as <-.
  specialize (Hmem k Hk). unfold Dict.mem in Hmem.
  cbn [lookup_path].
  rewrite read_during_m. rewrite Hai.
  rewrite read_during_ai by exact Hm.
  rewrite (section_fold _ _ _ _ Hok Hkeys).
  rewrite Ho, (wf_config _ Hwf).
  change (Dict.get default_config "ai") with (Some (VDict DEFAULT_AI)).
  cbv beta iota. rewrite Ha.
  destruct (Dict.get items "ai") as [v |] eqn:Hsection.
  - apply get_elem in Hsection. rewrite Forall_forall in Hok.
    destruct (Hok _ Hsection)
      as [[Hne _] | [_ (oa & aitems & Hv & _ & _ & HO & _)]];
      [now contradiction Hne |].
    simpl in Hv. subst v. unfold Store.read. rewrite HO.
    rewrite get_set_all by exact (grows_keys _ _ oa aitems Hwf Hg HO).
    destruct (Dict.get aitems k); [eauto |].
    destruct (Dict.get a k); [eauto | discriminate Hmem].
  - destruct (Dict.get a k); [eauto | discriminate Hmem].
Qed.

End MergedFacts.

(** ** Merging the defaults onto a copy of themselves *)

Section SelfMerge.

Lemma elem_get (d : dict) (k : string) (v : value) :
  NoDup (Dict.keys d) -> (k, v) ∈ d -> Dict.get d k = Some v.
Proof.
  intros Hd Hin. apply list_elem_of_lookup_1 in Hin as [i Hi].
  exact (get_nth d i k v Hd Hi).
Qed.

(** Setting a leaf that the dictionary already has changes nothing. *)
Lemma merge_item_same (rec : loc -> value -> py unit) (base : loc) (b : dict)
    (k : string) (v : value) (w : world) :
  Store.read (mem w) base = Some b ->
  Dict.get b k = Some v ->
  leaf v = true ->
  merge_item rec base k v w = Ok tt w.
Proof.
  intros Hb Hk Hv. rewrite (merge_item_leaf rec base b k v w Hb Hv).
  now rewrite (set_same b k v Hk), (write_same _ _ _ Hb), set_mem_same.
Qed.

Lemma merge_items_identity (rec : loc -> value -> py unit) (base : loc)
    (items : dict) (w : world) :
  (forall k v, (k, v) ∈ items -> merge_item rec base k v w = Ok tt w) ->
  merge_items rec base items w = Ok tt w.
Proof.
  induction items as [|[k v] items IH]; intros Hstep; simpl; [reflexivity |].
  run. rewrite (Hstep k v) by now left.
  apply IH. intros k' v' Hin. apply Hstep. now right.
Qed.

(** A merge whose every step leaves the world as it is. *)
Lemma merge_loop_identity (rec : loc -> value -> py unit) (base overlay : loc)
    (items : dict) (w : world) :
  Store.read (mem w) overlay = Some items ->
  (forall k v, (k, v) ∈ items -> merge_item rec base k v w = Ok tt w) ->
  merge_loop rec base overlay (List.length items) (List.length items) w
  = Ok tt w.
Proof.
  intros Ho Hstep.
  rewrite (merge_loop_snapshot rec base overlay items (fun w' => w' = w)).
  - rewrite Nat.sub_diag. simpl. now apply merge_items_identity.
  - now intros w' ->.
  - intros w1 k v w2 -> Hin Hitem. rewrite (Hstep k v Hin) in Hitem.
    now injection Hitem.
  - lia.
  - reflexivity.
Qed.

Lemma default_ai_keys : NoDup (Dict.keys default_ai).
Proof. apply (bool_decide_unpack _). vm_compute. exact I. Qed.

Lemma default_config_keys : NoDup (Dict.keys default_config).
Proof. apply (bool_decide_unpack _). vm_compute. exact I. Qed.

Lemma default_ai_leaves : Forall (fun e => leaf (snd e) = true) default_ai.
Proof. repeat constructor. Qed.

(** Merging the dictionary of the section into itself. *)
Lemma merge_default_ai_self (depth : nat) (w : world) :
  Store.read (mem w) DEFAULT_AI = Some default_ai ->
  _merge_dicts (S depth) DEFAULT_AI (VDict DEFAULT_AI) w = Ok tt w.
Proof.
  intros Ha.
  change (_merge_dicts (S depth) DEFAULT_AI (VDict DEFAULT_AI) w)
    with (match Store.read (mem w) DEFAULT_AI with
          | Some items =>
              merge_loop (_merge_dicts depth) DEFAULT_AI DEFAULT_AI
                (List.length items) (List.length items) w
          | None => Ok tt w
          end).
  rewrite Ha. apply merge_loop_identity; [exact Ha |].
  intros k v Hin. apply (merge_item_same _ _ default_ai); [exact Ha | |].
  - exact (elem_get _ _ _ default_ai_keys Hin).
  - pose proof default_ai_leaves as H. rewrite Forall_forall in H.
    exact (H (k, v) Hin).
Qed.

Lemma merge_defaults_idempotent (w : world) :
  pristine (mem w) ->
  allocated_below (mem w) ->
  (2 <= recursion_budget w)%nat ->
  merge_defaults_onto_copy w
  = Ok (next_loc (mem w))
      (World.set_mem (snd (Store.alloc default_config (mem w))) w).
Proof.
  intros [Hc Ha] Hbelow Hbudget.
  assert (Hm2 : next_loc (mem w) <> DEFAULT_CONFIG).
  { intros E. unfold Store.read in Hc. rewrite Hbelow in Hc by lia. discriminate. }
  assert (Hm1 : next_loc (mem w) <> DEFAULT_AI).
  { intros E. unfold Store.read in Ha. rewrite Hbelow in Ha by lia. discriminate. }
  unfold merge_defaults_onto_copy, copy; run. rewrite Hc.
  change (Store.alloc default_config (mem w))
    with (next_loc (mem w), snd (Store.alloc default_config (mem w))).
  cbv beta iota.
  set (w1 := World.set_mem (snd (Store.alloc default_config (mem w))) w).
  change (recursion_budget w1) with (recursion_budget w).
  destruct (recursion_budget w) as [|[|depth]]; [lia | lia |].
  assert (Hc1 : Store.read (mem w1) DEFAULT_CONFIG = Some default_config).
  { unfold w1, Store.read; simpl. now rewrite lookup_insert_ne. }
  assert (Ha1 : Store.read (mem w1) DEFAULT_AI = Some default_ai).
  { unfold w1, Store.read; simpl. now rewrite lookup_insert_ne. }
  assert (Hm : Store.read (mem w1) (next_loc (mem w)) = Some default_config).
  { unfold w1, Store.read; simpl. apply lookup_insert_eq. }
  change (_merge_dicts (S (S depth)) (next_loc (mem w)) (VDict DEFAULT_CONFIG) w1)
    with (match Store.read (mem w1) DEFAULT_CONFIG with
          | Some items =>
              merge_loop (_merge_dicts (S depth)) (next_loc (mem w)) DEFAULT_CONFIG
                (List.length items) (List.length items) w1
          | None => Ok tt w1
          end).
  rewrite Hc1. rewrite merge_loop_identity; [reflexivity | exact Hc1 |].
  intros k v Hin.
  pose proof (elem_get _ _ _ default_config_keys Hin) as Hget.
  destruct (leaf v) eqn:Hleaf.
  - now apply (merge_item_same _ _ default_config).
  - unfold merge_item. rewrite Hm, Hget.
    unfold default_config in Hin.
    repeat (apply elem_of_cons in Hin as [Hin | Hin];
            [injection Hin as -> ->; try discriminate Hleaf |]).
    + cbv beta iota delta [Py.isinstance_dict].
      now apply merge_default_ai_self.
    + now apply elem_of_nil in Hin.
Qed.

End SelfMerge.

(** ** The configuration store: claims *)

Lemma wf_imported : wf imported.
Proof.
  split.
  - reflexivity.
  - exists default_ai. split; [reflexivity |].
    intros k Hk. simpl in Hk.
    repeat (destruct Hk as [<- | Hk]; [reflexivity |]). contradiction.
  - intros l Hl. unfold imported in *; simpl in *.
    rewrite !lookup_insert_ne by (unfold DEFAULT_CONFIG, DEFAULT_AI; lia).
    apply lookup_empty.
  - intros l d Hd. unfold Store.read, imported in Hd; simpl in Hd.
    apply lookup_insert_Some in Hd as [[_ <-] | [_ Hd]];
      [repeat constructor; discriminate |].
    apply lookup_insert_Some in Hd as [[_ <-] | [_ Hd]];
      [repeat constructor; discriminate |].
    now rewrite lookup_empty in Hd.
  - intros l d Hd. unfold Store.read, imported in Hd; simpl in Hd.
    apply lookup_insert_Some in Hd as [[_ <-] | [_ Hd]];
      [exact default_config_keys |].
    apply lookup_insert_Some in Hd as [[_ <-] | [_ Hd]];
      [exact default_ai_keys |].
    now rewrite lookup_empty in Hd.
Qed.

Lemma pristine_imported : pristine imported.
Proof. now split. Qed.

(** The settings of a pristine store are those of the source. *)
Lemma pristine_defaults (st : store) :
  pristine st ->
  lookup_path st (VDict DEFAULT_CONFIG) ["ai"; "provider"] = Some (VStr "openai")
  /\ lookup_path st (VDict DEFAULT_CONFIG) ["ai"; "model"]
     = Some (VStr "gpt-3.5-turbo")
  /\ lookup_path st (VDict DEFAULT_CONFIG) ["ai"; "temperature"]
     = Some (VFloat 0.7)
  /\ lookup_path st (VDict DEFAULT_CONFIG) ["ai"; "max_tokens"] = Some (VInt 100)
  /\ lookup_path st (VDict DEFAULT_CONFIG) ["ai"; "api_key"]
     = Some (VStr EmptyString)
  /\ lookup_path st (VDict DEFAULT_CONFIG) ["commit_style"]
     = Some (VStr "conventional")
  /\ lookup_path st (VDict DEFAULT_CONFIG) ["diff_truncation_limit"]
     = Some (VInt 4000).
Proof.
  intros [Hc Ha]. cbn [lookup_path]. rewrite Hc.
  change (Dict.get default_config "ai") with (Some (VDict DEFAULT_AI)).
  cbv beta iota. rewrite Ha. repeat split; reflexivity.
Qed.

(** C2.  In a well-formed store, when the file parses to a mapping that
    gives values to recognized settings only, [load_config] returns a
    dictionary in which each of the seven settings is present, with the
    value of the parsed mapping where the mapping has the setting, and
    with the value [DEFAULT_CONFIG] held when the call was made
    otherwise.  And merging [DEFAULT_CONFIG], as the source gives it, onto
    a copy of itself yields a copy with the items of the source and leaves
    [DEFAULT_CONFIG] as it was. *)
Theorem load_config_overlays_defaults :
  (forall (w : world) (d : doc),
      wf (mem w) ->
      config_file w = Some (Yaml d) ->
      (2 <= recursion_budget w)%nat ->
      recognized (snd (construct d (mem w))) (fst (construct d (mem w))) = true ->
      exists merged w',
        load_config w = Ok (VDict merged) w'
        /\ forall path, In path recognized_paths ->
             is_Some (lookup_path (mem w') (VDict merged) path)
             /\ lookup_path (mem w') (VDict merged) path
                = match lookup_path (snd (construct d (mem w)))
                          (fst (construct d (mem w))) path with
                  | Some v => Some v
                  | None => lookup_path (mem w) (VDict DEFAULT_CONFIG) path
                  end)
  /\ (forall w : world,
        pristine (mem w) ->
        allocated_below (mem w) ->
        (2 <= recursion_budget w)%nat ->
        exists merged w',
          merge_defaults_onto_copy w = Ok merged w'
          /\ Store.read (mem w') merged = Some default_config
          /\ pristine (mem w')
          /\ forall l, l <> merged ->
               Store.read (mem w') l = Store.read (mem w) l).
Proof.
  split.
  - intros w d Hwf Hfile Hbudget Hrec.
    destruct (construct d (mem w)) as [config st1] eqn:Hparse.
    simpl in Hrec |- *.
    destruct (load_config_recognized w d config st1 Hwf Hfile Hbudget Hparse Hrec)
      as (o & items & a & _ & _ & _ & _ & _ & _ & Hload).
    eexists _, _. split; [exact Hload |].
    intros path Hpath. unfold recognized_paths in Hpath. simpl in Hpath.
    assert (Hcases :
      (exists k, path = ["ai"; k] /\ In k section_keys)
      \/ (exists k, path = [k] /\ In k setting_keys)).
    { simpl. intuition (subst; eauto 10). }
    destruct Hcases as [(k & -> & Hk) | (k & -> & Hk)].
    + destruct (load_config_section w d config st1 Hwf Hfile Hbudget Hparse Hrec
                  k Hk) as (merged & w' & Hload' & Hsome & Heq).
      rewrite Hload in Hload'. injection Hload' as <- <-. now split.
    + destruct (load_config_setting w d config st1 Hwf Hfile Hbudget Hparse Hrec
                  k Hk) as (merged & w' & Hload' & Hsome & Heq).
      rewrite Hload in Hload'. injection Hload' as <- <-. now split.
  - intros w Hp Hbelow Hbudget.
    eexists _, _. split; [now apply merge_defaults_idempotent |].
    destruct Hp as [Hc Ha].
    assert (Hm2 : next_loc (mem w) <> DEFAULT_CONFIG).
    { intros E. unfold Store.read in Hc. rewrite Hbelow in Hc by lia. discriminate. }
    assert (Hm1 : next_loc (mem w) <> DEFAULT_AI).
    { intros E. unfold Store.read in Ha. rewrite Hbelow in Ha by lia. discriminate. }
    unfold pristine, Store.read in *; simpl.
    rewrite lookup_insert_eq, !lookup_insert_ne by assumption.
    repeat split; try assumption.
    intros l Hl. now rewrite lookup_insert_ne.
Qed.

Lemma load_config_overlays_defaults_witness :
  let w := Sample.started
             (Some (Yaml (DMap [("ai", DMap [("model", DStr "gpt-4")])])))
             Sample.no_environ Sample.no_git Sample.no_network in
  exists merged w',
    load_config w = Ok (VDict merged) w'
    /\ lookup_path (mem w') (VDict merged) ["ai"; "model"] = Some (VStr "gpt-4")
    /\ lookup_path (mem w') (VDict merged) ["commit_style"]
       = Some (VStr "conventional")
    /\ exists copied w'',
         merge_defaults_onto_copy w = Ok copied w''
         /\ Store.read (mem w'') copied = Some default_config.
Proof.
  intros w.
  destruct (proj1 load_config_overlays_defaults w
              (DMap [("ai", DMap [("model", DStr "gpt-4")])])
              wf_imported eq_refl ltac:(simpl; lia) eq_refl)
    as (merged & w' & Hload & Hpaths).
  exists merged, w'. split; [exact Hload |]. split.
  - destruct (Hpaths ["ai"; "model"]) as [_ ->]; [simpl; tauto | reflexivity].
  - split.
    + destruct (Hpaths ["commit_style"]) as [_ ->]; [simpl; tauto | reflexivity].
    + destruct (proj2 load_config_overlays_defaults w pristine_imported
                  (wf_below _ wf_imported) ltac:(simpl; lia))
        as (copied & w'' & Hmerge & Hcopy & _).
      now exists copied, w''.
Defined.

(** ** What every merge and every load keeps *)

Section MergeSafe.

Lemma only_mem_refl (w : world) : only_mem w w.
Proof. unfold only_mem. now rewrite set_mem_same. Qed.

Lemma only_mem_trans (w1 w2 w3 : world) :
  only_mem w1 w2 -> only_mem w2 w3 -> only_mem w1 w3.
Proof. unfold only_mem. intros H12 H23. rewrite H23 at 1. now rewrite H12. Qed.

Lemma only_mem_set_mem (w : world) (st : store) : only_mem w (World.set_mem st w).
Proof. reflexivity. Qed.

Variable rec : loc -> value -> py unit.
Hypothesis rec_safe : forall b v w, merge_safe w (rec b v w).

Lemma merge_item_safe (base : loc) (k : string) (v : value) (w : world) :
  merge_safe w (merge_item rec base k v w).
Proof.
  unfold merge_item.
  destruct (Store.read (mem w) base) as [b |];
    [| split; [apply only_mem_refl | reflexivity]].
  assert (Hwrite : merge_safe w
            (Ok tt (World.set_mem (Store.write base (Dict.set b k v) (mem w)) w))).
  { split; [apply only_mem_set_mem | exact I]. }
  destruct (Dict.get b k) as [[| | | | | | b'] |]; try exact Hwrite.
  destruct (Py.isinstance_dict v); [apply rec_safe | exact Hwrite].
Qed.

Lemma merge_loop_safe (base overlay : loc) (used remaining : nat) (w : world) :
  merge_safe w (merge_loop rec base overlay used remaining w).
Proof.
  revert w; induction remaining as [|remaining IH]; intros w; simpl;
    (destruct (Store.read (mem w) overlay) as [items |];
     [| split; [apply only_mem_refl | exact I]]);
    (destruct (Nat.eqb (List.length items) used); simpl;
     [| split; [apply only_mem_refl | reflexivity]]);
    try (split; [apply only_mem_refl | exact I]).
  destruct (items !! (used - S remaining)%nat) as [[k v] |];
    [| split; [apply only_mem_refl | exact I]].
  run. destruct (merge_item_safe base k v w) as [Hw1 He1].
  destruct (merge_item rec base k v w) as [[] w1 | e w1]; [| now split].
  destruct (IH w1) as [Hw2 He2]. split; [| exact He2].
  eapply only_mem_trans; eassumption.
Qed.

End MergeSafe.

Lemma merge_dicts_safe (depth : nat) (base : loc) (overlay : value) (w : world) :
  merge_safe w (_merge_dicts depth base overlay w).
Proof.
  revert base overlay w; induction depth as [|depth IH]; intros base overlay w.
  - split; [apply only_mem_refl | reflexivity].
  - destruct overlay as [| | | | | | o];
      try (split; [apply only_mem_refl | reflexivity]).
    change (_merge_dicts (S depth) base (VDict o) w)
      with (match Store.read (mem w) o with
            | Some items =>
                merge_loop (_merge_dicts depth) base o
                  (List.length items) (List.length items) w
            | None => Ok tt w
            end).
    destruct (Store.read (mem w) o) as [items |];
      [| split; [apply only_mem_refl | exact I]].
    now apply merge_loop_safe.
Qed.


(** Without a file, [load_config] writes one, reports it, and goes on as
    it does with a file. *)
Lemma load_config_absent (w : world) (d : doc) :
  config_file w = None ->
  represent (recursion_budget w) (mem w) (VDict DEFAULT_CONFIG) = Some d ->
  load_config w
  = load_config
      (World.emit (Printed "Please update it with your AI provider API key.")
         (World.emit (Printed ("Created default configuration at " ++ config_path w))
            (World.set_config_file (Some (Yaml d)) w))).
Proof.
  intros Hfile Hd. unfold load_config; run.
  unfold get_config_path, create_default_config.
  cbv beta iota. rewrite Hfile, Hd. reflexivity.
Qed.


Lemma keeps_outside_refl (w : world) : keeps_outside w w.
Proof. now repeat split. Qed.

Lemma keeps_outside_trans (w1 w2 w3 : world) :
  keeps_outside w1 w2 -> keeps_outside w2 w3 -> keeps_outside w1 w3.
Proof. unfold keeps_outside. intuition congruence. Qed.

Lemma only_mem_keeps (w w' : world) : only_mem w w' -> keeps_outside w w'.
Proof. intros ->. now repeat split. Qed.

Lemma load_config_keeps (w : world) :
  keeps_outside w (world_of (load_config w)).
Proof.
  unfold load_config; run. unfold get_config_path. cbv beta iota.
  assert (Hbody : forall w0,
    keeps_outside w0
      (world_of
         (match
            match safe_load_file w0 with
            | Ok config w1 =>
                match copy DEFAULT_CONFIG w1 with
                | Ok merged w2 =>
                    match
                      (if Py.truthy (mem w2) config
                       then _merge_dicts (recursion_budget w2) merged config
                       else fun w3 => Ok tt w3) w2
                    with
                    | Ok _ w3 => Ok (VDict merged) w3
                    | Raise e w3 => Raise e w3
                    end
                | Raise e w2 => Raise e w2
                end
            | Raise e w1 => Raise e w1
            end
          with
          | Ok a w1 => Ok a w1
          | Raise e w1 =>
              if is_Exception e
              then Ok (VDict DEFAULT_CONFIG)
                     (World.emit (Printed "Using default configuration.")
                        (World.emit
                           (Printed ("Error loading configuration: " ++ Py.str_exn e))
                           w1))
              else Raise e w1
          end))).
  { intros w0.
    assert (H1 : keeps_outside w0 (world_of (safe_load_file w0))).
    { unfold safe_load_file. destruct (config_file w0) as [[d | msg] |];
        try apply keeps_outside_refl.
      destruct (construct d (mem w0)). now repeat split. }
    destruct (safe_load_file w0) as [config w1 | e w1]; simpl in H1.
    - assert (H2 : keeps_outside w1 (world_of (copy DEFAULT_CONFIG w1))).
      { unfold copy. destruct (Store.read (mem w1) DEFAULT_CONFIG) as [d0 |];
          [| apply keeps_outside_refl].
        now repeat split. }
      destruct (copy DEFAULT_CONFIG w1) as [merged w2 | e w2]; simpl in H2.
      + destruct (Py.truthy (mem w2) config).
        * destruct (merge_dicts_safe (recursion_budget w2) merged config w2)
            as [H3 _]. apply only_mem_keeps in H3.
          destruct (_merge_dicts (recursion_budget w2) merged config w2)
            as [[] w3 | e w3]; simpl in H3 |- *.
          -- eauto using keeps_outside_trans.
          -- assert (keeps_outside w0 w3) by eauto using keeps_outside_trans.
             destruct (is_Exception e); [| assumption].
             unfold keeps_outside in *; simpl; tauto.
        * simpl. eauto using keeps_outside_trans.
      + assert (keeps_outside w0 w2) by eauto using keeps_outside_trans.
        destruct (is_Exception e); [| assumption].
        unfold keeps_outside in *; simpl; tauto.
    - destruct (is_Exception e); [| assumption].
      unfold keeps_outside in *; simpl; tauto. }
  destruct (config_file w) as [f |] eqn:Hfile.
  - cbv beta iota. apply Hbody.
  - unfold create_default_config.
    destruct (represent (recursion_budget w) (mem w) (VDict DEFAULT_CONFIG))
      as [d |]; [| apply keeps_outside_refl].
    cbv beta iota.
    eapply keeps_outside_trans; [| apply Hbody].
    now repeat split.
Qed.

(** ** Well-formed stores stay well-formed *)

Section WellFormed.

Lemma wf_read_below (st : store) (l : loc) (d : dict) :
  allocated_below st -> Store.read st l = Some d -> (l < next_loc st)%positive.
Proof.
  intros Hst Hd. destruct (Pos.ltb_spec l (next_loc st)) as [H | H]; [exact H |].
  unfold Store.read in Hd. rewrite (Hst l H) in Hd. discriminate.
Qed.

Lemma write_wf (st : store) (base : loc) (b : dict) (k : string) (v : value) :
  wf st ->
  Store.read st base = Some b ->
  base <> DEFAULT_CONFIG ->
  v <> VDict DEFAULT_CONFIG ->
  wf (Store.write base (Dict.set b k v) st).
Proof.
  intros [Hc (a & Ha & Hkeys) Hbelow Hpriv Hnodup] Hb Hbase Hv.
  split.
  - now rewrite read_write_ne.
  - destruct (decide (base = DEFAULT_AI)) as [-> | Hne].
    + rewrite read_write_eq. eexists. split; [reflexivity |].
      rewrite Ha in Hb. injection Hb as <-.
      intros k' Hk'. apply mem_set. now apply Hkeys.
    + rewrite read_write_ne by exact Hne. eauto.
  - intros l Hl. simpl in Hl. unfold Store.write; simpl.
    pose proof (wf_read_below _ _ _ Hbelow Hb).
    rewrite lookup_insert_ne by lia. now apply Hbelow.
  - intros l d Hd. destruct (decide (base = l)) as [<- | Hne].
    + rewrite read_write_eq in Hd. injection Hd as <-.
      apply forall_set; [intros k'; exact Hv |]. exact (Hpriv _ _ Hb).
    + rewrite read_write_ne in Hd by exact Hne. exact (Hpriv _ _ Hd).
  - intros l d Hd. destruct (decide (base = l)) as [<- | Hne].
    + rewrite read_write_eq in Hd. injection Hd as <-.
      apply nodup_set. exact (Hnodup _ _ Hb).
    + rewrite read_write_ne in Hd by exact Hne. exact (Hnodup _ _ Hd).
Qed.

Variable rec : loc -> value -> py unit.
Hypothesis rec_wf : forall b v w,
  wf (mem w) -> b <> DEFAULT_CONFIG -> wf (mem (world_of (rec b v w))).

Lemma merge_item_wf (base : loc) (k : string) (v : value) (w : world) :
  wf (mem w) ->
  base <> DEFAULT_CONFIG ->
  v <> VDict DEFAULT_CONFIG ->
  wf (mem (world_of (merge_item rec base k v w))).
Proof.
  intros Hwf Hbase Hv. unfold merge_item.
  destruct (Store.read (mem w) base) as [b |] eqn:Hb; [| exact Hwf].
  assert (Hwrite : wf (mem (world_of (A := unit)
            (Ok tt (World.set_mem (Store.write base (Dict.set b k v) (mem w)) w))))).
  { simpl. now apply write_wf. }
  destruct (Dict.get b k) as [[| | | | | | b'] |] eqn:Hk; try exact Hwrite.
  destruct (Py.isinstance_dict v); [| exact Hwrite].
  apply rec_wf; [exact Hwf |].
  intros ->. apply get_elem in Hk.
  pose proof (wf_private _ Hwf _ _ Hb) as Hpriv.
  rewrite Forall_forall in Hpriv. now apply (Hpriv _ Hk).
Qed.

Lemma merge_loop_wf (base overlay : loc) (used remaining : nat) (w : world) :
  wf (mem w) ->
  base <> DEFAULT_CONFIG ->
  wf (mem (world_of (merge_loop rec base overlay used remaining w))).
Proof.
  intros Hwf Hbase.
  revert w Hwf; induction remaining as [|remaining IH]; intros w Hwf; simpl;
    (destruct (Store.read (mem w) overlay) as [items |] eqn:Ho;
     [| exact Hwf]);
    (destruct (Nat.eqb (List.length items) used); simpl; [| exact Hwf]);
    try exact Hwf.
  destruct (items !! (used - S remaining)%nat) as [[k v] |] eqn:Hkv;
    [| exact Hwf].
  run.
  assert (Hv : v <> VDict DEFAULT_CONFIG).
  { pose proof (wf_private _ Hwf _ _ Ho) as Hpriv.
    rewrite Forall_forall in Hpriv.
    exact (Hpriv (k, v) (list_elem_of_lookup_2 _ _ _ Hkv)). }
  pose proof (merge_item_wf base k v w Hwf Hbase Hv) as Hstep.
  destruct (merge_item rec base k v w) as [[] w1 | e w1]; [| exact Hstep].
  now apply IH.
Qed.

End WellFormed.

Lemma merge_dicts_wf (depth : nat) (base : loc) (overlay : value) (w : world) :
  wf (mem w) ->
  base <> DEFAULT_CONFIG ->
  wf (mem (world_of (_merge_dicts depth base overlay w))).
Proof.
  revert base overlay w; induction depth as [|depth IH];
    intros base overlay w Hwf Hbase; [exact Hwf |].
  destruct overlay as [| | | | | | o]; try exact Hwf.
  change (_merge_dicts (S depth) base (VDict o) w)
    with (match Store.read (mem w) o with
          | Some items =>
              merge_loop (_merge_dicts depth) base o
                (List.length items) (List.length items) w
          | None => Ok tt w
          end).
  destruct (Store.read (mem w) o) as [items |]; [| exact Hwf].
  now apply merge_loop_wf.
Qed.

Lemma construct_wf (d : doc) (st : store) :
  wf st -> wf (snd (construct d st)).
Proof.
  intros Hwf.
  destruct (construct_grows d st (wf_below _ Hwf)) as [Hg _].
  pose proof (wf_config_below _ Hwf) as Hc.
  pose proof (wf_ai_below _ Hwf) as Ha.
  split.
  - unfold Store.read. rewrite (grows_old _ _ Hg) by exact Hc.
    apply (wf_config _ Hwf).
  - unfold Store.read. rewrite (grows_old _ _ Hg) by exact Ha.
    apply (wf_ai _ Hwf).
  - exact (grows_below _ _ Hg).
  - intros l dl Hl.
    destruct (Pos.ltb_spec l (next_loc st)) as [Hlt | Hge].
    + unfold Store.read in Hl. rewrite (grows_old _ _ Hg) in Hl by exact Hlt.
      exact (wf_private _ Hwf _ _ Hl).
    + destruct (grows_new _ _ Hg l dl Hge Hl) as [_ Habove].
      eapply Forall_impl; [exact Habove |].
      intros [k v] Hv; simpl in *. intros ->. simpl in Hv.
      unfold DEFAULT_CONFIG in *. lia.
  - intros l dl Hl. exact (grows_keys _ _ l dl Hwf Hg Hl).
Qed.

Lemma copy_wf (w : world) :
  wf (mem w) -> wf (mem (world_of (copy DEFAULT_CONFIG w))).
Proof.
  intros Hwf. unfold copy. rewrite (wf_config _ Hwf). simpl.
  pose proof (wf_config_below _ Hwf) as Hc.
  pose proof (wf_ai_below _ Hwf) as Ha.
  destruct Hwf as [Hcfg Hai Hbelow Hpriv Hnodup].
  unfold Store.read in *. split; unfold Store.read; simpl.
  - now rewrite lookup_insert_ne by lia.
  - destruct Hai as (a & Ha' & Hk). exists a.
    split; [| exact Hk]. rewrite lookup_insert_ne; [exact Ha' |].
    intros E. rewrite E in Ha. lia.
  - unfold allocated_below; simpl.
    intros l Hl. rewrite lookup_insert_ne by lia.
    apply Hbelow. lia.
  - intros l dl Hl. apply lookup_insert_Some in Hl as [[_ <-] | [_ Hl]].
    + repeat constructor; discriminate.
    + exact (Hpriv _ _ Hl).
  - intros l dl Hl. apply lookup_insert_Some in Hl as [[_ <-] | [_ Hl]].
    + exact default_config_keys.
    + exact (Hnodup _ _ Hl).
Qed.

(** Every load leaves the store well-formed: the stores a process goes
    through, from the import on, are all well-formed. *)
Lemma load_config_wf (w : world) :
  wf (mem w) -> wf (mem (world_of (load_config w))).
Proof.
  intros Hwf. unfold load_config; run. unfold get_config_path. cbv beta iota.
  assert (Hbody : forall w0, wf (mem w0) ->
    wf (mem (world_of
         (match
            match safe_load_file w0 with
            | Ok config w1 =>
                match copy DEFAULT_CONFIG w1 with
                | Ok merged w2 =>
                    match
                      (if Py.truthy (mem w2) config
                       then _merge_dicts (recursion_budget w2) merged config
                       else fun w3 => Ok tt w3) w2
                    with
                    | Ok _ w3 => Ok (VDict merged) w3
                    | Raise e w3 => Raise e w3
                    end
                | Raise e w2 => Raise e w2
                end
            | Raise e w1 => Raise e w1
            end
          with
          | Ok a w1 => Ok a w1
          | Raise e w1 =>
              if is_Exception e
              then Ok (VDict DEFAULT_CONFIG)
                     (World.emit (Printed "Using default configuration.")
                        (World.emit
                           (Printed ("Error loading configuration: " ++ Py.str_exn e))
                           w1))
              else Raise e w1
          end)))).
  { intros w0 Hwf0.
    assert (H1 : wf (mem (world_of (safe_load_file w0)))).
    { unfold safe_load_file. destruct (config_file w0) as [[d | msg] |];
        try exact Hwf0.
      pose proof (construct_wf d (mem w0) Hwf0).
      now destruct (construct d (mem w0)). }
    destruct (safe_load_file w0) as [config w1 | e w1]; simpl in H1;
      [| now destruct (is_Exception e)].
    pose proof (copy_wf w1 H1) as H2.
    assert (Hm : forall merged w2, copy DEFAULT_CONFIG w1 = Ok merged w2 ->
                 merged <> DEFAULT_CONFIG).
    { unfold copy. rewrite (wf_config _ H1). simpl. intros merged w2 [= <- _].
      pose proof (wf_config_below _ H1). lia. }
    destruct (copy DEFAULT_CONFIG w1) as [merged w2 | e w2]; simpl in H2;
      [| now destruct (is_Exception e)].
    specialize (Hm merged w2 eq_refl).
    destruct (Py.truthy (mem w2) config); [| exact H2].
    pose proof (merge_dicts_wf (recursion_budget w2) merged config w2 H2 Hm) as H3.
    destruct (_merge_dicts (recursion_budget w2) merged config w2)
      as [[] w3 | e w3]; simpl in H3 |- *; [exact H3 |].
    now destruct (is_Exception e). }
  destruct (config_file w) as [f |] eqn:Hfile.
  - cbv beta iota. now apply Hbody.
  - unfold create_default_config.
    destruct (represent (recursion_budget w) (mem w) (VDict DEFAULT_CONFIG))
      as [d |]; [| exact Hwf].
    cbv beta iota. now apply Hbody.
Qed.

(** ** First run: the file is created *)

Section FirstRun.

Lemma represent_pristine (depth : nat) (st : store) :
  pristine st ->
  represent (S (S depth)) st (VDict DEFAULT_CONFIG) = Some default_document.
Proof.
  intros [Hc Ha]. cbn [represent]. rewrite Hc.
  change (sorted default_config) with default_config.
  cbn [map default_config fst snd represent]. rewrite Ha.
  destruct depth; reflexivity.
Qed.

Lemma recognized_default_document (st : store) :
  recognized (snd (construct default_document st))
    (fst (construct default_document st)) = true.
Proof.
  unfold default_document.
  cbn [construct construct_entries Store.alloc fst snd Dict.set String.eqb
       Ascii.eqb Bool.eqb objects next_loc].
  unfold recognized, Store.read. cbn [objects].
  rewrite lookup_insert_eq.
  cbn [forallb recognized_item fst snd String.eqb Ascii.eqb Bool.eqb
       recognized_section andb].
  unfold Store.read. cbn [objects].
  rewrite lookup_insert_ne by lia. rewrite lookup_insert_eq.
  reflexivity.
Qed.

End FirstRun.

(** C4, as the code has it.  When there is no configuration file and
    [DEFAULT_CONFIG] holds what the source gives it, [load_config] returns,
    and leaves a file with the defaults of the source: provider
    ["openai"], model ["gpt-3.5-turbo"], temperature 0.7, 100 output
    tokens, an empty API key, style ["conventional"] and a truncation limit
    of 4000; the two lines that report the creation are the only output. *)
Theorem load_config_creates_file (w : world) :
  wf (mem w) ->
  pristine (mem w) ->
  config_file w = None ->
  (2 <= recursion_budget w)%nat ->
  exists config w',
    load_config w = Ok config w'
    /\ config_file w' = Some (Yaml default_document)
    /\ terminal w' = (terminal w ++ creation_report w)%list
    /\ doc_path default_document ["ai"; "provider"] = Some (DStr "openai")
    /\ doc_path default_document ["ai"; "model"] = Some (DStr "gpt-3.5-turbo")
    /\ doc_path default_document ["ai"; "temperature"] = Some (DFloat 0.7)
    /\ doc_path default_document ["ai"; "max_tokens"] = Some (DInt 100)
    /\ doc_path default_document ["ai"; "api_key"] = Some (DStr EmptyString)
    /\ doc_path default_document ["commit_style"] = Some (DStr "conventional")
    /\ doc_path default_document ["diff_truncation_limit"] = Some (DInt 4000).
Proof.
  intros Hwf Hp Hfile Hbudget.
  destruct (recursion_budget w) as [|[|depth]] eqn:Hdepth; [lia | lia |].
  rewrite (load_config_absent w default_document Hfile)
    by (rewrite Hdepth; now apply represent_pristine).
  set (w1 := World.emit _ _).
  destruct (construct default_document (mem w1)) as [config st1] eqn:Hparse.
  destruct (load_config_recognized w1 default_document config st1)
    as (o & items & a & _ & _ & _ & _ & _ & _ & Hload).
  - exact Hwf.
  - reflexivity.
  - unfold w1; simpl. lia.
  - exact Hparse.
  - pose proof (recognized_default_document (mem w1)) as Hrec.
    now rewrite Hparse in Hrec.
  - rewrite Hload. eexists _, _. split; [reflexivity |].
    split; [reflexivity |]. split.
    + unfold w1, creation_report; simpl. now rewrite <- app_assoc.
    + repeat split; reflexivity.
Qed.

Lemma load_config_creates_file_witness :
  let w := Sample.started None Sample.no_environ Sample.no_git Sample.no_network in
  exists config w',
    load_config w = Ok config w'
    /\ config_file w' = Some (Yaml default_document)
    /\ terminal w'
       = [ Printed "Created default configuration at /home/user/.commy/config.yaml";
           Printed "Please update it with your AI provider API key." ].
Proof.
  intros w.
  destruct (load_config_creates_file w wf_imported pristine_imported eq_refl
              ltac:(simpl; lia))
    as (config & w' & Hload & Hfile & Hterminal & _).
  exists config, w'. split; [exact Hload |]. split; [exact Hfile |].
  exact Hterminal.
Defined.

(** C4, as stated, fails on the name of the provider: the file written by
    a first run names ["openai"]. *)
Lemma load_config_writes_openai :
  let w := Sample.started None Sample.no_environ Sample.no_git Sample.no_network in
  exists config w' d,
    load_config w = Ok config w'
    /\ config_file w' = Some (Yaml d)
    /\ doc_path d ["ai"; "provider"] = Some (DStr "openai")
    /\ doc_path d ["ai"; "provider"] <> Some (DStr "default-provider").
Proof.
  intros w. eexists _, _, default_document.
  split; [vm_compute; reflexivity |].
  split; [reflexivity |].
  split; [reflexivity | discriminate].
Qed.

(** C3 fails on the code.  A first load of a file that sets the provider
    in its ["ai"] section changes what [DEFAULT_CONFIG] holds, and a later
    load, of a file that says nothing of the provider, returns the value
    of the earlier file in place of the default of the source. *)
Theorem load_config_changes_DEFAULT_CONFIG :
  let first := DMap [("ai", DMap [("provider", DStr "anthropic")])] in
  let second := DMap [("commit_style", DStr "plain")] in
  let w := Sample.started (Some (Yaml first)) Sample.no_environ Sample.no_git
             Sample.no_network in
  let w1 := world_of (load_config w) in
  let w2 := World.set_config_file (Some (Yaml second)) w1 in
  lookup_path (mem w) (VDict DEFAULT_CONFIG) ["ai"; "provider"]
    = Some (VStr "openai")
  /\ lookup_path (mem w1) (VDict DEFAULT_CONFIG) ["ai"; "provider"]
     = Some (VStr "anthropic")
  /\ exists merged w3,
       load_config w2 = Ok (VDict merged) w3
       /\ lookup_path (mem w3) (VDict merged) ["ai"; "provider"]
          = Some (VStr "anthropic").
Proof.
  intros first second w w1 w2.
  split; [reflexivity |]. split; [vm_compute; reflexivity |].
  eexists _, _. split; vm_compute; reflexivity.
Qed.

(** The same for every recognized overlay: what it sets in its ["ai"]
    section is found in [DEFAULT_CONFIG] after the load. *)
Lemma load_config_writes_through (w : world) (d : doc) (k : string) (v : value) :
  wf (mem w) ->
  config_file w = Some (Yaml d) ->
  (2 <= recursion_budget w)%nat ->
  recognized (snd (construct d (mem w))) (fst (construct d (mem w))) = true ->
  lookup_path (snd (construct d (mem w))) (fst (construct d (mem w))) ["ai"; k]
    = Some v ->
  lookup_path (mem (world_of (load_config w))) (VDict DEFAULT_CONFIG) ["ai"; k]
    = Some v.
Proof.
  intros Hwf Hfile Hbudget Hrec Hv.
  destruct (construct d (mem w)) as [config st1] eqn:Hparse. simpl in Hrec, Hv.
  destruct (load_config_recognized w d config st1 Hwf Hfile Hbudget Hparse Hrec)
    as (o & items & a & -> & Ho & Ha & Hkeys & Hok & Hg & Hload).
  rewrite Hload. cbn [world_of].
  pose proof (wf_ai_below _ Hwf) as Hai.
  pose proof (wf_config_below _ Hwf) as Hcfg.
  pose proof (grows_next _ _ Hg) as Hnext.
  assert (Hm : next_loc st1 <> DEFAULT_AI) by lia.
  cbn [lookup_path] in Hv |- *. rewrite Ho in Hv.
  rewrite read_during_other by (unfold DEFAULT_CONFIG, DEFAULT_AI in *; lia).
  rewrite (grows_old _ _ Hg) by exact Hcfg.
  pose proof (wf_config _ Hwf) as Hc. unfold Store.read in Hc. rewrite Hc.
  change (Dict.get default_config "ai") with (Some (VDict DEFAULT_AI)).
  cbv beta iota. rewrite read_during_ai by exact Hm.
  rewrite (section_fold _ _ _ _ Hok Hkeys).
  destruct (Dict.get items "ai") as [[| | | | | | oa] |] eqn:Hsection;
    try discriminate Hv.
  destruct (Store.read st1 oa) as [aitems |] eqn:Hoa; [| discriminate Hv].
  unfold Store.read in Hoa. rewrite Hoa.
  rewrite get_set_all by exact (grows_keys _ _ oa aitems Hwf Hg Hoa).
  destruct (Dict.get aitems k); [exact Hv | discriminate Hv].
Qed.

(** ** The API key *)

Lemma subscript_path (w : world) (config : value) (k1 k2 : string) (v : value) :
  lookup_path (mem w) config [k1; k2] = Some v ->
  exists section,
    Py.subscript config k1 w = Ok section w
    /\ Py.subscript section k2 w = Ok v w.
Proof.
  cbn [lookup_path]. unfold Py.subscript. intros H.
  destruct config as [| | | | | | l]; try discriminate H.
  destruct (Store.read (mem w) l) as [top |]; [| discriminate H].
  destruct (Dict.get top k1) as [[| | | | | | la] |]; try discriminate H.
  exists (VDict la). split; [reflexivity |].
  destruct (Store.read (mem w) la) as [section |]; [| discriminate H].
  destruct (Dict.get section k2); [| discriminate H].
  now injection H as ->.
Qed.



(** ** The provider *)

(** C8.  When the configuration is loaded and the key resolved, and the
    configuration names a provider: a name that is not ["openai"], letter
    case aside, makes the selection fail with a [ValueError] whose message
    ends with the name, in lower case; the name ["openai"] gives the
    OpenAI backend with the resolved key (or the empty string for a key
    that is not truthy) and the model, temperature and token cap of the
    configuration. *)
Theorem get_ai_provider_by_name (w : world) (config : value) (w1 : world)
    (key : value) (w2 : world) (name : string) :
  load_config w = Ok config w1 ->
  get_api_key w1 = Ok key w2 ->
  lookup_path (mem w2) config ["ai"; "provider"] = Some (VStr name) ->
  (Str.lower name <> "openai" ->
   get_ai_provider w
   = Raise (ValueError ("Unsupported AI provider: " ++ Str.lower name)) w2)
  /\ (Str.lower name = "openai" ->
      forall model temperature max_tokens,
        lookup_path (mem w2) config ["ai"; "model"] = Some model ->
        lookup_path (mem w2) config ["ai"; "temperature"] = Some temperature ->
        lookup_path (mem w2) config ["ai"; "max_tokens"] = Some max_tokens ->
        get_ai_provider w
        = Ok (Provider
                {| api_key := if Py.truthy (mem w2) key then key
                              else VStr EmptyString;
                   model := model;
                   temperature := temperature;
                   max_tokens := max_tokens;
                   api_url := "https://api.openai.com/v1/chat/completions" |})
            w2).
Proof.
  intros Hload Hkey Hname.
  destruct (subscript_path _ _ _ _ _ Hname) as (section & Hsection & Hprovider).
  split.
  - intros Hother. apply String.eqb_neq in Hother.
    unfold get_ai_provider; run. rewrite Hload. cbv beta iota.
    rewrite Hkey. cbv beta iota. rewrite Hsection. cbv beta iota.
    rewrite Hprovider. unfold str_lower; run. cbv beta iota.
    now rewrite Hother.
  - intros Hopenai model temperature max_tokens Hmodel Htemperature Hmax.
    destruct (subscript_path _ _ _ _ _ Hmodel) as (s1 & Hs1 & Hm).
    destruct (subscript_path _ _ _ _ _ Htemperature) as (s2 & Hs2 & Ht).
    destruct (subscript_path _ _ _ _ _ Hmax) as (s3 & Hs3 & Hx).
    rewrite Hsection in Hs1, Hs2, Hs3.
    injection Hs1 as <-. injection Hs2 as <-. injection Hs3 as <-.
    unfold get_ai_provider; run. rewrite Hload. cbv beta iota.
    rewrite Hkey. cbv beta iota. rewrite Hsection. cbv beta iota.
    rewrite Hprovider. unfold str_lower; run. cbv beta iota.
    rewrite Hopenai. cbn [String.eqb Ascii.eqb Bool.eqb]. cbv beta iota.
    rewrite Hsection. cbv beta iota. rewrite Hm. cbv beta iota.
    rewrite Hsection. cbv beta iota. rewrite Ht. cbv beta iota.
    rewrite Hsection. cbv beta iota. rewrite Hx. cbv beta iota.
    reflexivity.
Qed.

Lemma get_ai_provider_by_name_witness :
  let file (name : string) :=
    Some (Yaml (DMap [("ai", DMap [("provider", DStr name)])])) in
  (exists w2,
      get_ai_provider
        (Sample.started (file "Anthropic") (Sample.with_key "sk-1") Sample.no_git
           Sample.no_network)
      = Raise (ValueError "Unsupported AI provider: anthropic") w2)
  /\ (exists w2,
         get_ai_provider
           (Sample.started (file "OpenAI") (Sample.with_key "sk-1") Sample.no_git
              Sample.no_network)
         = Ok (Provider
                 {| api_key := VStr "sk-1";
                    model := VStr "gpt-3.5-turbo";
                    temperature := VFloat 0.7;
                    max_tokens := VInt 100;
                    api_url := "https://api.openai.com/v1/chat/completions" |})
             w2).
Proof.
  intros file. split.
  - eexists.
    apply (proj1 (get_ai_provider_by_name
                    (Sample.started (file "Anthropic") (Sample.with_key "sk-1")
                       Sample.no_git Sample.no_network)
                    _ _ _ _ "Anthropic"
                    ltac:(vm_compute; reflexivity)
                    ltac:(vm_compute; reflexivity)
                    ltac:(vm_compute; reflexivity))).
    discriminate.
  - eexists.
    apply (proj2 (get_ai_provider_by_name
                    (Sample.started (file "OpenAI") (Sample.with_key "sk-1")
                       Sample.no_git Sample.no_network)
                    _ _ _ _ "OpenAI"
                    ltac:(vm_compute; reflexivity)
                    ltac:(vm_compute; reflexivity)
                    ltac:(vm_compute; reflexivity))
             eq_refl (VStr "gpt-3.5-turbo") (VFloat 0.7) (VInt 100));
      vm_compute; reflexivity.
Defined.

(** ** What a generation and a commit do to the world *)

Section Keeps.

Lemma keeps_ret {A : Type} (a : A) : keeps (mret a).
Proof. intros w. apply keeps_outside_refl. Qed.

Lemma keeps_raise {A : Type} (e : exn) : keeps (raise e : py A).
Proof. intros w. apply keeps_outside_refl. Qed.

Lemma keeps_bind {A B : Type} (m : py A) (k : A -> py B) :
  keeps m -> (forall a, keeps (k a)) -> keeps (m ≫= k).
Proof.
  intros Hm Hk w. run. specialize (Hm w).
  destruct (m w) as [a w1 | e w1]; simpl in *; [| exact Hm].
  eapply keeps_outside_trans; [exact Hm | apply Hk].
Qed.

Lemma keeps_get_world {A : Type} (k : world -> py A) :
  (forall w, keeps (k w)) -> keeps (get_world ≫= k).
Proof. intros Hk w. run. apply Hk. Qed.

Lemma keeps_subscript (v : value) (k : string) : keeps (Py.subscript v k).
Proof.
  intros w. unfold Py.subscript.
  destruct v as [| | | | | | l]; try apply keeps_outside_refl.
  destruct (Store.read (mem w) l) as [d |]; [| apply keeps_outside_refl].
  destruct (Dict.get d k); apply keeps_outside_refl.
Qed.

Lemma keeps_dict_get (v : value) (k : string) (default : value) :
  keeps (Py.dict_get v k default).
Proof.
  intros w. unfold Py.dict_get.
  destruct v as [| | | | | | l]; try apply keeps_outside_refl.
  destruct (Store.read (mem w) l) as [d |]; [| apply keeps_outside_refl].
  destruct (Dict.get d k); apply keeps_outside_refl.
Qed.

Lemma keeps_load_config : keeps load_config.
Proof. exact load_config_keeps. Qed.

Lemma keeps_get_api_key : keeps get_api_key.
Proof.
  unfold get_api_key.
  apply keeps_bind; [exact keeps_load_config | intros config].
  apply keeps_bind.
  { intros w. unfold os_environ_get.
    destruct (environ w "COMMY_API_KEY"); apply keeps_outside_refl. }
  intros key. apply keeps_get_world. intros w.
  destruct (Py.truthy (mem w) key); [apply keeps_ret |].
  apply keeps_bind; [apply keeps_subscript | intros ai; apply keeps_subscript].
Qed.

Lemma keeps_get_ai_provider : keeps get_ai_provider.
Proof.
  unfold get_ai_provider.
  apply keeps_bind; [exact keeps_load_config | intros config].
  apply keeps_bind; [exact keeps_get_api_key | intros key].
  apply keeps_bind; [apply keeps_subscript | intros ai].
  apply keeps_bind; [apply keeps_subscript | intros name].
  apply keeps_bind.
  { unfold str_lower. destruct name; try apply keeps_raise. apply keeps_ret. }
  intros provider_name.
  destruct (String.eqb provider_name "openai"); [| apply keeps_raise].
  repeat (apply keeps_bind; [apply keeps_subscript | intros ?]).
  apply keeps_bind; [| intros self; apply keeps_ret].
  intros w. apply keeps_outside_refl.
Qed.

(** The provider that the factory returns is the OpenAI one. *)
Lemma get_ai_provider_openai (w : world) (p : provider) (w' : world) :
  get_ai_provider w = Ok p w' ->
  exists self : OpenAIProvider, p = Provider self.
Proof.
  unfold get_ai_provider; run.
  destruct (load_config w) as [config w1 |]; [| discriminate].
  destruct (get_api_key w1) as [key w2 |]; [| discriminate].
  destruct (Py.subscript config "ai" w2) as [ai w3 |]; [| discriminate].
  destruct (Py.subscript ai "provider" w3) as [name w4 |]; [| discriminate].
  destruct (str_lower name w4) as [provider_name w5 |]; [| discriminate].
  destruct (String.eqb provider_name "openai"); [| discriminate].
  destruct (Py.subscript config "ai" w5) as [ai1 w6 |]; [| discriminate].
  destruct (Py.subscript ai1 "model" w6) as [model w7 |]; [| discriminate].
  destruct (Py.subscript config "ai" w7) as [ai2 w8 |]; [| discriminate].
  destruct (Py.subscript ai2 "temperature" w8) as [temperature w9 |];
    [| discriminate].
  destruct (Py.subscript config "ai" w9) as [ai3 w10 |]; [| discriminate].
  destruct (Py.subscript ai3 "max_tokens" w10) as [max_tokens w11 |];
    [| discriminate].
  unfold OpenAIProvider_init. intros [= <- _]. eauto.
Qed.

Lemma reads_only_bind {A B : Type} (m : py A) (k : A -> py B) :
  reads_only m -> (forall a, reads_only (k a)) -> reads_only (m ≫= k).
Proof.
  intros Hm Hk w b w'. run.
  destruct (m w) as [a w1 |] eqn:Hmw; [| discriminate].
  intros Hkw. apply Hk in Hkw. apply Hm in Hmw. congruence.
Qed.

Lemma reads_only_doc_key (d : doc) (k : string) : reads_only (doc_key d k).
Proof.
  intros w a w'. unfold doc_key; run.
  destruct d as [| | | | | | entries]; try discriminate.
  destruct (doc_lookup entries k); [| discriminate]. now intros [= _ ->].
Qed.

Lemma reads_only_doc_first (d : doc) : reads_only (doc_first d).
Proof.
  intros w a w'. unfold doc_first; run.
  destruct d as [| | | | [|c s] | [|x items] |]; try discriminate;
    now intros [= _ ->].
Qed.

Lemma reads_only_doc_strip (d : doc) : reads_only (doc_strip d).
Proof.
  intros w a w'. unfold doc_strip; run.
  destruct d; try discriminate. now intros [= _ ->].
Qed.

(** A call of the OpenAI backend that returns has sent one request, and
    done nothing else. *)
Lemma openai_generate_posts (self : OpenAIProvider) (prompt : string)
    (w : world) (message : string) (w' : world) :
  generate_commit_message_with self prompt w = Ok message w' ->
  exists r, w' = World.log_http r w.
Proof.
  unfold generate_commit_message_with, OpenAIProvider_AIProvider.
  unfold mbind at 1, py_bind at 1, get_world. cbv beta iota.
  destruct (negb (Py.truthy (mem w) (api_key self))); [discriminate |].
  unfold try_except. intros H.
  match type of H with
  | context [requests_post ?r ≫= ?k] =>
      exists r;
      assert (Hk : forall result, reads_only (k result))
  end.
  { intros result.
    repeat (apply reads_only_bind;
            [first [apply reads_only_doc_key | apply reads_only_doc_first] |
             intros ?]).
    apply reads_only_doc_strip. }
  unfold mbind at 1, py_bind at 1 in H. unfold requests_post at 1 in H.
  destruct (http w (http_log w) _) as [detail | result];
    [simpl in H; discriminate H |].
  match type of H with
  | match ?m with _ => _ end = _ => destruct m as [a w1 | e w1] eqn:Hm
  end.
  - injection H as -> ->. now apply Hk in Hm.
  - destruct (is_RequestException e); discriminate H.
Qed.

Lemma generate_commit_message_effects (diff : string) (w : world)
    (message : string) (w' : world) :
  generate_commit_message diff w = Ok message w' ->
  subprocess_log w' = subprocess_log w
  /\ exists r, http_log w' = (http_log w ++ [r])%list.
Proof.
  unfold generate_commit_message; run.
  pose proof (keeps_load_config w) as H1.
  destruct (load_config w) as [config w1 |]; [| discriminate].
  pose proof (keeps_dict_get config "commit_style" (VStr "conventional") w1) as H2.
  destruct (Py.dict_get config "commit_style" (VStr "conventional") w1)
    as [commit_style w2 |]; [| discriminate].
  pose proof (keeps_get_ai_provider w2) as H3.
  destruct (get_ai_provider w2) as [p w3 |] eqn:Hp; [| discriminate].
  destruct (get_ai_provider_openai _ _ _ Hp) as [self ->].
  intros Hgen. apply openai_generate_posts in Hgen as [r ->].
  simpl in *. unfold keeps_outside in *. split.
  - intuition congruence.
  - exists r. simpl. f_equal. intuition congruence.
Qed.

Lemma commit_changes_effects (message : string) (w : world) :
  subprocess_log (world_of (commit_changes message w))
  = (subprocess_log w ++ [commit_argv message])%list
  /\ http_log (world_of (commit_changes message w)) = http_log w.
Proof.
  unfold commit_changes, subprocess_run; run. fold (commit_argv message).
  destruct (git w (subprocess_log w) (commit_argv message)) as [p | msg];
    [| now split].
  simpl. destruct (returncode p =? 0); now split.
Qed.

End Keeps.

(** ** The review loop *)

#[local] Arguments generate_commit_message : simpl never.
#[local] Arguments commit_changes : simpl never.

Section ReviewFacts.

Variables (diff : string) (rest : list string).

Lemma regenerates_not_accepts (line : string) :
  regenerates line = true -> accepts line = false.
Proof.
  unfold regenerates, accepts, Str.elem. simpl.
  destruct (String.eqb_spec (choice_of line) "r") as [-> | _]; [reflexivity |].
  destruct (String.eqb_spec (choice_of line) "regenerate") as [-> | _];
    [reflexivity | discriminate].
Qed.

Lemma review_accept (line message : string) (w : world) :
  accepts line = true ->
  review (line :: rest) diff message w = commit_and_report message (asked w).
Proof.
  intros Hline. cbn [review]. run. cbv beta iota.
  unfold accepts, choice_of in Hline. rewrite Hline. reflexivity.
Qed.

Lemma review_regenerate (line message message' : string) (w w' : world) :
  regenerates line = true ->
  generate_commit_message diff (regenerating (asked w)) = Ok message' w' ->
  review (line :: rest) diff message w
  = review rest diff message' (shown regenerated_title message' w').
Proof.
  intros Hline Hgen. pose proof (regenerates_not_accepts line Hline) as Hno.
  cbn [review]. run. cbv beta iota.
  unfold accepts, regenerates, choice_of in Hline, Hno. rewrite Hno, Hline.
  cbv beta iota. fold (asked w). fold (regenerating (asked w)).
  rewrite Hgen. reflexivity.
Qed.

Lemma review_invalid (line message : string) (w : world) :
  accepts line = false -> regenerates line = false -> aborts line = false ->
  review (line :: rest) diff message w
  = review rest diff message (rejected (asked w)).
Proof.
  intros Ha Hr Hn. cbn [review]. run. cbv beta iota.
  unfold accepts, regenerates, aborts, choice_of in Ha, Hr, Hn.
  rewrite Ha, Hr, Hn. reflexivity.
Qed.

End ReviewFacts.



(** ** The store stays well-formed through the whole command *)

Section Stable.

Lemma stable_ret {A : Type} (a : A) : stable (mret a).
Proof. intros w Hw. exact Hw. Qed.

Lemma stable_raise {A : Type} (e : exn) : stable (raise e : py A).
Proof. intros w Hw. exact Hw. Qed.

Lemma stable_bind {A B : Type} (m : py A) (k : A -> py B) :
  stable m -> (forall a, stable (k a)) -> stable (m ≫= k).
Proof.
  intros Hm Hk w Hw. run. specialize (Hm w Hw).
  destruct (m w) as [a w1 | e w1]; simpl in *; [| exact Hm].
  now apply Hk.
Qed.

Lemma stable_try {A : Type} (m : py A) (caught : exn -> bool)
    (h : exn -> py A) :
  stable m -> (forall e, stable (h e)) -> stable (try_except m caught h).
Proof.
  intros Hm Hh w Hw. unfold try_except. specialize (Hm w Hw).
  destruct (m w) as [a w1 | e w1]; simpl in *; [exact Hm |].
  destruct (caught e); [now apply Hh | exact Hm].
Qed.

Lemma stable_get_world {A : Type} (k : world -> py A) :
  (forall w, stable (k w)) -> stable (get_world ≫= k).
Proof. intros Hk w Hw. run. now apply Hk. Qed.

Lemma stable_emit (o : output) : stable (modify (World.emit o)).
Proof. intros w Hw. exact Hw. Qed.

Lemma stable_subscript (v : value) (k : string) : stable (Py.subscript v k).
Proof.
  intros w Hw. unfold Py.subscript.
  destruct v as [| | | | | | l]; try exact Hw.
  destruct (Store.read (mem w) l) as [d |]; [| exact Hw].
  destruct (Dict.get d k); exact Hw.
Qed.

Lemma stable_dict_get (v : value) (k : string) (default : value) :
  stable (Py.dict_get v k default).
Proof.
  intros w Hw. unfold Py.dict_get.
  destruct v as [| | | | | | l]; try exact Hw.
  destruct (Store.read (mem w) l) as [d |]; [| exact Hw].
  destruct (Dict.get d k); exact Hw.
Qed.

Lemma stable_subprocess_run (argv : list string) (check : bool) :
  stable (subprocess_run argv check).
Proof.
  intros w Hw. unfold subprocess_run.
  destruct (git w (subprocess_log w) argv) as [p | msg]; [| exact Hw].
  destruct (check && negb (returncode p =? 0)); exact Hw.
Qed.

Lemma stable_load_config : stable load_config.
Proof. exact load_config_wf. Qed.

Lemma stable_get_api_key : stable get_api_key.
Proof.
  unfold get_api_key.
  apply stable_bind; [exact stable_load_config | intros config].
  apply stable_bind.
  { intros w Hw. unfold os_environ_get.
    destruct (environ w "COMMY_API_KEY"); exact Hw. }
  intros key. apply stable_get_world. intros w.
  destruct (Py.truthy (mem w) key); [apply stable_ret |].
  apply stable_bind; [apply stable_subscript | intros ai; apply stable_subscript].
Qed.

Lemma stable_get_ai_provider : stable get_ai_provider.
Proof.
  unfold get_ai_provider.
  apply stable_bind; [exact stable_load_config | intros config].
  apply stable_bind; [exact stable_get_api_key | intros key].
  apply stable_bind; [apply stable_subscript | intros ai].
  apply stable_bind; [apply stable_subscript | intros name].
  apply stable_bind.
  { unfold str_lower. destruct name; try apply stable_raise. apply stable_ret. }
  intros provider_name.
  destruct (String.eqb provider_name "openai"); [| apply stable_raise].
  repeat (apply stable_bind; [apply stable_subscript | intros ?]).
  apply stable_bind; [| intros self; apply stable_ret].
  intros w Hw. exact Hw.
Qed.

Lemma stable_openai (self : OpenAIProvider) (prompt : string) :
  stable (generate_commit_message_with self prompt).
Proof.
  unfold generate_commit_message_with, OpenAIProvider_AIProvider.
  apply stable_get_world. intros w.
  destruct (negb (Py.truthy (mem w) (api_key self))); [apply stable_raise |].
  apply stable_try; [| intros e; apply stable_raise].
  apply stable_bind.
  { intros w1 Hw1. unfold requests_post.
    destruct (http w1 (http_log w1) _); exact Hw1. }
  intros result.
  assert (Hkey : forall d k, stable (doc_key d k)).
  { intros d k. unfold doc_key.
    destruct d as [| | | | | | entries]; try apply stable_raise.
    destruct (doc_lookup entries k); [apply stable_ret | apply stable_raise]. }
  apply stable_bind; [apply Hkey | intros choices].
  apply stable_bind.
  { unfold doc_first.
    destruct choices as [| | | | [|c s] | [|x items] |];
      first [apply stable_raise | apply stable_ret]. }
  intros choice.
  apply stable_bind; [apply Hkey | intros message].
  apply stable_bind; [apply Hkey | intros content].
  unfold doc_strip. destruct content; first [apply stable_raise | apply stable_ret].
Qed.

Lemma stable_generate_commit_message (diff : string) :
  stable (generate_commit_message diff).
Proof.
  unfold generate_commit_message.
  apply stable_bind; [exact stable_load_config | intros config].
  apply stable_bind; [apply stable_dict_get | intros commit_style].
  intros w Hw. run.
  pose proof (stable_get_ai_provider w Hw) as Hp.
  destruct (get_ai_provider w) as [p w1 |] eqn:Hget; [| exact Hp].
  destruct (get_ai_provider_openai _ _ _ Hget) as [self ->].
  now apply stable_openai.
Qed.

Lemma stable_print (s : string) : stable (print s).
Proof. apply stable_emit. Qed.

Lemma stable_console_print (s : string) : stable (console_print s).
Proof. apply stable_emit. Qed.

Lemma stable_commit_changes (message : string) : stable (commit_changes message).
Proof.
  unfold commit_changes. apply stable_try.
  - apply stable_bind; [apply stable_subprocess_run | intros p; apply stable_ret].
  - intros e. apply stable_bind; [apply stable_print | intros _; apply stable_ret].
Qed.

Lemma stable_review (inputs : list string) (diff : string) :
  forall commit_message, stable (review inputs diff commit_message).
Proof.
  induction inputs as [|line inputs IH]; intros commit_message; cbn [review].
  - apply stable_bind; [apply stable_emit | intros _; apply stable_raise].
  - apply stable_bind; [apply stable_emit | intros _].
    destruct (Str.elem (Str.lower (entered line "y")) ["y"; "yes"]).
    { apply stable_bind; [apply stable_commit_changes | intros committed].
      destruct committed; apply stable_console_print. }
    destruct (Str.elem (Str.lower (entered line "y")) ["r"; "regenerate"]).
    { apply stable_bind; [apply stable_emit | intros _].
      apply stable_bind; [| intros m; apply IH].
      apply stable_try.
      - apply stable_bind; [apply stable_generate_commit_message | intros m].
        apply stable_bind; [apply stable_console_print | intros _].
        apply stable_bind; [apply stable_emit | intros _; apply stable_ret].
      - intros e.
        apply stable_bind; [apply stable_console_print | intros _].
        apply stable_raise. }
    destruct (Str.elem (Str.lower (entered line "y")) ["n"; "no"]).
    { apply stable_console_print. }
    apply stable_bind; [apply stable_console_print | intros _; apply IH].
Qed.

Lemma stable_generate_and_review (diff : string) (inputs : list string) :
  stable (generate_and_review diff inputs).
Proof.
  unfold generate_and_review.
  apply stable_bind; [apply stable_emit | intros _].
  apply stable_bind.
  { apply stable_try; [apply stable_generate_commit_message |].
    intros e. apply stable_bind; [apply stable_console_print | intros _].
    apply stable_raise. }
  intros m.
  apply stable_bind; [apply stable_console_print | intros _].
  apply stable_bind; [apply stable_emit | intros _].
  apply stable_review.
Qed.

(** From a well-formed store, and so from the store of the import, the
    whole command leaves a well-formed store, however it ends. *)
Lemma stable_generate (verbose : bool) (inputs : list string) :
  stable (generate verbose inputs).
Proof.
  unfold generate.
  apply stable_bind.
  { unfold is_git_repository. apply stable_try.
    - apply stable_bind; [apply stable_subprocess_run | intros p; apply stable_ret].
    - intros e. apply stable_ret. }
  intros repository. destruct (negb repository).
  { apply stable_bind; [apply stable_console_print | intros _; apply stable_raise]. }
  apply stable_bind.
  { unfold has_staged_changes. apply stable_try.
    - apply stable_bind; [apply stable_subprocess_run | intros p; apply stable_ret].
    - intros e. apply stable_ret. }
  intros staged. destruct (negb staged).
  { apply stable_bind; [apply stable_console_print | intros _; apply stable_raise]. }
  apply stable_bind.
  { unfold get_staged_files. apply stable_try.
    - apply stable_bind; [apply stable_subprocess_run | intros p; apply stable_ret].
    - intros e. apply stable_raise. }
  intros staged_files.
  apply stable_bind; [apply stable_console_print | intros _].
  apply stable_bind; [exact stable_load_config | intros config].
  apply stable_bind; [apply stable_dict_get | intros truncate_length].
  apply stable_bind; [| intros diff; apply stable_generate_and_review].
  apply stable_try.
  - apply stable_bind.
    { unfold get_staged_diff. apply stable_try.
      - apply stable_bind; [apply stable_subprocess_run | intros p].
        apply stable_get_world. intros w.
        destruct (truncation (mem w) (stdout p) truncate_length) as [e | [n |]];
          first [apply stable_raise | apply stable_ret].
      - intros e. apply stable_raise. }
    intros [diff is_truncated].
    apply stable_bind.
    { destruct verbose; [apply stable_emit | apply stable_ret]. }
    intros _. apply stable_bind.
    { destruct is_truncated; [apply stable_console_print | apply stable_ret]. }
    intros _. apply stable_ret.
  - intros e. apply stable_bind; [apply stable_console_print | intros _].
    apply stable_raise.
Qed.

End Stable.


(** * Further properties of the code *)

(** ** The version-control adapter, continued *)

Section GitMore.

Variable w : world.

Let after (argv : list string) : world := World.log_subprocess argv w.


(** What [subprocess.run] with [check=True] gives, by what [git] does. *)
Lemma subprocess_run_checked (argv : list string) :
  subprocess_run argv true w
  = match git w (subprocess_log w) argv with
    | Ran p =>
        if returncode p =? 0 then Ok p (after argv)
        else Raise (CalledProcessError (returncode p) argv (stdout p) (stderr p))
               (after argv)
    | NoSuchProgram msg => Raise (FileNotFoundError msg) (after argv)
    end.
Proof.
  unfold subprocess_run.
  destruct (git w (subprocess_log w) argv) as [p | msg]; [| reflexivity].
  now destruct (returncode p =? 0).
Qed.

(** ** Lines *)

Lemma no_line_break_snoc (cur : string) (c : ascii) :
  no_line_break (cur ++ String c EmptyString)
  = no_line_break cur && negb (Str.code c =? 13)%N && negb (Str.islinebreak c).
Proof.
  induction cur as [|c' cur IH]; simpl.
  - now rewrite andb_true_r.
  - rewrite IH. now rewrite !andb_assoc.
Qed.

Lemma string_length_ind (P : string -> Prop) :
  (forall s, (forall s', (String.length s' < String.length s)%nat -> P s') -> P s) ->
  forall s, P s.
Proof.
  intros H s. remember (String.length s) as n eqn:Hn.
  revert s Hn. induction n as [n IH] using lt_wf_ind.
  intros s ->. apply H. intros s' Hlt. now apply (IH _ Hlt).
Qed.

Lemma splitlines_from_no_line_break (s : string) :
  forall cur, no_line_break cur = true ->
    Forall (fun line => no_line_break line = true) (Str.splitlines_from cur s).
Proof.
  induction s as [s IH] using string_length_ind. intros cur Hcur.
  destruct s as [|c rest]; cbn [Str.splitlines_from].
  - destruct cur; repeat constructor. exact Hcur.
  - destruct (Str.code c =? 13)%N eqn:Hcr.
    + destruct rest as [|c' rest'].
      * constructor; [exact Hcur | constructor].
      * destruct (Str.code c' =? 10)%N;
          (constructor; [exact Hcur | apply IH; [simpl; lia | reflexivity]]).
    + destruct (Str.islinebreak c) eqn:Hlb.
      * constructor; [exact Hcur | apply IH; [simpl; lia | reflexivity]].
      * apply IH; [simpl; lia |].
        rewrite no_line_break_snoc, Hcur, Hcr, Hlb. reflexivity.
Qed.

(** A line that has begun is a line of the result. *)
Lemma splitlines_from_begun (s : string) :
  forall cur, cur <> EmptyString ->
    existsb Str.truthy (Str.splitlines_from cur s) = true.
Proof.
  induction s as [|c rest IH]; intros cur Hcur; cbn [Str.splitlines_from].
  - destruct cur; [contradiction | reflexivity].
  - assert (Hhead : forall l, existsb Str.truthy (cur :: l) = true).
    { intros l. simpl. destruct cur; [contradiction | reflexivity]. }
    destruct (Str.code c =? 13)%N.
    + destruct rest as [|c' rest']; [apply Hhead |].
      destruct (Str.code c' =? 10)%N; apply Hhead.
    + destruct (Str.islinebreak c); [apply Hhead |].
      apply IH. destruct cur; discriminate.
Qed.

Lemma isspace_line_break (c : ascii) :
  Str.isspace c = false ->
  (Str.code c =? 13)%N = false /\ Str.islinebreak c = false.
Proof.
  unfold Str.isspace, Str.islinebreak.
  destruct (N.eqb_spec (Str.code c) 13) as [-> | _]; [discriminate |].
  destruct (N.eqb_spec (Str.code c) 10) as [-> | _]; [discriminate |].
  destruct (N.eqb_spec (Str.code c) 11) as [-> | _]; [discriminate |].
  destruct (N.eqb_spec (Str.code c) 12) as [-> | _]; [discriminate |].
  destruct (N.eqb_spec (Str.code c) 133) as [-> | _]; [discriminate |].
  intros H. split; [reflexivity |]. simpl. rewrite orb_false_r.
  destruct (N.leb_spec 28 (Str.code c)) as [H1 | _]; [| reflexivity].
  destruct (N.leb_spec (Str.code c) 30) as [H2 | _]; [| reflexivity].
  exfalso. revert H.
  destruct (N.leb_spec 28 (Str.code c)); [| lia].
  destruct (N.leb_spec (Str.code c) 32); [| lia].
  simpl. rewrite !orb_true_r. discriminate.
Qed.

Lemma splitlines_from_has_text (s : string) :
  has_text s = true ->
  forall cur, existsb Str.truthy (Str.splitlines_from cur s) = true.
Proof.
  induction s as [s IH] using string_length_ind. intros Htext cur.
  destruct s as [|c rest]; [discriminate Htext |].
  cbn [Str.splitlines_from]. simpl in Htext.
  destruct (Str.isspace c) eqn:Hsp.
  - simpl in Htext.
    assert (Hnext : forall cur', existsb Str.truthy (Str.splitlines_from cur' rest) = true).
    { intros cur'. apply IH; [simpl; lia | exact Htext]. }
    assert (Hcons : forall cur', existsb Str.truthy
                      (cur :: Str.splitlines_from cur' rest) = true).
    { intros cur'. simpl. rewrite Hnext. apply orb_true_r. }
    destruct (Str.code c =? 13)%N.
    + destruct rest as [|c' rest']; [discriminate Htext |].
      destruct (Str.code c' =? 10)%N eqn:Hlf; [| apply Hcons].
      simpl. assert (Hc' : Str.isspace c' = true).
      { apply N.eqb_eq in Hlf. unfold Str.isspace. rewrite Hlf. reflexivity. }
      simpl in Htext. rewrite Hc' in Htext. simpl in Htext.
      rewrite (IH rest'); [apply orb_true_r | simpl; lia | exact Htext].
    + destruct (Str.islinebreak c); [apply Hcons | apply Hnext].
  - destruct (isspace_line_break c Hsp) as [-> ->].
    apply splitlines_from_begun. destruct cur; discriminate.
Qed.

Lemma lstrip_has_text (s : string) :
  Str.lstrip s <> EmptyString -> has_text s = true.
Proof.
  induction s as [|c s IH]; simpl; [congruence |].
  destruct (Str.isspace c); [exact IH | reflexivity].
Qed.

Lemma strip_has_text (s : string) :
  Str.strip s <> EmptyString -> has_text s = true.
Proof.
  intros H. apply lstrip_has_text. intros E. apply H.
  unfold Str.strip. now rewrite E.
Qed.

Lemma append_empty (s : string) : s ++ EmptyString = s.
Proof. induction s as [|c s IH]; [reflexivity | now rewrite append_cons, IH]. Qed.

Lemma append_snoc (s t : string) (c : ascii) :
  (s ++ String c EmptyString) ++ t = s ++ String c t.
Proof. induction s as [|c' s IH]; [reflexivity | now rewrite !append_cons, IH]. Qed.

(** The lines of a listing are its names. *)
Lemma splitlines_from_name (name rest : string) :
  no_line_break name = true ->
  forall cur,
    Str.splitlines_from cur (name ++ Str.nl ++ rest)
    = (cur ++ name) :: Str.splitlines_from EmptyString rest.
Proof.
  induction name as [|c name IH]; intros Hname cur.
  - rewrite append_nil. unfold Str.nl. rewrite append_cons, append_nil.
    cbn [Str.splitlines_from].
    change (Str.code (ascii_of_N 10) =? 13)%N with false.
    change (Str.islinebreak (ascii_of_N 10)) with true.
    cbv iota. now rewrite append_empty.
  - rewrite append_cons. cbn [Str.splitlines_from].
    simpl in Hname. apply andb_true_iff in Hname as [Hc Hname].
    apply andb_true_iff in Hc as [Hcr Hlb].
    apply negb_true_iff in Hcr, Hlb. rewrite Hcr, Hlb.
    rewrite IH by exact Hname. now rewrite append_snoc.
Qed.

Lemma splitlines_listing (names : list string) :
  Forall (fun name => no_line_break name = true) names ->
  Str.splitlines (listing names) = names.
Proof.
  unfold Str.splitlines.
  induction 1 as [|name names Hname _ IH]; [reflexivity |].
  cbn [listing]. rewrite splitlines_from_name by exact Hname.
  now rewrite append_nil, IH.
Qed.

(** X2.  [get_staged_files] by what the listing command does: when it
    exits with status zero the result is the lines of its output that are
    not empty, in order, and each of them is a file name (not empty, with
    no line boundary inside); when it exits with another status a
    [RuntimeError] carries its standard error; when there is no [git]
    program the [FileNotFoundError] of the call is raised. *)
Theorem get_staged_files_by_outcome :
  match git w (subprocess_log w) names_argv with
  | Ran p =>
      if returncode p =? 0 then
        exists files,
          get_staged_files w = Ok files (after names_argv)
          /\ files = filter (fun line => Str.truthy line)
                       (Str.splitlines (stdout p))
          /\ Forall (fun name => file_name name = true) files
      else
        get_staged_files w
        = Raise (RuntimeError ("Failed to get staged files: " ++ stderr p))
            (after names_argv)
  | NoSuchProgram msg =>
      get_staged_files w = Raise (FileNotFoundError msg) (after names_argv)
  end.
Proof.
  unfold get_staged_files; run. fold names_argv.
  rewrite subprocess_run_checked.
  destruct (git w (subprocess_log w) names_argv) as [p | msg]; [| reflexivity].
  destruct (returncode p =? 0); [| reflexivity].
  eexists. split; [reflexivity |]. split; [reflexivity |].
  apply Forall_forall. intros name Hin.
  apply list_elem_of_filter in Hin as [Hname Hin].
  apply Is_true_true in Hname.
  unfold file_name. rewrite Hname. simpl.
  pose proof (splitlines_from_no_line_break (stdout p) EmptyString eq_refl) as H.
  rewrite Forall_forall in H. now apply H.
Qed.

(** X3.  When [git] prints one name a line, each ended by a line feed,
    [get_staged_files] returns exactly those names, in order. *)
Theorem get_staged_files_of_listing (names : list string) (err : string) :
  Forall (fun name => file_name name = true) names ->
  git w (subprocess_log w) names_argv
    = Ran {| returncode := 0; stdout := listing names; stderr := err |} ->
  get_staged_files w = Ok names (after names_argv).
Proof.
  intros Hnames Hgit. unfold get_staged_files; run. fold names_argv.
  rewrite subprocess_run_checked, Hgit. simpl.
  rewrite splitlines_listing.
  - f_equal. clear Hgit.
    induction Hnames as [|name names Hname _ IH]; [reflexivity |].
    unfold file_name in Hname. apply andb_true_iff in Hname as [Hname _].
    rewrite filter_cons_True by now apply Is_true_true.
    now rewrite IH.
  - eapply Forall_impl; [exact Hnames |].
    intros name Hname. unfold file_name in Hname.
    now apply andb_true_iff in Hname.
Qed.

(** X4.  When [has_staged_changes] answers true for a listing, then
    [get_staged_files], given the same listing, returns at least one
    file. *)
Theorem staged_changes_have_files (p : completed) (w1 : world) :
  git w (subprocess_log w) names_argv = Ran p ->
  has_staged_changes w = Ok true w1 ->
  git w1 (subprocess_log w1) names_argv = Ran p ->
  exists files,
    get_staged_files w1 = Ok files (World.log_subprocess names_argv w1)
    /\ files <> [].
Proof.
  intros Hgit Hstaged Hgit1.
  unfold has_staged_changes in Hstaged; run. fold names_argv in Hstaged.
  rewrite subprocess_run_checked, Hgit in Hstaged.
  destruct (returncode p =? 0) eqn:Hrc; [| discriminate Hstaged].
  injection Hstaged as Htext <-.
  unfold get_staged_files, subprocess_run; run. fold names_argv.
  change (git (after names_argv)) with (git w).
  simpl in Hgit1. cbv beta iota. simpl. rewrite Hgit1, Hrc. simpl.
  eexists. split; [reflexivity |].
  assert (Hline : existsb Str.truthy (Str.splitlines (stdout p)) = true).
  { apply splitlines_from_has_text, strip_has_text.
    now apply truthy_nonempty. }
  apply existsb_exists in Hline as (line & Hin & Hline).
  intros Hnil.
  assert (Hmem : line ∈ filter (fun l => Str.truthy l) (Str.splitlines (stdout p))).
  { apply list_elem_of_filter. split; [now apply Is_true_true |].
    now apply list_elem_of_In. }
  rewrite Hnil in Hmem. now apply not_elem_of_nil in Hmem.
Qed.

(** X5.  [get_staged_diff] when the diff command does not succeed,
    whatever the limit: an exit status other than zero raises a
    [RuntimeError] that carries the standard error of the command, and a
    missing [git] program raises the [FileNotFoundError] of the call. *)
Theorem get_staged_diff_failure (limit : value) :
  (forall p, git w (subprocess_log w) diff_argv = Ran p ->
     returncode p <> 0 ->
     get_staged_diff limit w
     = Raise (RuntimeError ("Failed to get staged diff: " ++ stderr p))
         (after diff_argv))
  /\ (forall msg, git w (subprocess_log w) diff_argv = NoSuchProgram msg ->
        get_staged_diff limit w
        = Raise (FileNotFoundError msg) (after diff_argv)).
Proof.
  split.
  - intros p Hgit Hrc. unfold get_staged_diff; run. fold diff_argv.
    rewrite subprocess_run_checked, Hgit.
    apply Z.eqb_neq in Hrc. rewrite Hrc. reflexivity.
  - intros msg Hgit. unfold get_staged_diff; run. fold diff_argv.
    rewrite subprocess_run_checked, Hgit. reflexivity.
Qed.

(** X6.  With a negative limit [T] every diff counts as too long, the
    empty one too: the result is the diff without its last [-T]
    characters (nothing of it when it has no more than that), followed by
    the marker, and flagged as truncated. *)
Theorem get_staged_diff_negative_limit (p : completed) (T : Z) :
  git w (subprocess_log w) diff_argv = Ran p ->
  returncode p = 0 ->
  T < 0 ->
  let diff := stdout p in
  let head := Str.take (Z.to_nat (Str.len diff + T)) diff in
  get_staged_diff (VInt T) w = Ok (head ++ truncation_marker, true) (after diff_argv)
  /\ Str.len head = Z.max 0 (Str.len diff + T).
Proof.
  intros Hgit Hrc HT diff head. split.
  - unfold get_staged_diff; run. fold diff_argv.
    rewrite subprocess_run_checked, Hgit, Hrc. simpl.
    fold diff. rewrite (truncation_int (mem w) diff T true); [| lia |].
    + unfold Str.slice_to. destruct (Z.ltb_spec T 0); [reflexivity | lia].
    + pose proof (len_nonneg diff). apply Z.ltb_lt. lia.
  - unfold head, Str.len. rewrite length_take. lia.
Qed.

(** X7.  With a limit that is a string other than the empty one, as a
    quoted number in the configuration file gives, the comparison of the
    length with the limit raises a [TypeError]; it is not turned into the
    [RuntimeError] of a failed command. *)
Theorem get_staged_diff_string_limit (p : completed) (limit : string) :
  git w (subprocess_log w) diff_argv = Ran p ->
  returncode p = 0 ->
  limit <> EmptyString ->
  get_staged_diff (VStr limit) w
  = Raise (TypeError "'>' not supported between instances of 'int' and 'str'")
      (after diff_argv).
Proof.
  intros Hgit Hrc Hlimit. unfold get_staged_diff; run. fold diff_argv.
  rewrite subprocess_run_checked, Hgit, Hrc. simpl.
  unfold truncation. simpl.
  destruct limit; [contradiction | reflexivity].
Qed.

Lemma length_replace_quote (message : string) :
  String.length
    (Str.replace double_quote (String backslash (String double_quote EmptyString))
       message)
  = (String.length message + count_char double_quote message)%nat.
Proof.
  induction message as [|c s IH]; [reflexivity |].
  cbn [Str.replace count_char].
  destruct (Ascii.eqb c double_quote).
  - rewrite !append_cons, append_nil. simpl. rewrite IH. lia.
  - simpl. rewrite IH. lia.
Qed.

Lemma replace_no_quote (message : string) :
  count_char double_quote message = O ->
  Str.replace double_quote (String backslash (String double_quote EmptyString))
    message = message.
Proof.
  induction message as [|c s IH]; [reflexivity |].
  cbn [Str.replace count_char].
  destruct (Ascii.eqb c double_quote); [discriminate |].
  intros H. now rewrite IH.
Qed.

(** X8.  The argument that [commit_changes] gives to [git commit -m] is
    longer than the message by one character for each double quote of the
    message; so it is the message itself exactly when the message has no
    double quote, and a message with one is committed with backslashes it
    did not have. *)
Theorem commit_changes_argument (message : string) :
  exists safe_message,
    commit_argv message = ["git"; "commit"; "-m"; safe_message]
    /\ Str.len safe_message
       = Str.len message + Z.of_nat (count_char double_quote message)
    /\ (safe_message = message <-> count_char double_quote message = O).
Proof.
  eexists. split; [reflexivity |]. split.
  - unfold Str.len. rewrite length_replace_quote. lia.
  - split.
    + intros H. apply (f_equal String.length) in H.
      rewrite length_replace_quote in H. lia.
    + apply replace_no_quote.
Qed.

End GitMore.

Lemma get_staged_files_of_listing_witness :
  let w := Sample.started None Sample.no_environ
             (Sample.git_prints (listing ["a.py"; "src/b.py"])) Sample.no_network in
  get_staged_files w = Ok ["a.py"; "src/b.py"] (World.log_subprocess names_argv w).
Proof.
  intros w.
  apply (get_staged_files_of_listing w ["a.py"; "src/b.py"] EmptyString).
  - repeat constructor.
  - reflexivity.
Defined.

Lemma staged_changes_have_files_witness :
  let w := Sample.started None Sample.no_environ
             (Sample.git_prints (listing ["a.py"])) Sample.no_network in
  exists files,
    get_staged_files (World.log_subprocess names_argv w)
    = Ok files (World.log_subprocess names_argv (World.log_subprocess names_argv w))
    /\ files <> [].
Proof.
  intros w.
  apply (staged_changes_have_files w
           {| returncode := 0; stdout := listing ["a.py"]; stderr := EmptyString |}
           (World.log_subprocess names_argv w));
    reflexivity.
Defined.

Lemma get_staged_diff_failure_witness :
  (let w := Sample.started None Sample.no_environ
              (Sample.git_fails "fatal: bad revision") Sample.no_network in
   get_staged_diff (VInt 4000) w
   = Raise (RuntimeError "Failed to get staged diff: fatal: bad revision")
       (World.log_subprocess diff_argv w))
  /\ (let w := Sample.started None Sample.no_environ Sample.no_git
                 Sample.no_network in
      get_staged_diff (VInt 4000) w
      = Raise (FileNotFoundError "[Errno 2] No such file or directory: 'git'")
          (World.log_subprocess diff_argv w)).
Proof.
  split; intros w.
  - apply (proj1 (get_staged_diff_failure w (VInt 4000))
             {| returncode := 1; stdout := EmptyString;
                stderr := "fatal: bad revision" |});
      [reflexivity | discriminate].
  - apply (proj2 (get_staged_diff_failure w (VInt 4000))). reflexivity.
Defined.

Lemma get_staged_diff_negative_limit_witness :
  let w := Sample.started None Sample.no_environ
             (Sample.git_prints "diff --git") Sample.no_network in
  get_staged_diff (VInt (-6)) w
  = Ok ("diff" ++ truncation_marker, true) (World.log_subprocess diff_argv w).
Proof.
  intros w.
  apply (proj1 (get_staged_diff_negative_limit w
                  {| returncode := 0; stdout := "diff --git";
                     stderr := EmptyString |} (-6) eq_refl eq_refl eq_refl)).
Defined.

Lemma get_staged_diff_string_limit_witness :
  let w := Sample.started None Sample.no_environ
             (Sample.git_prints "diff --git") Sample.no_network in
  get_staged_diff (VStr "4000") w
  = Raise (TypeError "'>' not supported between instances of 'int' and 'str'")
      (World.log_subprocess diff_argv w).
Proof.
  intros w.
  apply (get_staged_diff_string_limit w
           {| returncode := 0; stdout := "diff --git"; stderr := EmptyString |}
           "4000");
    [reflexivity | reflexivity | discriminate].
Defined.

(** ** The message generator *)

Section PromptFacts.

Lemma match_conventional {A : Type} (s : string) (a b : A) :
  match s with "conventional" => a | _ => b end
  = if String.eqb s "conventional" then a else b.
Proof.
  do 12 (destruct s as [|[[] [] [] [] [] [] [] []] s]; try reflexivity).
  destruct s; reflexivity.
Qed.

Lemma append_assoc (s t u : string) : (s ++ t) ++ u = s ++ t ++ u.
Proof. induction s as [|c s IH]; [reflexivity | now rewrite !append_cons, IH]. Qed.

Lemma starts_with_append (sub s t : string) :
  starts_with sub s = true -> starts_with sub (s ++ t) = true.
Proof.
  revert s; induction sub as [|c sub IH]; intros s; [reflexivity |].
  destruct s as [|c' s]; simpl; [discriminate |].
  rewrite !andb_true_iff. intros [Hc H]. split; [exact Hc | now apply IH].
Qed.

Lemma starts_with_self (s t : string) : starts_with s (s ++ t) = true.
Proof.
  induction s as [|c s IH]; [reflexivity |].
  simpl. now rewrite Ascii.eqb_refl.
Qed.

Lemma contains_append_l (sub s t : string) :
  contains sub s = true -> contains sub (s ++ t) = true.
Proof.
  induction s as [|c s IH]; simpl.
  - rewrite orb_false_r. intros H.
    destruct sub; [| discriminate H]. destruct t; reflexivity.
  - intros H. apply orb_true_iff in H as [H | H].
    + change (String c (s ++ t)) with (String c s ++ t).
      now rewrite starts_with_append.
    + rewrite IH by exact H. apply orb_true_r.
Qed.

Lemma contains_append_r (sub s t : string) :
  contains sub t = true -> contains sub (s ++ t) = true.
Proof.
  intros H. induction s as [|c s IH]; [exact H |].
  simpl. rewrite IH. apply orb_true_r.
Qed.

Lemma contains_starts_with (sub s : string) :
  starts_with sub s = true -> contains sub s = true.
Proof. intros H. destruct s; simpl; now rewrite H. Qed.

(** The prompt is the header, the diff, and the instructions of the
    style. *)
Lemma create_commit_prompt_parts (diff : string) (commit_style : value) :
  create_commit_prompt diff commit_style
  = (prompt_header ++ diff ++ Str.nl ++ Str.nl)
    ++ match commit_style with
       | VStr s =>
           if String.eqb s "conventional" then conventional_instructions
           else plain_instructions
       | _ => plain_instructions
       end.
Proof.
  destruct commit_style as [| | | | s | |]; try reflexivity.
  unfold create_commit_prompt. cbv zeta.
  etransitivity; [exact (match_conventional s _ _) |].
  now destruct (String.eqb s "conventional").
Qed.

(** X9.  The prompt holds the diff as it is, whatever the style.  For the
    style ["conventional"] it names each of the eight commit types and the
    limit of 72 characters; for every other style, a string that differs
    by letter case or a value that is no string included, it is the one
    prompt of the plain style. *)
Theorem create_commit_prompt_contents (diff : string) :
  (forall commit_style,
      contains diff (create_commit_prompt diff commit_style) = true)
  /\ (forall ty, In ty ("72 characters" :: commit_types) ->
        contains ty (create_commit_prompt diff (VStr "conventional")) = true)
  /\ (forall commit_style, commit_style <> VStr "conventional" ->
        create_commit_prompt diff commit_style
        = prompt_header ++ diff ++ Str.nl ++ Str.nl ++ plain_instructions).
Proof.
  split; [| split].
  - intros commit_style. rewrite create_commit_prompt_parts.
    apply contains_append_l, contains_append_r, contains_starts_with, starts_with_self.
  - intros ty Hty. rewrite create_commit_prompt_parts.
    apply contains_append_r.
    simpl in Hty. repeat destruct Hty as [<- | Hty]; try reflexivity.
    contradiction.
  - intros commit_style Hstyle. rewrite create_commit_prompt_parts.
    assert (Hplain : (prompt_header ++ diff ++ Str.nl ++ Str.nl) ++ plain_instructions
                     = prompt_header ++ diff ++ Str.nl ++ Str.nl ++ plain_instructions).
    { now rewrite !append_assoc. }
    destruct commit_style as [| | | | s | |]; try exact Hplain.
    destruct (String.eqb_spec s "conventional") as [-> | _];
      [contradiction | exact Hplain].
Qed.

End PromptFacts.

Lemma create_commit_prompt_contents_witness :
  contains "feat" (create_commit_prompt "+x" (VStr "conventional")) = true
  /\ create_commit_prompt "+x" (VStr "Conventional")
     = prompt_header ++ "+x" ++ Str.nl ++ Str.nl ++ plain_instructions.
Proof.
  split.
  - apply (proj1 (proj2 (create_commit_prompt_contents "+x"))).
    right; left; reflexivity.
  - apply (proj2 (proj2 (create_commit_prompt_contents "+x"))).
    discriminate.
Defined.

Section BackendFacts.

Variables (self : OpenAIProvider) (prompt : string) (w : world).

(** X10.  Without a key (the key of the provider is the empty string or
    another value that counts as false) the backend raises a
    [RuntimeError] that says where to set the key, and sends nothing. *)
Theorem openai_without_key :
  Py.truthy (mem w) (api_key self) = false ->
  generate_commit_message_with self prompt w
  = Raise (RuntimeError missing_key_message) w.
Proof.
  intros Hkey. unfold generate_commit_message_with, OpenAIProvider_AIProvider.
  run. now rewrite Hkey.
Qed.

Lemma doc_path_key (d x : doc) (k : string) :
  doc_path d [k] = Some x -> forall w', doc_key d k w' = Ok x w'.
Proof.
  intros H w'. destruct d as [| | | | | | entries]; try discriminate H.
  simpl in H. unfold doc_key.
  destruct (doc_lookup entries k); [| discriminate H].
  now injection H as ->.
Qed.

(** X11.  With a key, the backend sends one request (the address and the
    key of the provider, its model, temperature and token bound, the
    prompt as the user message, a timeout of 30) and then: a failed
    exchange raises a [RuntimeError] with the detail of the failure; a body
    whose first choice has a message with a string content gives that
    content, stripped; a body that is an object without ["choices"] raises
    the [KeyError] of the subscript, not a [RuntimeError]. *)
Theorem openai_by_response :
  Py.truthy (mem w) (api_key self) = true ->
  let r := openai_request self prompt in
  let sent := World.log_http r w in
  (forall detail, http w (http_log w) r = Failed detail ->
     generate_commit_message_with self prompt w
     = Raise (RuntimeError ("Error calling OpenAI API: " ++ detail)) sent)
  /\ (forall d content,
        http w (http_log w) r = Body d ->
        first_choice_content d = Some (DStr content) ->
        generate_commit_message_with self prompt w
        = Ok (Str.strip content) sent)
  /\ (forall entries,
        http w (http_log w) r = Body (DMap entries) ->
        doc_lookup entries "choices" = None ->
        generate_commit_message_with self prompt w
        = Raise (KeyError "'choices'") sent).
Proof.
  intros Hkey r sent.
  assert (Hstart : forall result,
    http w (http_log w) r = result ->
    generate_commit_message_with self prompt w
    = try_except
        (result ← (fun w' => match result with
                              | Failed detail => Raise (RequestException detail) sent
                              | Body d => Ok d sent
                              end);
         choices ← doc_key result "choices";
         choice ← doc_first choices;
         message ← doc_key choice "message";
         content ← doc_key message "content";
         doc_strip content)
        is_RequestException
        (fun e => raise (RuntimeError ("Error calling OpenAI API: " ++ Py.str_exn e)))
        w).
  { intros result Hresult.
    unfold generate_commit_message_with, OpenAIProvider_AIProvider.
    unfold mbind at 1, py_bind at 1, get_world. cbv beta iota.
    rewrite Hkey. cbv beta iota delta [negb].
    unfold try_except, requests_post, mbind, py_bind.
    unfold r, openai_request in Hresult. rewrite Hresult. reflexivity. }
  split; [| split].
  - intros detail Hhttp. rewrite (Hstart _ Hhttp). reflexivity.
  - intros d content Hhttp Hcontent. rewrite (Hstart _ Hhttp).
    unfold first_choice_content in Hcontent.
    destruct (doc_path d ["choices"]) as [choices |] eqn:Hchoices;
      [| discriminate Hcontent].
    destruct choices as [| | | | | [|choice others] |]; try discriminate Hcontent.
    destruct choice as [| | | | | | centries]; try discriminate Hcontent.
    simpl in Hcontent.
    destruct (doc_lookup centries "message") as [message |] eqn:Hmessage;
      [| discriminate Hcontent].
    destruct message as [| | | | | | mentries]; try discriminate Hcontent.
    destruct (doc_lookup mentries "content") as [c |] eqn:Hc;
      [| discriminate Hcontent].
    injection Hcontent as ->.
    unfold try_except, mbind, py_bind.
    rewrite (doc_path_key d _ _ Hchoices).
    unfold doc_first, doc_key, mret, py_ret. rewrite Hmessage, Hc. reflexivity.
  - intros entries Hhttp Hnone. rewrite (Hstart _ Hhttp).
    unfold try_except, mbind, py_bind, doc_key. rewrite Hnone. reflexivity.
Qed.

End BackendFacts.

Lemma openai_without_key_witness :
  let self := {| api_key := VStr EmptyString; model := VStr "gpt-3.5-turbo";
                 temperature := VFloat 0.7; max_tokens := VInt 100;
                 api_url := "https://api.openai.com/v1/chat/completions" |} in
  let w := Sample.started None Sample.no_environ Sample.no_git Sample.no_network in
  generate_commit_message_with self "prompt" w
  = Raise (RuntimeError missing_key_message) w.
Proof.
  intros self w. apply (openai_without_key self "prompt" w). reflexivity.
Defined.

Lemma openai_by_response_witness :
  let self := default_provider "sk-1" in
  let answers (d : response) :=
    Sample.started None Sample.no_environ Sample.no_git (fun _ _ => d) in
  let sent (w : world) := World.log_http (openai_request self "prompt") w in
  let reply :=
    DMap [("choices",
           DSeq [DMap [("message", DMap [("content", DStr " fix: typo ")])]])] in
  generate_commit_message_with self "prompt" (answers (Failed "timed out"))
  = Raise (RuntimeError "Error calling OpenAI API: timed out")
      (sent (answers (Failed "timed out")))
  /\ generate_commit_message_with self "prompt" (answers (Body reply))
     = Ok "fix: typo" (sent (answers (Body reply)))
  /\ generate_commit_message_with self "prompt"
       (answers (Body (DMap [("error", DStr "quota")])))
     = Raise (KeyError "'choices'")
         (sent (answers (Body (DMap [("error", DStr "quota")])))).
Proof.
  intros self answers sent reply. split; [| split].
  - apply (proj1 (openai_by_response self "prompt" _ eq_refl)). reflexivity.
  - apply (proj1 (proj2 (openai_by_response self "prompt" _ eq_refl)) reply
             " fix: typo "); reflexivity.
  - apply (proj2 (proj2 (openai_by_response self "prompt" _ eq_refl))
             [("error", DStr "quota")]); reflexivity.
Defined.

(** ** Subprocesses and requests *)

Section Sends.

Lemma sends_weaken {A : Type} (n n' : nat) (m : py A) :
  (n <= n')%nat -> sends n m -> sends n' m.
Proof.
  intros Hle Hm w. destruct (Hm w) as [Hsub (reqs & Hlog & Hlen & Hreqs)].
  split; [exact Hsub |]. exists reqs. repeat split; [exact Hlog | lia | exact Hreqs].
Qed.

Lemma sends_still (n : nat) (w : world) :
  subprocess_log w = subprocess_log w
  /\ exists reqs,
       http_log w = (http_log w ++ reqs)%list
       /\ (List.length reqs <= n)%nat /\ Forall bounded_request reqs.
Proof.
  split; [reflexivity |]. exists []. rewrite app_nil_r.
  split; [reflexivity |]. split; [simpl; lia | constructor].
Qed.

Lemma sends_ret {A : Type} (a : A) : sends 0 (mret a).
Proof. intros w. apply sends_still. Qed.

Lemma sends_raise {A : Type} (e : exn) : sends 0 (raise e : py A).
Proof. intros w. apply sends_still. Qed.

Lemma sends_keeps {A : Type} (m : py A) : keeps m -> sends 0 m.
Proof.
  intros Hm w. destruct (Hm w) as (_ & _ & _ & _ & Hsub & _ & Hhttp).
  split; [exact Hsub |]. exists []. rewrite app_nil_r.
  split; [exact Hhttp |]. split; [simpl; lia | constructor].
Qed.

Lemma sends_then (w w1 w2 : world) (a b : nat) :
  (subprocess_log w1 = subprocess_log w
   /\ exists reqs, http_log w1 = (http_log w ++ reqs)%list
                   /\ (List.length reqs <= a)%nat /\ Forall bounded_request reqs) ->
  (subprocess_log w2 = subprocess_log w1
   /\ exists reqs, http_log w2 = (http_log w1 ++ reqs)%list
                   /\ (List.length reqs <= b)%nat /\ Forall bounded_request reqs) ->
  subprocess_log w2 = subprocess_log w
  /\ exists reqs, http_log w2 = (http_log w ++ reqs)%list
                  /\ (List.length reqs <= a + b)%nat /\ Forall bounded_request reqs.
Proof.
  intros [Hs1 (r1 & Hl1 & Hn1 & Hb1)] [Hs2 (r2 & Hl2 & Hn2 & Hb2)].
  split; [congruence |]. exists (r1 ++ r2)%list. repeat split.
  - rewrite Hl2, Hl1. now rewrite app_assoc.
  - rewrite length_app. lia.
  - now apply Forall_app.
Qed.

Lemma sends_bind {A B : Type} (a b : nat) (m : py A) (k : A -> py B) :
  sends a m -> (forall x, sends b (k x)) -> sends (a + b) (m ≫= k).
Proof.
  intros Hm Hk w. run. specialize (Hm w).
  destruct (m w) as [x w1 | e w1]; simpl in *.
  - exact (sends_then w w1 _ a b Hm (Hk x w1)).
  - exact (sends_then w w1 w1 a b Hm (sends_still _ w1)).
Qed.

Lemma sends_try {A : Type} (a b : nat) (m : py A) (caught : exn -> bool)
    (h : exn -> py A) :
  sends a m -> (forall e, sends b (h e)) -> sends (a + b) (try_except m caught h).
Proof.
  intros Hm Hh w. unfold try_except. specialize (Hm w).
  destruct (m w) as [x w1 | e w1]; simpl in *.
  - exact (sends_then w w1 w1 a b Hm (sends_still _ w1)).
  - destruct (caught e).
    + exact (sends_then w w1 _ a b Hm (Hh e w1)).
    + exact (sends_then w w1 w1 a b Hm (sends_still _ w1)).
Qed.

Lemma sends_get_world {A : Type} (n : nat) (k : world -> py A) :
  (forall w, sends n (k w)) -> sends n (get_world ≫= k).
Proof. intros Hk w. run. apply Hk. Qed.

(** The provider that the factory returns is the OpenAI one, for the
    chat-completions address. *)
Lemma get_ai_provider_address (w : world) (p : provider) (w' : world) :
  get_ai_provider w = Ok p w' ->
  exists self : OpenAIProvider,
    p = Provider self
    /\ api_url self = "https://api.openai.com/v1/chat/completions".
Proof.
  unfold get_ai_provider; run.
  destruct (load_config w) as [config w1 |]; [| discriminate].
  destruct (get_api_key w1) as [key w2 |]; [| discriminate].
  destruct (Py.subscript config "ai" w2) as [ai w3 |]; [| discriminate].
  destruct (Py.subscript ai "provider" w3) as [name w4 |]; [| discriminate].
  destruct (str_lower name w4) as [provider_name w5 |]; [| discriminate].
  destruct (String.eqb provider_name "openai"); [| discriminate].
  destruct (Py.subscript config "ai" w5) as [ai1 w6 |]; [| discriminate].
  destruct (Py.subscript ai1 "model" w6) as [model w7 |]; [| discriminate].
  destruct (Py.subscript config "ai" w7) as [ai2 w8 |]; [| discriminate].
  destruct (Py.subscript ai2 "temperature" w8) as [temperature w9 |];
    [| discriminate].
  destruct (Py.subscript config "ai" w9) as [ai3 w10 |]; [| discriminate].
  destruct (Py.subscript ai3 "max_tokens" w10) as [max_tokens w11 |];
    [| discriminate].
  unfold OpenAIProvider_init. intros [= <- _]. eexists. split; reflexivity.
Qed.

Lemma sends_doc_key (d : doc) (k : string) : sends 0 (doc_key d k).
Proof.
  unfold doc_key. destruct d as [| | | | | | entries]; try apply sends_raise.
  destruct (doc_lookup entries k); [apply sends_ret | apply sends_raise].
Qed.

Lemma sends_openai (self : OpenAIProvider) (prompt : string) :
  api_url self = "https://api.openai.com/v1/chat/completions" ->
  sends 1 (generate_commit_message_with self prompt).
Proof.
  intros Hurl. unfold generate_commit_message_with, OpenAIProvider_AIProvider.
  apply sends_get_world. intros w.
  destruct (negb (Py.truthy (mem w) (api_key self)));
    [apply (sends_weaken 0); [lia | apply sends_raise] |].
  apply (sends_try 1 0); [| intros e; apply sends_raise].
  apply (sends_bind 1 0).
  { clear w. intros w. unfold requests_post.
    assert (Hsent : forall r, bounded_request r ->
      subprocess_log (World.log_http r w) = subprocess_log w
      /\ exists reqs,
           http_log (World.log_http r w) = (http_log w ++ reqs)%list
           /\ (List.length reqs <= 1)%nat /\ Forall bounded_request reqs).
    { intros r Hr. split; [reflexivity |]. exists [r].
      split; [reflexivity |]. split; [simpl; lia |].
      constructor; [exact Hr | constructor]. }
    match goal with
    | |- context [http w (http_log w) ?r] =>
        destruct (http w (http_log w) r); apply (Hsent r);
        (split; [exact Hurl | split; reflexivity])
    end. }
  intros result.
  apply (sends_bind 0 0); [apply sends_doc_key | intros choices].
  apply (sends_bind 0 0).
  { unfold doc_first.
    destruct choices as [| | | | [|c s] | [|x items] |];
      first [apply sends_raise | apply sends_ret]. }
  intros choice.
  apply (sends_bind 0 0); [apply sends_doc_key | intros message].
  apply (sends_bind 0 0); [apply sends_doc_key | intros content].
  unfold doc_strip. destruct content; first [apply sends_raise | apply sends_ret].
Qed.

Lemma sends_generate_commit_message (diff : string) :
  sends 1 (generate_commit_message diff).
Proof.
  unfold generate_commit_message.
  apply (sends_bind 0 1); [apply sends_keeps, keeps_load_config | intros config].
  apply (sends_bind 0 1); [apply sends_keeps, keeps_dict_get | intros commit_style].
  intros w. run.
  pose proof (sends_keeps _ keeps_get_ai_provider w) as Hp.
  destruct (get_ai_provider w) as [p w1 | e w1] eqn:Hget.
  - destruct (get_ai_provider_address _ _ _ Hget) as (self & -> & Hurl).
    exact (sends_then w w1 _ 0 1 Hp (sends_openai self _ Hurl w1)).
  - exact (sends_then w w1 w1 0 1 Hp (sends_still _ w1)).
Qed.

(** X12.  One call of [generate_commit_message], whether it returns or
    raises, runs no subprocess and sends at most one request; a request it
    sends goes to the chat-completions address, as JSON, with the timeout
    of 30 seconds. *)
Theorem generate_commit_message_traffic (diff : string) (w : world) :
  let w' := world_of (generate_commit_message diff w) in
  subprocess_log w' = subprocess_log w
  /\ (http_log w' = http_log w
      \/ exists r, http_log w' = (http_log w ++ [r])%list /\ bounded_request r).
Proof.
  intros w'.
  destruct (sends_generate_commit_message diff w)
    as [Hsub (reqs & Hlog & Hlen & Hreqs)].
  split; [exact Hsub |].
  destruct reqs as [|r [|r' reqs]].
  - left. now rewrite app_nil_r in Hlog.
  - right. exists r. split; [exact Hlog | now inversion Hreqs].
  - simpl in Hlen. lia.
Qed.

End Sends.

(** ** What is raised *)

Section Softly.















End Softly.

(** ** The controller *)

Section ControllerFacts.

Lemma is_git_repository_runs (w : world) :
  is_git_repository w
  = Ok (inside_work_tree (git w (subprocess_log w) rev_parse_argv))
      (World.log_subprocess rev_parse_argv w).
Proof.
  unfold is_git_repository, subprocess_run; run. fold rev_parse_argv.
  now destruct (git w (subprocess_log w) rev_parse_argv).
Qed.

(** X13.  Outside a repository (the command says so, or fails, or there
    is no [git] program) [generate] prints the error line and exits with
    status 1, having run that one command and done nothing else: no
    configuration file is read or written, no request is sent. *)
Theorem generate_not_a_repository (verbose : bool) (inputs : list string)
    (w : world) :
  inside_work_tree (git w (subprocess_log w) rev_parse_argv) = false ->
  generate verbose inputs w
  = Raise (SystemExit 1)
      (World.emit not_a_repository_line (World.log_subprocess rev_parse_argv w)).
Proof.
  intros Hno. unfold generate.
  unfold mbind at 1, py_bind at 1. rewrite is_git_repository_runs, Hno.
  reflexivity.
Qed.

(** X14.  In a repository where the listing of staged files is blank, or
    where the listing command exits with a status other than zero,
    [generate] prints the warning and exits with status 0, having run the
    two commands and done nothing else. *)
Theorem generate_nothing_staged (verbose : bool) (inputs : list string)
    (w : world) (p : completed) :
  inside_work_tree (git w (subprocess_log w) rev_parse_argv) = true ->
  let w1 := World.log_subprocess rev_parse_argv w in
  git w1 (subprocess_log w1) names_argv = Ran p ->
  returncode p <> 0 \/ Str.strip (stdout p) = EmptyString ->
  generate verbose inputs w
  = Raise (SystemExit 0)
      (World.emit nothing_staged_line (World.log_subprocess names_argv w1)).
Proof.
  intros Hrepo w1 Hgit Hnone. unfold generate.
  unfold mbind at 1, py_bind at 1. rewrite is_git_repository_runs, Hrepo.
  cbv beta iota delta [negb]. fold w1.
  unfold mbind at 1, py_bind at 1.
  assert (Hstaged : has_staged_changes w1
                    = Ok false (World.log_subprocess names_argv w1)).
  { unfold has_staged_changes; run. fold names_argv.
    rewrite subprocess_run_checked, Hgit.
    destruct (Z.eqb_spec (returncode p) 0) as [Hrc | Hrc]; [| reflexivity].
    destruct Hnone as [Hnone | Hnone]; [contradiction |].
    now rewrite Hnone. }
  rewrite Hstaged. reflexivity.
Qed.

Lemma aborts_not_others (line : string) :
  aborts line = true -> accepts line = false /\ regenerates line = false.
Proof.
  unfold aborts, accepts, regenerates, Str.elem. simpl.
  destruct (String.eqb_spec (choice_of line) "n") as [-> | _]; [now split |].
  destruct (String.eqb_spec (choice_of line) "no") as [-> | _]; [now split |].
  discriminate.
Qed.

Lemma review_abort (diff line message : string) (rest : list string) (w : world) :
  aborts line = true ->
  review (line :: rest) diff message w = Ok tt (World.emit aborted_line (asked w)).
Proof.
  intros Hline. destruct (aborts_not_others line Hline) as [Ha Hr].
  cbn [review]. run. cbv beta iota.
  unfold accepts, regenerates, aborts, choice_of in Ha, Hr, Hline.
  rewrite Ha, Hr, Hline. reflexivity.
Qed.

Lemma review_regenerate_fails (diff line message : string) (rest : list string)
    (w : world) (e : exn) (w1 : world) :
  regenerates line = true ->
  generate_commit_message diff (regenerating (asked w)) = Raise e w1 ->
  review (line :: rest) diff message w
  = if is_Exception e
    then Raise (SystemExit 1) (World.emit (regeneration_failed_line e) w1)
    else Raise e w1.
Proof.
  intros Hline Hgen. pose proof (regenerates_not_accepts line Hline) as Hno.
  cbn [review]. run. cbv beta iota.
  unfold accepts, regenerates, choice_of in Hline, Hno. rewrite Hno, Hline.
  cbv beta iota. fold (asked w). fold (regenerating (asked w)).
  rewrite Hgen. now destruct (is_Exception e).
Qed.

(** X15.  When the user accepts (an empty line, [y] or [yes], in any
    letter case), the message is committed and the loop ends without
    reading further input: status zero of the commit prints the line of
    success; another status prints the standard error of the command and
    the line of failure, and [generate] still returns; a missing [git]
    program raises. *)
Theorem review_accept_commits (diff line message : string) (rest : list string)
    (w : world) :
  accepts line = true ->
  let committing := World.log_subprocess (commit_argv message) (asked w) in
  review (line :: rest) diff message w
  = match git w (subprocess_log w) (commit_argv message) with
    | Ran p =>
        if returncode p =? 0
        then Ok tt (World.emit commit_successful_line committing)
        else Ok tt (World.emit commit_failed_line
                      (World.emit (Printed ("Commit failed: " ++ stderr p))
                         committing))
    | NoSuchProgram msg => Raise (FileNotFoundError msg) committing
    end.
Proof.
  intros Hline committing. rewrite (review_accept diff rest line message w Hline).
  unfold commit_and_report, commit_changes; run. fold (commit_argv message).
  rewrite subprocess_run_checked.
  change (git (asked w)) with (git w).
  change (subprocess_log (asked w)) with (subprocess_log w).
  destruct (git w (subprocess_log w) (commit_argv message)) as [p | msg];
    [| reflexivity].
  destruct (Z.eqb_spec (returncode p) 0) as [Hrc | Hrc]; [| reflexivity].
  simpl. now rewrite Hrc.
Qed.

(** X16.  When the user declines ([n] or [no], in any letter case), the
    line of the abort is printed and the loop ends without reading further
    input: nothing is committed and no request is sent. *)
Theorem review_abort_ends (diff line message : string) (rest : list string)
    (w : world) :
  aborts line = true ->
  review (line :: rest) diff message w = Ok tt (World.emit aborted_line (asked w)).
Proof.
  intros Hline. destruct (aborts_not_others line Hline) as [Ha Hr].
  cbn [review]. run. cbv beta iota.
  unfold accepts, regenerates, aborts, choice_of in Ha, Hr, Hline.
  rewrite Ha, Hr, Hline. reflexivity.
Qed.


Lemma traffic_refl (w : world) : traffic w w [] [].
Proof. unfold traffic. now rewrite !app_nil_r. Qed.

Lemma traffic_trans (w w1 w2 : world) (s1 s2 : list (list string))
    (r1 r2 : list request) :
  traffic w w1 s1 r1 -> traffic w1 w2 s2 r2 ->
  traffic w w2 (s1 ++ s2) (r1 ++ r2).
Proof.
  intros [Hs1 Hr1] [Hs2 Hr2]. split.
  - rewrite Hs2, Hs1. now rewrite app_assoc.
  - rewrite Hr2, Hr1. now rewrite app_assoc.
Qed.

Lemma traffic_logs (w w1 w2 : world) (s : list (list string)) (r : list request) :
  subprocess_log w2 = subprocess_log w1 ->
  http_log w2 = http_log w1 ->
  traffic w w1 s r -> traffic w w2 s r.
Proof. unfold traffic. intros -> ->. tauto. Qed.

Lemma traffic_from (w0 w w' : world) (s : list (list string)) (r : list request) :
  subprocess_log w = subprocess_log w0 ->
  http_log w = http_log w0 ->
  traffic w w' s r -> traffic w0 w' s r.
Proof. unfold traffic. intros -> ->. tauto. Qed.

(** What a generation adds to the logs: nothing or one bounded request
    when it raises, one bounded request when it returns. *)
Lemma generate_commit_message_sends (diff : string) (w : world) :
  match generate_commit_message diff w with
  | Ok _ w' => exists r, traffic w w' [] [r] /\ bounded_request r
  | Raise _ w' =>
      exists reqs, traffic w w' [] reqs
                   /\ (List.length reqs <= 1)%nat /\ Forall bounded_request reqs
  end.
Proof.
  destruct (sends_generate_commit_message diff w)
    as [Hsub (reqs & Hlog & Hlen & Hreqs)].
  destruct (generate_commit_message diff w) as [message w' | e w'] eqn:Hgen;
    simpl in Hsub, Hlog.
  - destruct (generate_commit_message_effects _ _ _ _ Hgen) as [_ [r Hr]].
    rewrite Hr in Hlog. apply app_inv_head in Hlog. subst reqs.
    exists r. split; [| now inversion Hreqs].
    split; [now rewrite app_nil_r | exact Hr].
  - exists reqs. split; [| now split].
    split; [now rewrite app_nil_r | exact Hlog].
Qed.

Lemma review_traffic (diff : string) (inputs : list string) :
  forall message w,
    exists subs reqs,
      traffic w (world_of (review inputs diff message w)) subs reqs
      /\ (List.length reqs <= List.length inputs)%nat
      /\ Forall bounded_request reqs
      /\ (subs = []
          \/ exists committed,
               subs = [commit_argv committed]
               /\ (reqs = [] -> committed = message)).
Proof.
  induction inputs as [|line rest IH]; intros message w.
  - exists [], []. split; [| split; [simpl; lia | split; [constructor | now left]]].
    apply (traffic_logs w w); [reflexivity | reflexivity | apply traffic_refl].
  - destruct (accepts line) eqn:Ha.
    { rewrite (review_accept diff rest line message w Ha).
      exists [commit_argv message], [].
      split; [| split; [simpl; lia | split; [constructor | right; eauto]]].
      unfold commit_and_report; run.
      destruct (commit_changes_effects message (asked w)) as [Hc1 Hc2].
      destruct (commit_changes message (asked w)) as [[|] w4 | e w4];
        simpl in *; (split; [exact Hc1 | now rewrite app_nil_r]). }
    destruct (regenerates line) eqn:Hr.
    { pose proof (generate_commit_message_sends diff (regenerating (asked w)))
        as Hsends.
      destruct (generate_commit_message diff (regenerating (asked w)))
        as [message' w1 | e w1] eqn:Hgen.
      - destruct Hsends as (r & Htr & Hbr).
        rewrite (review_regenerate diff rest line message message' w w1 Hr Hgen).
        destruct (IH message' (shown regenerated_title message' w1))
          as (subs & reqs & Ht & Hlen & Hreqs & Hsubs).
        exists subs, (r :: reqs).
        split; [| split; [simpl; lia | split; [now constructor |]]].
        + apply (traffic_trans w w1 _ [] subs [r] reqs).
          * now apply (traffic_from w (regenerating (asked w))).
          * now apply (traffic_from w1 (shown regenerated_title message' w1)).
        + destruct Hsubs as [-> | (committed & -> & _)]; [now left |].
          right. exists committed. split; [reflexivity | discriminate].
      - destruct Hsends as (reqs & Htr & Hlen & Hreqs).
        rewrite (review_regenerate_fails diff line message rest w e w1 Hr Hgen).
        exists [], reqs.
        split; [| split; [simpl; lia | split; [exact Hreqs | now left]]].
        apply (traffic_from w (regenerating (asked w))); [reflexivity .. |].
        destruct (is_Exception e); exact Htr. }
    destruct (aborts line) eqn:Hn.
    { rewrite (review_abort diff line message rest w Hn).
      exists [], [].
      split; [| split; [simpl; lia | split; [constructor | now left]]].
      apply (traffic_logs w w); [reflexivity | reflexivity | apply traffic_refl]. }
    rewrite (review_invalid diff rest line message w Ha Hr Hn).
    destruct (IH message (rejected (asked w)))
      as (subs & reqs & Ht & Hlen & Hreqs & Hsubs).
    exists subs, reqs.
    split; [| split; [simpl; lia | split; [exact Hreqs | exact Hsubs]]].
    now apply (traffic_from w (rejected (asked w))).
Qed.

(** X18.  Whatever the user enters, the loop runs no subprocess other
    than at most one commit, so the diff is not fetched again; it sends at
    most one request for each line entered, each with the timeout; and the
    message it commits when no request was sent is the message it was
    given. *)
Theorem review_runs_one_commit (diff message : string) (inputs : list string)
    (w : world) :
  exists subs reqs,
    traffic w (world_of (review inputs diff message w)) subs reqs
    /\ (List.length reqs <= List.length inputs)%nat
    /\ Forall bounded_request reqs
    /\ (subs = []
        \/ exists committed,
             subs = [commit_argv committed]
             /\ (reqs = [] -> committed = message)).
Proof. apply review_traffic. Qed.







End ControllerFacts.

Lemma generate_not_a_repository_witness :
  let w := Sample.started None Sample.no_environ Sample.no_git Sample.no_network in
  generate false ["y"] w
  = Raise (SystemExit 1)
      (World.emit not_a_repository_line (World.log_subprocess rev_parse_argv w)).
Proof.
  intros w. apply (generate_not_a_repository false ["y"] w). reflexivity.
Defined.

Lemma generate_nothing_staged_witness :
  let w := Sample.started None Sample.no_environ
             (fun _ argv =>
                Ran {| returncode := 0;
                       stdout := if decide (argv = rev_parse_argv)
                                 then "true" ++ Str.nl else EmptyString;
                       stderr := EmptyString |})
             Sample.no_network in
  generate false ["y"] w
  = Raise (SystemExit 0)
      (World.emit nothing_staged_line
         (World.log_subprocess names_argv (World.log_subprocess rev_parse_argv w))).
Proof.
  intros w.
  apply (generate_nothing_staged false ["y"] w
           {| returncode := 0; stdout := EmptyString; stderr := EmptyString |});
    [reflexivity | reflexivity | right; reflexivity].
Defined.

Lemma review_accept_commits_witness :
  let w := Sample.started None Sample.no_environ (Sample.git_fails "nothing to commit")
             Sample.no_network in
  review ["YES"; "n"] "diff" "fix: it" w
  = Ok tt (World.emit commit_failed_line
             (World.emit (Printed "Commit failed: nothing to commit")
                (World.log_subprocess (commit_argv "fix: it") (asked w)))).
Proof.
  intros w. apply (review_accept_commits "diff" "YES" "fix: it" ["n"] w).
  reflexivity.
Defined.

Lemma review_abort_ends_witness :
  let w := Sample.started None Sample.no_environ (Sample.git_prints EmptyString)
             Sample.no_network in
  review ["No"; "y"] "diff" "fix: it" w
  = Ok tt (World.emit aborted_line (asked w)).
Proof.
  intros w. apply (review_abort_ends "diff" "No" "fix: it" ["y"] w). reflexivity.
Defined.


(** ** The configuration store, continued *)

Section LoadMore.

Lemma load_config_present (w : world) (f : file) :
  config_file w = Some f -> load_config w = load_existing w.
Proof.
  intros Hfile. unfold load_config, load_existing, load_merging; run.
  unfold get_config_path. cbv beta iota. now rewrite Hfile.
Qed.

Lemma load_config_created (w : world) (d : doc) :
  config_file w = None ->
  represent (recursion_budget w) (mem w) (VDict DEFAULT_CONFIG) = Some d ->
  load_config w = load_existing (created d w).
Proof.
  intros Hfile Hd. rewrite (load_config_absent w d Hfile Hd).
  now apply (load_config_present _ (Yaml d)).
Qed.

(** The object built for a document that is no mapping. *)
Lemma construct_not_mapping (d : doc) (st : store) :
  is_mapping d = false ->
  Py.isinstance_dict (fst (construct d st)) = false
  /\ Py.type_name (fst (construct d st)) = doc_type_name d
  /\ forall st', Py.truthy st' (fst (construct d st)) = doc_truthy d.
Proof.
  intros Hd. destruct d as [| | | | | items |]; try discriminate Hd;
    try (now repeat split).
  simpl. destruct (construct_items construct items st) as [vs st'] eqn:Hitems.
  simpl. repeat split. intros _.
  destruct items as [|x items]; simpl in Hitems.
  - now injection Hitems as <- _.
  - destruct (construct x st) as [v st1].
    destruct (construct_items construct items st1) as [vs' st2].
    now injection Hitems as <- _.
Qed.

Lemma read_parsed_config (d : doc) (w : world) :
  wf (mem w) -> Store.read (parsed d w) DEFAULT_CONFIG = Some default_config.
Proof. intros Hwf. exact (wf_config _ (construct_wf d (mem w) Hwf)). Qed.

(** The load up to the merge, for a file that holds a document. *)
Lemma load_existing_parsed (w : world) (d : doc) :
  wf (mem w) ->
  config_file w = Some (Yaml d) ->
  load_existing w
  = try_except
      ((if Py.truthy (mem (copied d w)) (fst (construct d (mem w)))
        then _merge_dicts (recursion_budget w) (next_loc (parsed d w))
               (fst (construct d (mem w)))
        else mret tt);;
       mret (VDict (next_loc (parsed d w))))
      is_Exception
      (fun e =>
         print ("Error loading configuration: " ++ Py.str_exn e);;
         print "Using default configuration.";;
         mret (VDict DEFAULT_CONFIG))
      (copied d w).
Proof.
  intros Hwf Hfile. pose proof (read_parsed_config d w Hwf) as Hc.
  unfold load_existing, load_merging, try_except, copied, parsed in *.
  unfold mbind at 1, py_bind at 1. unfold safe_load_file. rewrite Hfile.
  destruct (construct d (mem w)) as [v st1] eqn:Hparse. simpl in Hc |- *.
  unfold mbind at 1, py_bind at 1. unfold copy at 1.
  change (mem (World.set_mem st1 w)) with st1. rewrite Hc.
  reflexivity.
Qed.

(** X20.  A configuration file that cannot be used does not stop the
    load: the two lines of the fallback are printed, the second after the
    text of the error, and the object returned is [DEFAULT_CONFIG] itself,
    not a copy.  This holds for text that the parser rejects, and for a
    document that is no mapping and counts as true (a string, a number
    other than zero, a sequence that is not empty), where the error is the
    [AttributeError] of the call of [items]. *)
Theorem load_config_falls_back (w : world) :
  (forall msg,
      config_file w = Some (Unparseable msg) ->
      load_config w
      = Ok (VDict DEFAULT_CONFIG) (fallback_report (YAMLError msg) w))
  /\ (forall d,
        wf (mem w) ->
        config_file w = Some (Yaml d) ->
        is_mapping d = false ->
        doc_truthy d = true ->
        (1 <= recursion_budget w)%nat ->
        load_config w
        = Ok (VDict DEFAULT_CONFIG)
            (fallback_report
               (AttributeError
                  ("'" ++ doc_type_name d ++ "' object has no attribute 'items'"))
               (copied d w))).
Proof.
  split.
  - intros msg Hfile. rewrite (load_config_present w _ Hfile).
    unfold load_existing, load_merging, try_except.
    unfold mbind at 1, py_bind at 1. unfold safe_load_file. now rewrite Hfile.
  - intros d Hwf Hfile Hmap Htrue Hbudget.
    rewrite (load_config_present w _ Hfile), (load_existing_parsed w d Hwf Hfile).
    destruct (construct_not_mapping d (mem w) Hmap) as (Hv & Hname & Htruthy).
    rewrite Htruthy, Htrue.
    change (recursion_budget (copied d w)) with (recursion_budget w).
    destruct (recursion_budget w) as [|depth]; [lia |].
    destruct (fst (construct d (mem w))) as [| | | | | |l] eqn:Hfst;
      try discriminate Hv; simpl in Hname; rewrite <- Hname; reflexivity.
Qed.

Lemma parsed_grows (d : doc) (w : world) :
  wf (mem w) -> grows (mem w) (parsed d w).
Proof.
  intros Hwf. exact (proj1 (construct_grows d (mem w) (wf_below _ Hwf))).
Qed.

Lemma parsed_fresh (d : doc) (w : world) :
  wf (mem w) ->
  next_loc (parsed d w) <> DEFAULT_CONFIG /\ next_loc (parsed d w) <> DEFAULT_AI.
Proof.
  intros Hwf. pose proof (grows_next _ _ (parsed_grows d w Hwf)).
  pose proof (wf_config_below _ Hwf). pose proof (wf_ai_below _ Hwf).
  split; lia.
Qed.

(** The object built for a document that counts as false counts as false
    after the copy too. *)
Lemma construct_falsy (d : doc) (w : world) :
  wf (mem w) ->
  doc_truthy d = false ->
  Py.truthy (mem (copied d w)) (fst (construct d (mem w))) = false.
Proof.
  intros Hwf Hd.
  destruct d as [| [|] | n | x | [|c s] | [|i items] | [|e entries]];
    try discriminate Hd; try reflexivity.
  - simpl in Hd |- *. now apply negb_false_iff in Hd as ->.
  - simpl in Hd |- *. now apply negb_false_iff in Hd as ->.
  - unfold copied, parsed. simpl. unfold Store.read. simpl.
    rewrite lookup_insert_ne by lia. now rewrite lookup_insert_eq.
Qed.

(** X21.  A file that holds nothing, or a document that counts as false
    (null, an empty mapping, an empty sequence, an empty string, zero),
    gives a new dictionary with the items of [DEFAULT_CONFIG]; nothing is
    merged and nothing printed.  Its ["ai"] item is the dictionary of
    [DEFAULT_CONFIG] itself, not a copy of it. *)
Theorem load_config_empty_document (w : world) (d : doc) :
  wf (mem w) ->
  config_file w = Some (Yaml d) ->
  doc_truthy d = false ->
  let merged := next_loc (parsed d w) in
  load_config w = Ok (VDict merged) (copied d w)
  /\ merged <> DEFAULT_CONFIG
  /\ Store.read (mem (copied d w)) merged = Some default_config
  /\ lookup_path (mem (copied d w)) (VDict merged) ["ai"] = Some (VDict DEFAULT_AI)
  /\ Store.read (mem (copied d w)) DEFAULT_AI = Store.read (mem w) DEFAULT_AI.
Proof.
  intros Hwf Hfile Hd merged.
  assert (Hm : Store.read (mem (copied d w)) merged = Some default_config).
  { unfold copied, Store.read. simpl. apply lookup_insert_eq. }
  split; [| split; [| split; [| split]]].
  - rewrite (load_config_present w _ Hfile), (load_existing_parsed w d Hwf Hfile).
    now rewrite (construct_falsy d w Hwf Hd).
  - apply (parsed_fresh d w Hwf).
  - exact Hm.
  - cbn [lookup_path]. now rewrite Hm.
  - unfold copied, Store.read. simpl.
    rewrite lookup_insert_ne by apply (parsed_fresh d w Hwf).
    apply (grows_old _ _ (parsed_grows d w Hwf)), wf_ai_below, Hwf.
Qed.

Lemma load_merging_only_mem (w : world) :
  only_mem w (world_of (load_merging w)) /\ raises_Exception (load_merging w).
Proof.
  unfold load_merging; run.
  assert (H1 : only_mem w (world_of (safe_load_file w))
               /\ raises_Exception (safe_load_file w)).
  { unfold safe_load_file. destruct (config_file w) as [[d | msg] |];
      try (split; [apply only_mem_refl | reflexivity]).
    destruct (construct d (mem w)). split; [apply only_mem_set_mem | exact I]. }
  destruct (safe_load_file w) as [config w1 | e w1]; [| exact H1].
  destruct H1 as [H1 _]. simpl in H1.
  assert (H2 : only_mem w1 (world_of (copy DEFAULT_CONFIG w1))
               /\ raises_Exception (copy DEFAULT_CONFIG w1)).
  { unfold copy. destruct (Store.read (mem w1) DEFAULT_CONFIG) as [d0 |];
      [| split; [apply only_mem_refl | reflexivity]].
    split; [apply only_mem_set_mem | exact I]. }
  destruct (copy DEFAULT_CONFIG w1) as [merged w2 | e w2].
  2:{ destruct H2 as [H2 He]. split; [| exact He].
      exact (only_mem_trans _ _ _ H1 H2). }
  destruct H2 as [H2 _]. simpl in H2.
  pose proof (only_mem_trans _ _ _ H1 H2) as H12.
  destruct (Py.truthy (mem w2) config); [| now split].
  destruct (merge_dicts_safe (recursion_budget w2) merged config w2) as [H3 He].
  destruct (_merge_dicts (recursion_budget w2) merged config w2)
    as [[] w3 | e w3]; simpl in H3 |- *.
  - split; [exact (only_mem_trans _ _ _ H12 H3) | exact I].
  - split; [exact (only_mem_trans _ _ _ H12 H3) | exact He].
Qed.

(** What a load with the file in place leaves behind: the world of the
    call with another store, and after it nothing or the two lines of the
    fallback. *)
Lemma load_existing_world (w : world) :
  exists w1,
    only_mem w w1
    /\ (world_of (load_existing w) = w1
        \/ exists e, world_of (load_existing w) = fallback_report e w1).
Proof.
  destruct (load_merging_only_mem w) as [Hmem He].
  unfold load_existing, try_except.
  destruct (load_merging w) as [config w1 | e w1]; simpl in *.
  - exists w1. split; [exact Hmem | now left].
  - rewrite He. exists w1. split; [exact Hmem |]. right. now exists e.
Qed.

(** X22.  [load_config] runs no subprocess, sends no request and leaves
    the environment alone; a configuration file that is there is never
    written, whatever it holds; and on the terminal it adds nothing, or the
    two lines of the fallback. *)
Theorem load_config_frame (w : world) :
  let w' := world_of (load_config w) in
  keeps_outside w w'
  /\ (forall f, config_file w = Some f ->
        config_file w' = Some f
        /\ (terminal w' = terminal w
            \/ exists e,
                 terminal w'
                 = (terminal w
                    ++ [Printed ("Error loading configuration: " ++ Py.str_exn e);
                        Printed "Using default configuration."])%list)).
Proof.
  intros w'. split; [apply load_config_keeps |].
  intros f Hfile. unfold w'. rewrite (load_config_present w f Hfile).
  destruct (load_existing_world w) as (w1 & Hmem & [-> | [e ->]]);
    rewrite Hmem; simpl.
  - split; [exact Hfile | now left].
  - split; [exact Hfile |]. right. exists e. now rewrite <- app_assoc.
Qed.

(** ** Keys are never removed *)

Lemma keys_kept_refl (st : store) : keys_kept st st.
Proof. intros l d k Hd Hk. eauto. Qed.

Lemma keys_kept_trans (st1 st2 st3 : store) :
  keys_kept st1 st2 -> keys_kept st2 st3 -> keys_kept st1 st3.
Proof.
  intros H12 H23 l d k Hd Hk.
  destruct (H12 l d k Hd Hk) as (d' & Hd' & Hk'). eauto.
Qed.

Lemma keys_kept_write (st : store) (base : loc) (b : dict) (k : string)
    (v : value) :
  Store.read st base = Some b ->
  keys_kept st (Store.write base (Dict.set b k v) st).
Proof.
  intros Hb l d k' Hd Hk'. destruct (decide (base = l)) as [<- | Hne].
  - rewrite read_write_eq. eexists. split; [reflexivity |].
    rewrite Hb in Hd. injection Hd as <-. now apply mem_set.
  - rewrite read_write_ne by exact Hne. eauto.
Qed.

Section KeysKept.

Variable rec : loc -> value -> py unit.
Hypothesis rec_keys : forall b v w,
  keys_kept (mem w) (mem (world_of (rec b v w))).

Lemma merge_item_keys (base : loc) (k : string) (v : value) (w : world) :
  keys_kept (mem w) (mem (world_of (merge_item rec base k v w))).
Proof.
  unfold merge_item.
  destruct (Store.read (mem w) base) as [b |] eqn:Hb; [| apply keys_kept_refl].
  assert (Hwrite : keys_kept (mem w) (mem (world_of (A := unit)
            (Ok tt (World.set_mem (Store.write base (Dict.set b k v) (mem w)) w))))).
  { simpl. now apply keys_kept_write. }
  destruct (Dict.get b k) as [[| | | | | | b'] |]; try exact Hwrite.
  destruct (Py.isinstance_dict v); [apply rec_keys | exact Hwrite].
Qed.

Lemma merge_loop_keys (base overlay : loc) (used remaining : nat) (w : world) :
  keys_kept (mem w)
    (mem (world_of (merge_loop rec base overlay used remaining w))).
Proof.
  revert w; induction remaining as [|remaining IH]; intros w; simpl;
    (destruct (Store.read (mem w) overlay) as [items |];
     [| apply keys_kept_refl]);
    (destruct (Nat.eqb (List.length items) used); simpl;
     [| apply keys_kept_refl]);
    try apply keys_kept_refl.
  destruct (items !! (used - S remaining)%nat) as [[k v] |];
    [| apply keys_kept_refl].
  run. pose proof (merge_item_keys base k v w) as Hstep.
  destruct (merge_item rec base k v w) as [[] w1 | e w1]; [| exact Hstep].
  exact (keys_kept_trans _ _ _ Hstep (IH w1)).
Qed.

End KeysKept.

Lemma merge_dicts_keys (depth : nat) (base : loc) (overlay : value)
    (w : world) :
  keys_kept (mem w) (mem (world_of (_merge_dicts depth base overlay w))).
Proof.
  revert base overlay w; induction depth as [|depth IH]; intros base overlay w;
    [apply keys_kept_refl |].
  destruct overlay as [| | | | | | o]; try apply keys_kept_refl.
  change (_merge_dicts (S depth) base (VDict o) w)
    with (match Store.read (mem w) o with
          | Some items =>
              merge_loop (_merge_dicts depth) base o
                (List.length items) (List.length items) w
          | None => Ok tt w
          end).
  destruct (Store.read (mem w) o) as [items |]; [| apply keys_kept_refl].
  now apply merge_loop_keys.
Qed.

(** X23.  [_merge_dicts] never removes a key: whatever the two arguments
    are, and whether the call returns or raises, every dictionary of the
    process has afterwards each key it had before. *)
Theorem merge_dicts_keeps_keys (depth : nat) (base : loc) (overlay : value)
    (w : world) :
  forall l d k,
    Store.read (mem w) l = Some d ->
    Dict.mem d k = true ->
    exists d',
      Store.read (mem (world_of (_merge_dicts depth base overlay w))) l = Some d'
      /\ Dict.mem d' k = true.
Proof. apply merge_dicts_keys. Qed.

Lemma load_config_starts (w : world) (config : value) (w' : world) :
  load_config w = Ok config w' ->
  exists w0, mem w0 = mem w /\ load_existing w0 = Ok config w'.
Proof.
  destruct (config_file w) as [f |] eqn:Hfile.
  - rewrite (load_config_present w f Hfile). eauto.
  - destruct (represent (recursion_budget w) (mem w) (VDict DEFAULT_CONFIG))
      as [d |] eqn:Hd.
    + rewrite (load_config_created w d Hfile Hd). intros H.
      exists (created d w). split; [reflexivity | exact H].
    + unfold load_config; run. unfold get_config_path, create_default_config.
      cbv beta iota. rewrite Hfile, Hd. discriminate.
Qed.

(** X24.  Whatever the configuration file holds, the configuration that
    [load_config] returns has the three items of the top level: the
    defaults that the callers give to [get] for ["commit_style"] and
    ["diff_truncation_limit"] are never used, and the subscript with
    ["ai"] finds its key. *)
Theorem load_config_has_settings (w : world) (config : value) (w' : world) :
  wf (mem w) ->
  load_config w = Ok config w' ->
  forall k, In k ["ai"; "commit_style"; "diff_truncation_limit"] ->
    is_Some (lookup_path (mem w') config [k]).
Proof.
  intros Hwf Hload.
  assert (Hdefault : forall k,
    In k ["ai"; "commit_style"; "diff_truncation_limit"] ->
    Dict.mem default_config k = true).
  { intros k Hk. simpl in Hk.
    repeat destruct Hk as [<- | Hk]; try reflexivity. contradiction. }
  assert (Hfound : forall l d,
    Store.read (mem w') l = Some d ->
    (forall k, In k ["ai"; "commit_style"; "diff_truncation_limit"] ->
       Dict.mem d k = true) ->
    forall k, In k ["ai"; "commit_style"; "diff_truncation_limit"] ->
      is_Some (lookup_path (mem w') (VDict l) [k])).
  { intros l d Hd Hkeys k Hk. cbn [lookup_path]. rewrite Hd.
    specialize (Hkeys k Hk). unfold Dict.mem in Hkeys.
    destruct (Dict.get d k); [eauto | discriminate]. }
  pose proof (load_config_wf w Hwf) as Hwf'. rewrite Hload in Hwf'. simpl in Hwf'.
  destruct (load_config_starts w config w' Hload) as (w0 & Hw0 & Hrun).
  rewrite <- Hw0 in Hwf. clear Hload Hw0.
  unfold load_existing, try_except in Hrun.
  destruct (load_merging w0) as [config0 w1 | e w1] eqn:Hbody.
  2:{ destruct (is_Exception e); [| discriminate Hrun].
      injection Hrun as <- <-.
      apply (Hfound DEFAULT_CONFIG default_config);
        [exact (wf_config _ Hwf') | exact Hdefault]. }
  injection Hrun as -> ->.
  unfold load_merging in Hbody; run.
  pose proof (fun d => construct_wf d (mem w0) Hwf) as Hparse.
  unfold safe_load_file in Hbody.
  destruct (config_file w0) as [[d | msg] |]; try discriminate Hbody.
  specialize (Hparse d). destruct (construct d (mem w0)) as [v st1].
  simpl in Hparse. unfold copy in Hbody.
  change (mem (World.set_mem st1 w0)) with st1 in Hbody.
  rewrite (wf_config _ Hparse) in Hbody. cbv beta iota in Hbody.
  change (Store.alloc default_config st1)
    with (next_loc st1, snd (Store.alloc default_config st1)) in Hbody.
  cbv beta iota in Hbody.
  set (w2 := World.set_mem (snd (Store.alloc default_config st1))
               (World.set_mem st1 w0)) in *.
  assert (Hm : Store.read (mem w2) (next_loc st1) = Some default_config).
  { unfold w2, Store.read. simpl. apply lookup_insert_eq. }
  assert (Hkept : keys_kept (mem w2) (mem w')
                  /\ config = VDict (next_loc st1)).
  { destruct (Py.truthy (mem w2) v).
    - pose proof (merge_dicts_keys (recursion_budget w2) (next_loc st1) v w2)
        as Hk.
      destruct (_merge_dicts (recursion_budget w2) (next_loc st1) v w2)
        as [[] w3 | e w3]; [| discriminate Hbody].
      injection Hbody as <- <-. now split.
    - injection Hbody as <- <-. split; [apply keys_kept_refl | reflexivity]. }
  destruct Hkept as [Hkept ->].
  assert (Hall : exists d', Store.read (mem w') (next_loc st1) = Some d'
                 /\ forall k, In k ["ai"; "commit_style"; "diff_truncation_limit"] ->
                      Dict.mem d' k = true).
  { destruct (Hkept _ _ "ai" Hm eq_refl) as (d1 & Hd1 & Hk1).
    exists d1. split; [exact Hd1 |]. intros k Hk.
    destruct (Hkept _ _ k Hm (Hdefault k Hk)) as (d2 & Hd2 & Hk2).
    congruence. }
  destruct Hall as (d' & Hd' & Hkeys).
  now apply (Hfound _ d').
Qed.

(** ** Merging any mapping *)

Lemma set_all_snoc (items b : dict) (k : string) (v : value) :
  set_all (items ++ [(k, v)]) b = Dict.set (set_all items b) k v.
Proof. unfold set_all. now rewrite fold_left_app. Qed.

Lemma nodup_keys_take (items : dict) (i : nat) (k : string) (v : value) :
  NoDup (Dict.keys items) ->
  items !! i = Some (k, v) ->
  NoDup (Dict.keys (take i items)) /\ k ∉ Dict.keys (take i items).
Proof.
  intros Hd Hi. unfold Dict.keys in *.
  rewrite <- (take_drop_middle items i (k, v) Hi) in Hd.
  rewrite fmap_app in Hd. apply NoDup_app in Hd as (H1 & H2 & _).
  split; [exact H1 |]. intros Hin. apply (H2 k Hin). simpl. left.
Qed.

Lemma flat_at_take (items b : dict) (i : nat) (k : string) (v : value) :
  NoDup (Dict.keys items) ->
  items !! i = Some (k, v) ->
  flat_at b k ->
  flat_at (set_all (take i items) b) k.
Proof.
  intros Hd Hi Hb. destruct (nodup_keys_take items i k v Hd Hi) as [Hd' Hk].
  unfold flat_at. rewrite get_set_all by exact Hd'.
  now rewrite (get_absent _ _ Hk).
Qed.

Section FlatMerge.

Variable rec : loc -> value -> py unit.

Lemma merge_item_flat (base : loc) (b : dict) (k : string) (v : value)
    (w : world) :
  Store.read (mem w) base = Some b ->
  flat_at b k ->
  merge_item rec base k v w
  = Ok tt (World.set_mem (Store.write base (Dict.set b k v) (mem w)) w).
Proof.
  intros Hb Hk. unfold merge_item. rewrite Hb. unfold flat_at in Hk.
  destruct (Dict.get b k) as [[| | | | | | l] |]; try reflexivity.
  contradiction.
Qed.

(** Merging into a dictionary that has no dictionary under the keys of
    the overlay sets each item of the overlay there, whatever the values
    are, and touches nothing else. *)
Lemma merge_loop_flat (base o : loc) (items b : dict) :
  base <> o ->
  NoDup (Dict.keys items) ->
  (forall k, k ∈ Dict.keys items -> flat_at b k) ->
  forall remaining w,
    (remaining <= List.length items)%nat ->
    Store.read (mem w) o = Some items ->
    Store.read (mem w) base
    = Some (set_all (take (List.length items - remaining) items) b) ->
    merge_loop rec base o (List.length items) remaining w
    = Ok tt (World.set_mem (Store.write base (set_all items b) (mem w)) w).
Proof.
  intros Hne Hd Hflat.
  induction remaining as [|remaining IH]; intros w Hle Ho Hb; simpl;
    rewrite Ho, Nat.eqb_refl; simpl.
  - rewrite Nat.sub_0_r, firstn_all in Hb.
    now rewrite write_same, set_mem_same.
  - destruct (lookup_lt_is_Some_2 items (List.length items - S remaining))
      as [[k v] Hkv]; [lia |].
    rewrite Hkv. run.
    rewrite (merge_item_flat base _ k v w Hb).
    2:{ apply (flat_at_take items b _ k v Hd Hkv), Hflat.
        apply list_elem_of_fmap. exists (k, v). split; [reflexivity |].
        eapply list_elem_of_lookup_2. exact Hkv. }
    rewrite IH.
    + simpl. now rewrite write_write.
    + lia.
    + simpl. now rewrite read_write_ne.
    + simpl. rewrite read_write_eq. f_equal.
      replace (List.length items - remaining)%nat
        with (S (List.length items - S remaining)) by lia.
      rewrite (take_S_r _ _ _ Hkv). now rewrite set_all_snoc.
Qed.

End FlatMerge.

Lemma merge_dicts_flat (depth : nat) (base o : loc) (items b : dict)
    (w : world) :
  base <> o ->
  Store.read (mem w) o = Some items ->
  Store.read (mem w) base = Some b ->
  NoDup (Dict.keys items) ->
  (forall k, k ∈ Dict.keys items -> flat_at b k) ->
  _merge_dicts (S depth) base (VDict o) w
  = Ok tt (World.set_mem (Store.write base (set_all items b) (mem w)) w).
Proof.
  intros Hne Ho Hb Hd Hflat.
  change (_merge_dicts (S depth) base (VDict o) w)
    with (match Store.read (mem w) o with
          | Some items0 =>
              merge_loop (_merge_dicts depth) base o
                (List.length items0) (List.length items0) w
          | None => Ok tt w
          end).
  rewrite Ho. apply (merge_loop_flat _ base o items b Hne Hd Hflat);
    [lia | exact Ho |].
  now rewrite Nat.sub_diag.
Qed.

Lemma get_top_any_absent (O : gmap loc dict) (l M : dict) (k : string) :
  k ∉ Dict.keys l ->
  Dict.get (fold_left top_step_any l M) k = Dict.get M k.
Proof.
  revert M; induction l as [|[k0 v0] l IH]; intros M Hk; simpl; [reflexivity |].
  simpl in Hk. apply not_elem_of_cons in Hk as [Hne Hk].
  rewrite IH by exact Hk. unfold top_step_any; simpl.
  destruct (String.eqb k0 "ai" && Py.isinstance_dict v0); [reflexivity |].
  apply get_set_ne. congruence.
Qed.

Lemma section_any_absent (O : gmap loc dict) (l A : dict) :
  "ai" ∉ Dict.keys l -> fold_left (section_step_any O) l A = A.
Proof.
  revert A; induction l as [|[k0 v0] l IH]; intros A Hk; simpl; [reflexivity |].
  simpl in Hk. apply not_elem_of_cons in Hk as [Hne Hk].
  rewrite IH by exact Hk. unfold section_step_any; simpl.
  destruct (String.eqb_spec k0 "ai") as [-> | _]; [contradiction | reflexivity].
Qed.

Section TopAny.

Variable O : gmap loc dict.
Variable n : loc.
Variable w0 : world.
Variable m : loc.
Hypothesis m_fresh : m <> DEFAULT_AI.

#[local] Abbreviation during := (during O n w0 m).

#[local] Abbreviation item_any := (item_any O m).

Lemma merge_item_any (depth : nat) (M A : dict) (e : string * value) :
  item_any M A e ->
  merge_item (_merge_dicts (S depth)) m (fst e) (snd e) (during M A)
  = Ok tt (during (top_step_any M e) (section_step_any O A e)).
Proof.
  destruct e as [k v]. intros [Hai Hother]. simpl in *.
  unfold top_step_any, section_step_any, section_step. simpl.
  destruct (String.eqb_spec k "ai") as [-> | Hk].
  - destruct (Hai eq_refl) as [HM Hv]. simpl.
    destruct v as [| | | | | | oa];
      try (unfold merge_item; rewrite read_during_m, HM;
           cbv beta iota delta [Py.isinstance_dict];
           now rewrite during_write_m).
    destruct (Hv oa eq_refl) as (Hoam & Hoa & Hitems). simpl.
    unfold merge_item. rewrite read_during_m, HM.
    cbv beta iota delta [Py.isinstance_dict].
    destruct (O !! oa) as [aitems |] eqn:HO.
    + destruct (Hitems aitems eq_refl) as [Hd Hflat].
      rewrite (merge_dicts_flat depth DEFAULT_AI oa aitems A).
      * now rewrite during_write_ai.
      * congruence.
      * now rewrite read_during_other.
      * now apply read_during_ai.
      * exact Hd.
      * exact Hflat.
    + change (_merge_dicts (S depth) DEFAULT_AI (VDict oa) (during M A))
        with (match Store.read (mem (during M A)) oa with
              | Some items0 =>
                  merge_loop (_merge_dicts depth) DEFAULT_AI oa
                    (List.length items0) (List.length items0) (during M A)
              | None => Ok tt (during M A)
              end).
      now rewrite read_during_other, HO.
  - simpl. rewrite (merge_item_flat _ m M k v _ (read_during_m O n w0 m M A)).
    + now rewrite during_write_m.
    + now apply Hother.
Qed.

Lemma merge_loop_any (depth : nat) (o : loc) (items M0 A0 : dict) :
  o <> m -> o <> DEFAULT_AI ->
  O !! o = Some items ->
  NoDup (Dict.keys items) ->
  (forall e, e ∈ items -> item_any M0 A0 e) ->
  forall remaining,
    (remaining <= List.length items)%nat ->
    merge_loop (_merge_dicts (S depth)) m o (List.length items) remaining
      (during
         (fold_left top_step_any (take (List.length items - remaining) items) M0)
         (fold_left (section_step_any O)
            (take (List.length items - remaining) items) A0))
    = Ok tt (during (fold_left top_step_any items M0)
               (fold_left (section_step_any O) items A0)).
Proof.
  intros Hom Hoa HO Hd Hitems.
  induction remaining as [|remaining IH]; intros Hle; cbn [merge_loop];
    rewrite read_during_other, HO, Nat.eqb_refl by assumption;
    cbv beta iota delta [negb].
  - now rewrite Nat.sub_0_r, firstn_all.
  - destruct (lookup_lt_is_Some_2 items (List.length items - S remaining))
      as [[k v] Hkv]; [lia |].
    rewrite Hkv. run.
    destruct (nodup_keys_take items _ k v Hd Hkv) as [Hd' Hk].
    pose proof (Hitems (k, v) (list_elem_of_lookup_2 _ _ _ Hkv)) as [Hai Hother].
    simpl in Hai, Hother.
    rewrite (merge_item_any depth _ _ (k, v)).
    + replace (List.length items - remaining)%nat
        with (S (List.length items - S remaining)) in IH by lia.
      rewrite (take_S_r _ _ _ Hkv), !fold_left_app in IH. simpl in IH.
      apply IH. lia.
    + split; simpl.
      * intros ->. destruct (Hai eq_refl) as [HM Hv].
        rewrite (get_top_any_absent O) by exact Hk.
        split; [exact HM |]. now rewrite section_any_absent.
      * intros Hne. unfold flat_at.
        rewrite (get_top_any_absent O) by exact Hk. now apply Hother.
Qed.

Lemma merge_dicts_any (depth : nat) (o : loc) (items M0 A0 : dict) :
  o <> m -> o <> DEFAULT_AI ->
  O !! o = Some items ->
  NoDup (Dict.keys items) ->
  (forall e, e ∈ items -> item_any M0 A0 e) ->
  _merge_dicts (S (S depth)) m (VDict o) (during M0 A0)
  = Ok tt (during (fold_left top_step_any items M0)
             (fold_left (section_step_any O) items A0)).
Proof.
  intros Hom Hoa HO Hd Hitems.
  change (_merge_dicts (S (S depth)) m (VDict o) (during M0 A0))
    with (match Store.read (mem (during M0 A0)) o with
          | Some items0 =>
              merge_loop (_merge_dicts (S depth)) m o
                (List.length items0) (List.length items0) (during M0 A0)
          | None => Ok tt (during M0 A0)
          end).
  rewrite read_during_other, HO by assumption.
  pose proof (merge_loop_any depth o items M0 A0 Hom Hoa HO Hd Hitems
                (List.length items) (le_n _)) as H.
  now rewrite Nat.sub_diag in H.
Qed.

End TopAny.

Lemma get_top_any_fold (items M : dict) (k : string) :
  NoDup (Dict.keys items) ->
  Dict.get (fold_left top_step_any items M) k
  = match Dict.get items k with
    | Some v =>
        if String.eqb k "ai" && Py.isinstance_dict v then Dict.get M k else Some v
    | None => Dict.get M k
    end.
Proof.
  revert M; induction items as [|[k0 v0] items IH]; intros M Hd; simpl.
  - reflexivity.
  - simpl in Hd. apply NoDup_cons in Hd as [Hk0 Hd'].
    rewrite IH by exact Hd'.
    destruct (String.eqb_spec k0 k) as [<- | Hne].
    + rewrite get_absent by exact Hk0. unfold top_step_any; simpl.
      destruct (String.eqb k0 "ai" && Py.isinstance_dict v0); [reflexivity |].
      apply get_set_eq.
    + assert (Hstep : Dict.get (top_step_any M (k0, v0)) k = Dict.get M k).
      { unfold top_step_any; simpl.
        destruct (String.eqb k0 "ai" && Py.isinstance_dict v0); [reflexivity |].
        now apply get_set_ne. }
      rewrite Hstep. reflexivity.
Qed.

Lemma section_any_fold (O : gmap loc dict) (items A : dict) :
  NoDup (Dict.keys items) ->
  fold_left (section_step_any O) items A
  = match Dict.get items "ai" with
    | Some (VDict oa) =>
        match O !! oa with
        | Some aitems => set_all aitems A
        | None => A
        end
    | _ => A
    end.
Proof.
  revert A; induction items as [|[k0 v0] items IH]; intros A Hd.
  - reflexivity.
  - cbn [Dict.keys map fst] in Hd. apply NoDup_cons in Hd as [Hk0 Hd'].
    cbn [fold_left Dict.get].
    destruct (String.eqb_spec k0 "ai") as [-> | Hne].
    + rewrite section_any_absent by exact Hk0.
      unfold section_step_any, section_step. cbn [fst snd].
      now rewrite String.eqb_refl.
    + assert (Hstep : section_step_any O A (k0, v0) = A).
      { unfold section_step_any; cbn [fst]. apply String.eqb_neq in Hne.
        now rewrite Hne. }
      rewrite Hstep. now apply IH.
Qed.

Lemma points_below_le (hi hi' : loc) (v : value) :
  (hi <= hi')%positive -> points_below hi v -> points_below hi' v.
Proof. destruct v; simpl; try tauto. lia. Qed.

Lemma construct_points_below (d : doc) (st : store) :
  points_below (next_loc (snd (construct d st))) (fst (construct d st)).
Proof.
  destruct d as [| | | | | items | entries]; simpl; try exact I.
  - now destruct (construct_items construct items st).
  - destruct (construct_entries construct entries [] st) as [items st1].
    simpl. lia.
Qed.

Lemma construct_entries_grows_next (entries : list (string * doc)) :
  forall acc st,
    allocated_below st ->
    Forall (fun e => points_below (next_loc st) (snd e)) acc ->
    Forall (fun e => points_below
                       (next_loc (snd (construct_entries construct entries acc st)))
                       (snd e))
      (fst (construct_entries construct entries acc st)).
Proof.
  induction entries as [|[k d] entries IH]; intros acc st Hst Hacc; simpl.
  - exact Hacc.
  - pose proof (construct_points_below d st) as Hv.
    destruct (construct_grows d st Hst) as [Hg _].
    destruct (construct d st) as [v st1]. simpl in Hv, Hg.
    apply IH; [exact (grows_below _ _ Hg) |].
    apply forall_set; [intros k'; exact Hv |].
    eapply Forall_impl; [exact Hacc |].
    intros e He. exact (points_below_le _ _ _ (grows_next _ _ Hg) He).
Qed.

(** The object built for a mapping: a new dictionary with unique keys,
    whose values, where they are dictionaries, are new and allocated. *)
Lemma construct_mapping (entries : list (string * doc)) (st : store) :
  wf st ->
  exists o items,
    construct (DMap entries) st = (VDict o, snd (construct (DMap entries) st))
    /\ Store.read (snd (construct (DMap entries) st)) o = Some items
    /\ (next_loc st <= o)%positive
    /\ (o < next_loc (snd (construct (DMap entries) st)))%positive
    /\ NoDup (Dict.keys items)
    /\ Forall (fun e =>
                 points_above (next_loc st) (snd e)
                 /\ points_below (next_loc (snd (construct (DMap entries) st)))
                      (snd e))
         items.
Proof.
  intros Hwf.
  destruct (construct_grows (DMap entries) st (wf_below _ Hwf)) as [Hg Hv].
  pose proof (construct_entries_grows_next entries [] st (wf_below _ Hwf)
                (List.Forall_nil _)) as Hbelow.
  simpl in Hg, Hv, Hbelow |- *.
  destruct (construct_entries construct entries [] st) as [items st1].
  simpl in Hg, Hv, Hbelow |- *.
  exists (next_loc st1), items.
  assert (Hread : Store.read
            {| objects := <[next_loc st1 := items]> (objects st1);
               next_loc := Pos.succ (next_loc st1) |} (next_loc st1)
          = Some items).
  { unfold Store.read. simpl. apply lookup_insert_eq. }
  destruct (grows_new _ _ Hg _ _ Hv Hread) as [Hkeys Habove].
  split; [reflexivity |]. split; [exact Hread |]. split; [exact Hv |].
  split; [lia |]. split; [exact Hkeys |].
  rewrite Forall_forall in Habove, Hbelow. apply Forall_forall. intros e He.
  split; [now apply Habove |].
  apply (points_below_le (next_loc st1)); [lia | now apply Hbelow].
Qed.

Lemma flat_default_config (k : string) : k <> "ai" -> flat_at default_config k.
Proof.
  intros Hk. unfold flat_at, default_config. cbn [Dict.get].
  destruct (String.eqb_spec "ai" k) as [E | _]; [congruence |].
  destruct (String.eqb "commit_style" k); [exact I |].
  destruct (String.eqb "diff_truncation_limit" k); exact I.
Qed.

(** Loading a file that holds a mapping, whatever is in it, when the
    section of the defaults holds no dictionary: the result is a new
    dictionary, and the world differs from the world after parsing in that
    dictionary and in the dictionary of the ["ai"] section only. *)
Lemma load_config_mapping (w : world) (entries : list (string * doc)) :
  wf (mem w) ->
  section_flat (mem w) ->
  config_file w = Some (Yaml (DMap entries)) ->
  (2 <= recursion_budget w)%nat ->
  let st1 := parsed (DMap entries) w in
  exists o items a,
    fst (construct (DMap entries) (mem w)) = VDict o
    /\ Store.read st1 o = Some items
    /\ Store.read (mem w) DEFAULT_AI = Some a
    /\ NoDup (Dict.keys items)
    /\ (forall l, (l < next_loc (mem w))%positive ->
          objects st1 !! l = objects (mem w) !! l)
    /\ load_config w
       = Ok (VDict (next_loc st1))
           (during (objects st1) (Pos.succ (next_loc st1)) w (next_loc st1)
              (fold_left top_step_any items default_config)
              (fold_left (section_step_any (objects st1)) items a)).
Proof.
  intros Hwf Hflat Hfile Hbudget st1.
  destruct (construct_mapping entries (mem w) Hwf)
    as (o & items & Hparse & Ho & Hlow & Hhigh & Hkeys & Hvalues).
  fold (parsed (DMap entries) w) in Hparse, Ho, Hhigh, Hvalues.
  fold st1 in Hparse, Ho, Hhigh, Hvalues.
  pose proof (parsed_grows (DMap entries) w Hwf) as Hg. fold st1 in Hg.
  pose proof (construct_wf (DMap entries) (mem w) Hwf) as Hwf1.
  fold (parsed (DMap entries) w) in Hwf1. fold st1 in Hwf1.
  pose proof (wf_ai_below _ Hwf) as Hai.
  pose proof (wf_config_below _ Hwf) as Hcfg.
  destruct (wf_ai _ Hwf) as (a & Ha & _).
  exists o, items, a.
  split; [now rewrite Hparse |]. split; [exact Ho |]. split; [exact Ha |].
  split; [exact Hkeys |]. split; [exact (grows_old _ _ Hg) |].
  assert (Ha1 : objects st1 !! DEFAULT_AI = Some a).
  { rewrite (grows_old _ _ Hg) by exact Hai. exact Ha. }
  assert (Hm : next_loc st1 <> DEFAULT_AI).
  { pose proof (grows_next _ _ Hg). lia. }
  assert (Hstart : copied (DMap entries) w
                   = during (objects st1) (Pos.succ (next_loc st1)) w
                       (next_loc st1) default_config a).
  { unfold copied, during, Store.alloc. fold st1. simpl.
    now rewrite (insert_id _ _ _ Ha1). }
  rewrite (load_config_present w _ Hfile),
    (load_existing_parsed w _ Hwf Hfile).
  fold st1. rewrite Hparse. cbn [fst]. rewrite Hstart.
  assert (Hread : Store.read
            (mem (during (objects st1) (Pos.succ (next_loc st1)) w
                    (next_loc st1) default_config a)) o = Some items).
  { rewrite read_during_other; [exact Ho | lia | lia]. }
  unfold Py.truthy. rewrite Hread.
  destruct items as [|e items]; [reflexivity |].
  destruct (recursion_budget w) as [|[|depth]]; [lia | lia |].
  unfold try_except, mbind, py_bind.
  rewrite (merge_dicts_any (objects st1) (Pos.succ (next_loc st1)) w
             (next_loc st1) Hm depth o (e :: items));
    [reflexivity | lia | lia | exact Ho | exact Hkeys |].
  intros [k v] Hin. rewrite Forall_forall in Hvalues.
  destruct (Hvalues _ Hin) as [Habove Hbelow]. simpl in Habove, Hbelow.
  split; simpl.
  - intros ->. split; [reflexivity |].
    intros oa ->. simpl in Habove, Hbelow.
    split; [lia |]. split; [lia |].
    intros aitems Haitems. split; [exact (wf_keys _ Hwf1 oa aitems Haitems) |].
    intros k _. exact (Hflat a k Ha).
  - apply flat_default_config.
Qed.

Lemma lookup_path_cons (st : store) (l : loc) (d : dict) (k : string)
    (path : list string) :
  Store.read st l = Some d ->
  lookup_path st (VDict l) (k :: path)
  = match Dict.get d k with
    | Some x => lookup_path st x path
    | None => None
    end.
Proof. intros Hd. cbn [lookup_path]. now rewrite Hd. Qed.

Lemma lookup_path_one (st : store) (l : loc) (d : dict) (k : string) :
  Store.read st l = Some d ->
  lookup_path st (VDict l) [k] = Dict.get d k.
Proof.
  intros Hd. rewrite (lookup_path_cons st l d k [] Hd).
  now destruct (Dict.get d k).
Qed.

(** What a load of any mapping returns, key by key. *)
Lemma load_config_mapping_lookup (w : world) (entries : list (string * doc)) :
  wf (mem w) ->
  section_flat (mem w) ->
  config_file w = Some (Yaml (DMap entries)) ->
  (2 <= recursion_budget w)%nat ->
  let d := DMap entries in
  let file_has := lookup_path (parsed d w) (fst (construct d (mem w))) in
  let default := lookup_path (mem w) (VDict DEFAULT_CONFIG) in
  exists merged w',
    load_config w = Ok (VDict merged) w'
    /\ merged <> DEFAULT_CONFIG
    /\ (forall k, k <> "ai" ->
          lookup_path (mem w') (VDict merged) [k]
          = match file_has [k] with Some v => Some v | None => default [k] end)
    /\ (forall v, file_has ["ai"] = Some v -> Py.isinstance_dict v = false ->
          lookup_path (mem w') (VDict merged) ["ai"] = Some v)
    /\ ((forall v, file_has ["ai"] = Some v -> Py.isinstance_dict v = true) ->
          lookup_path (mem w') (VDict merged) ["ai"] = Some (VDict DEFAULT_AI)
          /\ forall k,
               lookup_path (mem w') (VDict merged) ["ai"; k]
               = match file_has ["ai"; k] with
                 | Some v => Some v
                 | None => default ["ai"; k]
                 end).
Proof.
  intros Hwf Hflat Hfile Hbudget d file_has default.
  destruct (load_config_mapping w entries Hwf Hflat Hfile Hbudget)
    as (o & items & a & Hparse & Ho & Ha & Hkeys & Hold & Hload).
  fold d in Hparse, Ho, Hold, Hload.
  set (st1 := parsed d w) in *.
  set (m := next_loc st1) in *.
  set (Mf := fold_left top_step_any items default_config) in *.
  set (Af := fold_left (section_step_any (objects st1)) items a) in *.
  set (w' := during (objects st1) (Pos.succ m) w m Mf Af) in *.
  pose proof (parsed_fresh d w Hwf) as [Hmc Hma]. fold st1 m in Hmc, Hma.
  pose proof (construct_wf d (mem w) Hwf) as Hwf1.
  fold (parsed d w) in Hwf1. fold st1 in Hwf1.
  assert (Hm : Store.read (mem w') m = Some Mf) by apply read_during_m.
  assert (Hai : Store.read (mem w') DEFAULT_AI = Some Af)
    by now apply read_during_ai.
  assert (Hfile1 : forall k, file_has [k] = Dict.get items k).
  { intros k. unfold file_has. rewrite Hparse. now apply lookup_path_one. }
  assert (Hdef1 : forall k, default [k] = Dict.get default_config k).
  { intros k. apply lookup_path_one, (wf_config _ Hwf). }
  assert (Hmerged : forall k,
    lookup_path (mem w') (VDict m) [k]
    = match Dict.get items k with
      | Some v =>
          if String.eqb k "ai" && Py.isinstance_dict v
          then Dict.get default_config k else Some v
      | None => Dict.get default_config k
      end).
  { intros k. rewrite (lookup_path_one _ _ _ _ Hm).
    now apply get_top_any_fold. }
  exists m, w'. split; [exact Hload |]. split; [exact Hmc |].
  split; [| split].
  - intros k Hk. rewrite Hmerged, Hfile1, Hdef1.
    apply String.eqb_neq in Hk. now rewrite Hk.
  - intros v Hv Hleaf. rewrite Hfile1 in Hv. rewrite Hmerged, Hv.
    now rewrite Hleaf, andb_false_r.
  - intros Hdict.
    assert (Hsection : lookup_path (mem w') (VDict m) ["ai"]
                       = Some (VDict DEFAULT_AI)).
    { rewrite Hmerged. destruct (Dict.get items "ai") as [v |] eqn:Hv;
        [| reflexivity].
      rewrite (Hdict v) by now rewrite Hfile1. reflexivity. }
    split; [exact Hsection |]. intros k.
    rewrite (lookup_path_one _ _ _ _ Hm) in Hsection.
    rewrite (lookup_path_cons _ _ _ _ _ Hm), Hsection.
    rewrite (lookup_path_one _ _ _ _ Hai).
    assert (Hdef2 : default ["ai"; k] = Dict.get a k).
    { unfold default. rewrite (lookup_path_cons _ _ _ _ _ (wf_config _ Hwf)).
      cbn [Dict.get default_config]. simpl String.eqb. cbv iota.
      now apply lookup_path_one. }
    rewrite Hdef2. unfold file_has. rewrite Hparse.
    rewrite (lookup_path_cons _ _ _ _ _ Ho).
    unfold Af. rewrite section_any_fold by exact Hkeys.
    destruct (Dict.get items "ai") as [v |] eqn:Hv; [| reflexivity].
    specialize (Hdict v). rewrite Hfile1 in Hdict. specialize (Hdict Hv).
    destruct v as [| | | | | | oa]; try discriminate Hdict.
    cbn [lookup_path]. unfold Store.read.
    destruct (objects st1 !! oa) as [aitems |] eqn:Hoa; [| reflexivity].
    rewrite get_set_all by exact (wf_keys _ Hwf1 oa aitems Hoa).
    now destruct (Dict.get aitems k).
Qed.

(** X25.  Loading a file that holds a mapping, whatever is in it, when
    the section of the defaults holds no dictionary (as after the import):
    the result is a new dictionary in which every key of the top level
    other than ["ai"] has the value of the file, of whatever kind and
    whether or not the key is a setting of the program, or else the
    default; a value of the file under ["ai"] that is no mapping replaces
    the section as a whole; and otherwise the section is the dictionary of
    the defaults, where each key has the value of the file or else the
    default. *)
Theorem load_config_merges_mapping (w : world) (entries : list (string * doc)) :
  wf (mem w) ->
  section_flat (mem w) ->
  config_file w = Some (Yaml (DMap entries)) ->
  (2 <= recursion_budget w)%nat ->
  let d := DMap entries in
  let file_has := lookup_path (parsed d w) (fst (construct d (mem w))) in
  let default := lookup_path (mem w) (VDict DEFAULT_CONFIG) in
  exists merged w',
    load_config w = Ok (VDict merged) w'
    /\ merged <> DEFAULT_CONFIG
    /\ (forall k, k <> "ai" ->
          lookup_path (mem w') (VDict merged) [k]
          = match file_has [k] with Some v => Some v | None => default [k] end)
    /\ (forall v, file_has ["ai"] = Some v -> Py.isinstance_dict v = false ->
          lookup_path (mem w') (VDict merged) ["ai"] = Some v)
    /\ ((forall v, file_has ["ai"] = Some v -> Py.isinstance_dict v = true) ->
          lookup_path (mem w') (VDict merged) ["ai"] = Some (VDict DEFAULT_AI)
          /\ forall k,
               lookup_path (mem w') (VDict merged) ["ai"; k]
               = match file_has ["ai"; k] with
                 | Some v => Some v
                 | None => default ["ai"; k]
                 end).
Proof. apply load_config_mapping_lookup. Qed.

Lemma construct_entries_get (k : string) (entries : list (string * doc)) :
  forall acc st,
    match doc_lookup entries k with
    | Some x =>
        exists st0,
          Dict.get (fst (construct_entries construct entries acc st)) k
          = Some (fst (construct x st0))
    | None =>
        Dict.get (fst (construct_entries construct entries acc st)) k
        = Dict.get acc k
    end.
Proof.
  induction entries as [|[k' d] entries IH]; intros acc st; simpl.
  - reflexivity.
  - destruct (construct d st) as [v st1] eqn:Hd.
    specialize (IH (Dict.set acc k' v) st1).
    destruct (doc_lookup entries k) as [x |]; [exact IH |].
    rewrite IH, get_set.
    destruct (String.eqb k' k); [| reflexivity].
    exists st. now rewrite Hd.
Qed.

(** What the parsed mapping holds under a key is built from the last
    entry of the document with that key. *)
Lemma parsed_entry (w : world) (entries : list (string * doc)) (k : string)
    (x : doc) :
  wf (mem w) ->
  doc_lookup entries k = Some x ->
  exists st0,
    lookup_path (parsed (DMap entries) w)
      (fst (construct (DMap entries) (mem w))) [k]
    = Some (fst (construct x st0)).
Proof.
  intros Hwf Hx.
  pose proof (construct_entries_get k entries [] (mem w)) as Hget.
  rewrite Hx in Hget. destruct Hget as [st0 Hget]. exists st0.
  unfold parsed. simpl.
  destruct (construct_entries construct entries [] (mem w)) as [items st1].
  simpl in Hget |- *. unfold Store.read. simpl.
  now rewrite lookup_insert_eq, Hget.
Qed.

Lemma construct_scalar (x : doc) (v : value) (st : store) :
  scalar_value x = Some v -> fst (construct x st) = v.
Proof. destruct x; simpl; congruence. Qed.

(** X26.  A scalar that the file gives under a key of the top level is
    in the configuration returned, as read, whether or not the program
    knows the key, and whatever else the file holds. *)
Theorem load_config_keeps_scalars (w : world) (entries : list (string * doc))
    (k : string) (x : doc) (v : value) :
  wf (mem w) ->
  section_flat (mem w) ->
  config_file w = Some (Yaml (DMap entries)) ->
  (2 <= recursion_budget w)%nat ->
  doc_lookup entries k = Some x ->
  scalar_value x = Some v ->
  exists config w',
    load_config w = Ok config w'
    /\ lookup_path (mem w') config [k] = Some v.
Proof.
  intros Hwf Hflat Hfile Hbudget Hx Hv.
  destruct (load_config_mapping_lookup w entries Hwf Hflat Hfile Hbudget)
    as (merged & w' & Hload & _ & Hother & Hreplaced & _).
  destruct (parsed_entry w entries k x Hwf Hx) as [st0 Hentry].
  rewrite (construct_scalar x v st0 Hv) in Hentry.
  exists (VDict merged), w'. split; [exact Hload |].
  destruct (String.eqb_spec k "ai") as [-> | Hk].
  - apply Hreplaced; [exact Hentry |].
    destruct x; try discriminate Hv; now injection Hv as <-.
  - rewrite (Hother k Hk). now rewrite Hentry.
Qed.

(** X27.  When the file gives under ["ai"] something that is no mapping
    (nothing, a string, a number, a sequence) and the environment variable
    is unset or empty, [get_api_key] raises a [TypeError]: the section of
    the configuration is that value, and the subscript with ["api_key"]
    fails on it. *)
Theorem get_api_key_without_section (w : world) (entries : list (string * doc))
    (x : doc) :
  wf (mem w) ->
  section_flat (mem w) ->
  config_file w = Some (Yaml (DMap entries)) ->
  (2 <= recursion_budget w)%nat ->
  doc_lookup entries "ai" = Some x ->
  is_mapping x = false ->
  environ w "COMMY_API_KEY" = None
  \/ environ w "COMMY_API_KEY" = Some EmptyString ->
  exists msg w', get_api_key w = Raise (TypeError msg) w'.
Proof.
  intros Hwf Hflat Hfile Hbudget Hx Hmap Henv.
  destruct (load_config_mapping_lookup w entries Hwf Hflat Hfile Hbudget)
    as (merged & w' & Hload & _ & _ & Hreplaced & _).
  destruct (parsed_entry w entries "ai" x Hwf Hx) as [st0 Hentry].
  destruct (construct_not_mapping x st0 Hmap) as (Hleaf & _ & _).
  specialize (Hreplaced _ Hentry Hleaf).
  pose proof (load_config_keeps w) as Hkeeps. rewrite Hload in Hkeeps.
  destruct Hkeeps as (_ & _ & Henv' & _). simpl in Henv'.
  unfold get_api_key; run. rewrite Hload. unfold os_environ_get.
  rewrite Henv'.
  assert (Hsub : exists msg,
    (ai ← Py.subscript (VDict merged) "ai"; Py.subscript ai "api_key") w'
    = Raise (TypeError msg) w').
  { run. unfold Py.subscript at 1.
    cbn [lookup_path] in Hreplaced.
    destruct (Store.read (mem w') merged) as [M |]; [| discriminate Hreplaced].
    destruct (Dict.get M "ai") as [v |]; [| discriminate Hreplaced].
    injection Hreplaced as ->.
    destruct (fst (construct x st0)); try discriminate Hleaf;
      eexists; reflexivity. }
  destruct Hsub as [msg Hsub]. exists msg, w'.
  destruct Henv as [-> | ->]; exact Hsub.
Qed.

Lemma pristine_section_flat (st : store) : pristine st -> section_flat st.
Proof.
  intros [_ Ha] a k Hread. rewrite Ha in Hread. injection Hread as <-.
  unfold flat_at, default_ai. cbn [Dict.get].
  repeat (match goal with
          | |- context [String.eqb ?a k] => destruct (String.eqb a k)
          end; [exact I |]).
  exact I.
Qed.

(** Loading the file that a first run writes. *)
Lemma load_existing_default_document (w : world) :
  wf (mem w) ->
  pristine (mem w) ->
  config_file w = Some (Yaml default_document) ->
  (2 <= recursion_budget w)%nat ->
  exists merged w',
    load_existing w = Ok (VDict merged) w'
    /\ merged <> DEFAULT_CONFIG
    /\ Store.read (mem w') merged = Some default_config
    /\ pristine (mem w')
    /\ only_mem w w'
    /\ (forall l, (l < next_loc (mem w))%positive ->
          Store.read (mem w') l = Store.read (mem w) l).
Proof.
  intros Hwf Hp Hfile Hbudget.
  destruct (load_config_mapping w default_entries Hwf
              (pristine_section_flat _ Hp) Hfile Hbudget)
    as (o & items & a & Hparse & Ho & Ha & _ & Hold & Hload).
  rewrite (load_config_present w _ Hfile) in Hload.
  change (DMap default_entries) with default_document in *.
  pose proof (parsed_fresh default_document w Hwf) as [Hmc Hma].
  set (st1 := parsed default_document w) in *.
  destruct Hp as [Hc Hai]. rewrite Hai in Ha. injection Ha as <-.
  assert (Hst1 : st1
    = {| objects :=
           <[Pos.succ (next_loc (mem w)) :=
               [("ai", VDict (next_loc (mem w)));
                ("commit_style", VStr "conventional");
                ("diff_truncation_limit", VInt 4000)]]>
             (<[next_loc (mem w) :=
                  [("api_key", VStr EmptyString); ("max_tokens", VInt 100);
                   ("model", VStr "gpt-3.5-turbo"); ("provider", VStr "openai");
                   ("temperature", VFloat 0.7)]]> (objects (mem w)));
         next_loc := Pos.succ (Pos.succ (next_loc (mem w))) |}).
  { reflexivity. }
  assert (Ho' : o = Pos.succ (next_loc (mem w))).
  { change (fst (construct default_document (mem w)))
      with (VDict (Pos.succ (next_loc (mem w)))) in Hparse.
    congruence. }
  subst o. unfold Store.read in Ho. rewrite Hst1 in Ho. cbn [objects] in Ho.
  rewrite lookup_insert_eq in Ho. injection Ho as <-.
  assert (Hsection : objects st1 !! next_loc (mem w)
    = Some [("api_key", VStr EmptyString); ("max_tokens", VInt 100);
            ("model", VStr "gpt-3.5-turbo"); ("provider", VStr "openai");
            ("temperature", VFloat 0.7)]).
  { rewrite Hst1. cbn [objects].
    rewrite lookup_insert_ne by lia. apply lookup_insert_eq. }
  assert (HM : fold_left top_step_any
                 [("ai", VDict (next_loc (mem w)));
                  ("commit_style", VStr "conventional");
                  ("diff_truncation_limit", VInt 4000)] default_config
               = default_config) by reflexivity.
  assert (HA : fold_left (section_step_any (objects st1))
                 [("ai", VDict (next_loc (mem w)));
                  ("commit_style", VStr "conventional");
                  ("diff_truncation_limit", VInt 4000)] default_ai
               = default_ai).
  { cbn [fold_left]. unfold section_step_any at 3. cbn [fst].
    change (String.eqb "ai" "ai") with true. cbv iota.
    unfold section_step at 1. cbn [snd]. rewrite Hsection.
    reflexivity. }
  rewrite HM, HA in Hload.
  eexists _, _. split; [exact Hload |]. split; [exact Hmc |].
  split; [apply read_during_m |].
  assert (Hframe : forall l, (l < next_loc (mem w))%positive ->
    Store.read
      (mem (during (objects st1) (Pos.succ (next_loc st1)) w (next_loc st1)
              default_config default_ai)) l
    = Store.read (mem w) l).
  { intros l Hl. destruct (decide (l = DEFAULT_AI)) as [-> | Hne].
    - now rewrite read_during_ai, Hai.
    - rewrite read_during_other; [now apply Hold | | exact Hne].
      pose proof (grows_next _ _ (parsed_grows default_document w Hwf)) as Hn.
      fold st1 in Hn. lia. }
  split; [| split; [reflexivity | exact Hframe]].
  split.
  - rewrite Hframe by (apply wf_config_below, Hwf). exact Hc.
  - now apply read_during_ai.
Qed.

(** A load on the defaults: what it returns and what it leaves. *)
Lemma load_config_default_step (w : world) :
  on_defaults w ->
  exists merged w',
    load_config w = Ok (VDict merged) w'
    /\ merged <> DEFAULT_CONFIG
    /\ Store.read (mem w') merged = Some default_config
    /\ on_defaults w'
    /\ config_file w' = Some (Yaml default_document)
    /\ (forall l, (l < next_loc (mem w))%positive ->
          Store.read (mem w') l = Store.read (mem w) l)
    /\ keeps_outside w w'.
Proof.
  intros (Hwf & Hp & Hbudget & Hfile).
  pose proof (load_config_wf w Hwf) as Hwf'.
  pose proof (load_config_keeps w) as Hkeeps.
  assert (Hrun : exists w0,
    load_config w = load_existing w0
    /\ mem w0 = mem w /\ recursion_budget w0 = recursion_budget w
    /\ config_file w0 = Some (Yaml default_document)).
  { destruct Hfile as [Hfile | Hfile].
    - exists (created default_document w).
      split; [| now repeat split].
      apply (load_config_created w default_document Hfile).
      destruct (recursion_budget w) as [|[|depth]]; [lia | lia |].
      now apply represent_pristine.
    - exists w. split; [| now repeat split].
      exact (load_config_present w _ Hfile). }
  destruct Hrun as (w0 & Hrun & Hmem & Hdepth & Hfile0).
  rewrite Hrun in Hwf', Hkeeps |- *.
  rewrite <- Hmem in Hwf, Hp |- *. rewrite <- Hdepth in Hbudget.
  destruct (load_existing_default_document w0 Hwf Hp Hfile0 Hbudget)
    as (merged & w' & Hload & Hm & Hread & Hp' & Honly & Hold).
  rewrite Hload in Hwf', Hkeeps |- *. simpl in Hwf', Hkeeps.
  exists merged, w'.
  split; [reflexivity |]. split; [exact Hm |]. split; [exact Hread |].
  assert (Hfile' : config_file w' = Some (Yaml default_document)).
  { rewrite Honly. exact Hfile0. }
  split; [| split; [exact Hfile' | split; [exact Hold | exact Hkeeps]]].
  split; [exact Hwf' |]. split; [exact Hp' |]. split; [| now right].
  rewrite Honly. exact Hbudget.
Qed.

(** X28.  In a process whose defaults are those of the source, a load
    that finds no file, or finds the file that a first run writes, returns
    a new dictionary with the items of [DEFAULT_CONFIG], and leaves the
    defaults as the source has them and that file in place: what is
    written on a first run is read back as the defaults, on that run and
    on every later one. *)
Theorem load_config_default_file (w : world) :
  wf (mem w) ->
  pristine (mem w) ->
  (2 <= recursion_budget w)%nat ->
  config_file w = None \/ config_file w = Some (Yaml default_document) ->
  exists merged w',
    load_config w = Ok (VDict merged) w'
    /\ merged <> DEFAULT_CONFIG
    /\ Store.read (mem w') merged = Some default_config
    /\ pristine (mem w')
    /\ wf (mem w')
    /\ config_file w' = Some (Yaml default_document).
Proof.
  intros Hwf Hp Hbudget Hfile.
  destruct (load_config_default_step w)
    as (merged & w' & Hload & Hm & Hread & (Hwf' & Hp' & _) & Hfile' & _).
  { split; [exact Hwf | split; [exact Hp | split; [exact Hbudget | exact Hfile]]]. }
  exists merged, w'.
  split; [exact Hload |]. split; [exact Hm |]. split; [exact Hread |].
  split; [exact Hp' |]. split; [exact Hwf' | exact Hfile'].
Qed.

End LoadMore.

Lemma load_config_falls_back_witness :
  (let w := Sample.started (Some (Unparseable "could not find expected ':'"))
              Sample.no_environ Sample.no_git Sample.no_network in
   load_config w
   = Ok (VDict DEFAULT_CONFIG)
       (fallback_report (YAMLError "could not find expected ':'") w))
  /\ (let w := Sample.started (Some (Yaml (DStr "openai"))) Sample.no_environ
                 Sample.no_git Sample.no_network in
      load_config w
      = Ok (VDict DEFAULT_CONFIG)
          (fallback_report
             (AttributeError "'str' object has no attribute 'items'")
             (copied (DStr "openai") w))).
Proof.
  split; intros w.
  - apply (proj1 (load_config_falls_back w)). reflexivity.
  - apply (proj2 (load_config_falls_back w) (DStr "openai"));
      [exact wf_imported | reflexivity | reflexivity | reflexivity | simpl; lia].
Defined.

Lemma load_config_frame_witness :
  let w := Sample.started (Some (Unparseable "mapping values are not allowed here"))
             Sample.no_environ Sample.no_git Sample.no_network in
  config_file (world_of (load_config w))
  = Some (Unparseable "mapping values are not allowed here").
Proof.
  intros w. apply (proj2 (load_config_frame w)). reflexivity.
Defined.

Lemma merge_dicts_keeps_keys_witness :
  let w := Sample.started None Sample.no_environ Sample.no_git Sample.no_network in
  exists d',
    Store.read
      (mem (world_of (_merge_dicts 5 DEFAULT_CONFIG (VDict DEFAULT_AI) w)))
      DEFAULT_CONFIG = Some d'
    /\ Dict.mem d' "commit_style" = true.
Proof.
  intros w.
  apply (merge_dicts_keeps_keys 5 DEFAULT_CONFIG (VDict DEFAULT_AI) w
           DEFAULT_CONFIG default_config "commit_style");
    reflexivity.
Defined.

Lemma load_config_has_settings_witness :
  let w := Sample.started
             (Some (Yaml (DMap [("ai", DStr "none"); ("editor", DStr "vi")])))
             Sample.no_environ Sample.no_git Sample.no_network in
  exists config w',
    load_config w = Ok config w'
    /\ is_Some (lookup_path (mem w') config ["diff_truncation_limit"]).
Proof.
  intros w.
  destruct (load_config w) as [config w' | e w'] eqn:Hload;
    [| vm_compute in Hload; discriminate Hload].
  exists config, w'. split; [reflexivity |].
  apply (load_config_has_settings w config w' wf_imported Hload).
  right; right; left; reflexivity.
Defined.

Lemma load_config_merges_mapping_witness :
  let w := Sample.started
             (Some (Yaml (DMap [("ai", DMap [("model", DStr "gpt-4o")]);
                                ("editor", DMap [("name", DStr "vi")])])))
             Sample.no_environ Sample.no_git Sample.no_network in
  exists merged w',
    load_config w = Ok (VDict merged) w' /\ merged <> DEFAULT_CONFIG.
Proof.
  intros w.
  destruct (load_config_merges_mapping w
              [("ai", DMap [("model", DStr "gpt-4o")]);
               ("editor", DMap [("name", DStr "vi")])])
    as (merged & w' & Hload & Hm & _).
  - exact wf_imported.
  - exact (pristine_section_flat _ pristine_imported).
  - reflexivity.
  - simpl; lia.
  - exists merged, w'. now split.
Defined.

Lemma load_config_keeps_scalars_witness :
  let w := Sample.started
             (Some (Yaml (DMap [("editor", DStr "vi"); ("ai", DNull)])))
             Sample.no_environ Sample.no_git Sample.no_network in
  exists config w',
    load_config w = Ok config w'
    /\ lookup_path (mem w') config ["editor"] = Some (VStr "vi").
Proof.
  intros w.
  apply (load_config_keeps_scalars w [("editor", DStr "vi"); ("ai", DNull)]
           "editor" (DStr "vi") (VStr "vi")).
  - exact wf_imported.
  - exact (pristine_section_flat _ pristine_imported).
  - reflexivity.
  - simpl; lia.
  - reflexivity.
  - reflexivity.
Defined.

Lemma get_api_key_without_section_witness :
  let w := Sample.started (Some (Yaml (DMap [("ai", DNull)])))
             Sample.no_environ Sample.no_git Sample.no_network in
  exists msg w', get_api_key w = Raise (TypeError msg) w'.
Proof.
  intros w.
  apply (get_api_key_without_section w [("ai", DNull)] DNull).
  - exact wf_imported.
  - exact (pristine_section_flat _ pristine_imported).
  - reflexivity.
  - simpl; lia.
  - reflexivity.
  - reflexivity.
  - left; reflexivity.
Defined.

Lemma load_config_default_file_witness :
  let w := Sample.started None Sample.no_environ Sample.no_git Sample.no_network in
  exists merged w',
    load_config w = Ok (VDict merged) w'
    /\ Store.read (mem w') merged = Some default_config
    /\ pristine (mem w').
Proof.
  intros w.
  destruct (load_config_default_file w) as (merged & w' & Hload & _ & Hm & Hp & _).
  - exact wf_imported.
  - exact pristine_imported.
  - simpl; lia.
  - left; reflexivity.
  - exists merged, w'. split; [exact Hload | split; [exact Hm | exact Hp]].
Defined.

Lemma load_config_empty_document_witness :
  let w := Sample.started (Some (Yaml DNull)) Sample.no_environ
             Sample.no_git Sample.no_network in
  load_config w = Ok (VDict 3%positive) (copied DNull w).
Proof.
  intros w.
  apply (proj1 (load_config_empty_document w DNull wf_imported eq_refl eq_refl)).
Defined.

(** ** A generation on the defaults *)

Section OnDefaults.

Lemma subscript_found (l : loc) (d : dict) (k : string) (v : value) (w : world) :
  Store.read (mem w) l = Some d ->
  Dict.get d k = Some v ->
  Py.subscript (VDict l) k w = Ok v w.
Proof. intros Hd Hk. unfold Py.subscript. now rewrite Hd, Hk. Qed.

Lemma get_api_key_on_defaults (w : world) :
  on_defaults w ->
  exists w',
    get_api_key w = Ok (VStr (environment_key w)) w'
    /\ on_defaults w'
    /\ (forall l, (l < next_loc (mem w))%positive ->
          Store.read (mem w') l = Store.read (mem w) l)
    /\ keeps_outside w w'.
Proof.
  intros Hw.
  destruct (load_config_default_step w Hw)
    as (merged & w' & Hload & _ & Hread & Hw' & _ & Hold & Hkeeps).
  exists w'. split; [| split; [exact Hw' | split; [exact Hold | exact Hkeeps]]].
  destruct Hw' as (_ & [_ Hai] & _).
  destruct Hkeeps as (_ & _ & Henv & _).
  unfold get_api_key; run. rewrite Hload. unfold os_environ_get, environment_key.
  rewrite Henv.
  assert (Hstored :
    (ai ← Py.subscript (VDict merged) "ai"; Py.subscript ai "api_key") w'
    = Ok (VStr EmptyString) w').
  { run. rewrite (subscript_found merged default_config "ai" (VDict DEFAULT_AI))
      by (exact Hread || reflexivity).
    now rewrite (subscript_found DEFAULT_AI default_ai "api_key" (VStr EmptyString))
      by (exact Hai || reflexivity). }
  destruct (environ w "COMMY_API_KEY") as [[|c key] |]; simpl;
    first [exact Hstored | reflexivity].
Qed.

Lemma get_ai_provider_on_defaults (w : world) :
  on_defaults w ->
  exists w',
    get_ai_provider w = Ok (Provider (default_provider (environment_key w))) w'
    /\ keeps_outside w w'.
Proof.
  intros Hw.
  destruct (load_config_default_step w Hw)
    as (merged & w1 & Hload & _ & Hread & Hw1 & _ & _ & Hkeeps1).
  destruct (get_api_key_on_defaults w1 Hw1)
    as (w2 & Hkey & Hw2 & Hold & Hkeeps2).
  exists w2. split; [| exact (keeps_outside_trans _ _ _ Hkeeps1 Hkeeps2)].
  assert (Hmerged : Store.read (mem w2) merged = Some default_config).
  { rewrite Hold; [exact Hread |].
    destruct Hw1 as (Hwf1 & _).
    exact (wf_read_below _ _ _ (wf_below _ Hwf1) Hread). }
  destruct Hw2 as (_ & [_ Hai] & _).
  assert (Henv : environment_key w1 = environment_key w).
  { unfold environment_key. destruct Hkeeps1 as (_ & _ & -> & _). reflexivity. }
  assert (Hsection : Py.subscript (VDict merged) "ai" w2 = Ok (VDict DEFAULT_AI) w2).
  { now apply (subscript_found merged default_config). }
  assert (Hsetting : forall k v, Dict.get default_ai k = Some v ->
            Py.subscript (VDict DEFAULT_AI) k w2 = Ok v w2).
  { intros k v Hk. now apply (subscript_found DEFAULT_AI default_ai). }
  unfold get_ai_provider; run. rewrite Hload. cbv beta iota.
  rewrite Hkey. cbv beta iota. rewrite Hsection. cbv beta iota.
  rewrite (Hsetting "provider" (VStr "openai") eq_refl). cbv beta iota.
  unfold str_lower; run. cbv beta iota.
  change (String.eqb (Str.lower "openai") "openai") with true. cbv beta iota.
  rewrite ?Hsection. cbv beta iota.
  rewrite (Hsetting "model" (VStr "gpt-3.5-turbo") eq_refl). cbv beta iota.
  rewrite ?Hsection. cbv beta iota.
  rewrite (Hsetting "temperature" (VFloat 0.7) eq_refl). cbv beta iota.
  rewrite ?Hsection. cbv beta iota.
  rewrite (Hsetting "max_tokens" (VInt 100) eq_refl). cbv beta iota.
  unfold OpenAIProvider_init, default_provider. rewrite Henv.
  destruct (environment_key w); reflexivity.
Qed.

(** X29.  On the defaults of the source (no configuration file yet, or
    the file that a first run writes), a generation is one call of the
    OpenAI backend with the model ["gpt-3.5-turbo"], the temperature 0.7,
    the bound of 100 tokens, the key of the environment, and the prompt of
    the conventional style for the diff; the three loads of the
    configuration before it run no subprocess and send nothing.  So
    without a key in the environment the generation fails with the error
    that asks for a key, and no request is sent. *)
Theorem generate_commit_message_on_defaults (diff : string) (w : world) :
  on_defaults w ->
  exists w1,
    keeps_outside w w1
    /\ generate_commit_message diff w
       = generate_commit_message_with (default_provider (environment_key w))
           (create_commit_prompt diff (VStr "conventional")) w1
    /\ (environment_key w = EmptyString ->
        generate_commit_message diff w
        = Raise (RuntimeError missing_key_message) w1).
Proof.
  intros Hw.
  destruct (load_config_default_step w Hw)
    as (merged & w1 & Hload & _ & Hread & Hw1 & _ & _ & Hkeeps1).
  destruct (get_ai_provider_on_defaults w1 Hw1) as (w2 & Hprovider & Hkeeps2).
  assert (Henv : environment_key w1 = environment_key w).
  { unfold environment_key. destruct Hkeeps1 as (_ & _ & -> & _). reflexivity. }
  rewrite Henv in Hprovider.
  assert (Hrun : generate_commit_message diff w
    = generate_commit_message_with (default_provider (environment_key w))
        (create_commit_prompt diff (VStr "conventional")) w2).
  { unfold generate_commit_message.
    unfold mbind at 1, py_bind at 1. rewrite Hload.
    unfold mbind at 1, py_bind at 1. unfold Py.dict_get. rewrite Hread.
    change (Dict.get default_config "commit_style")
      with (Some (VStr "conventional")). cbv beta iota.
    unfold mbind at 1, py_bind at 1. rewrite Hprovider. reflexivity. }
  exists w2. split; [exact (keeps_outside_trans _ _ _ Hkeeps1 Hkeeps2) |].
  split; [exact Hrun |].
  intros Hkey. rewrite Hrun, Hkey.
  unfold generate_commit_message_with, OpenAIProvider_AIProvider; run.
  reflexivity.
Qed.

End OnDefaults.

Lemma generate_commit_message_on_defaults_witness :
  let w := Sample.started None (Sample.with_key "sk-1") Sample.no_git
             Sample.no_network in
  exists w1,
    generate_commit_message "+x" w
    = generate_commit_message_with (default_provider "sk-1")
        (create_commit_prompt "+x" (VStr "conventional")) w1.
Proof.
  intros w.
  destruct (generate_commit_message_on_defaults "+x" w) as (w1 & _ & Hrun & _).
  - split; [exact wf_imported |]. split; [exact pristine_imported |].
    split; [simpl; lia | left; reflexivity].
  - exists w1. exact Hrun.
Defined.

(** ** The defaults through a run *)

(** X30.  Through a whole run of [generate], however it ends, the top
    level of [DEFAULT_CONFIG] is not changed: it has its three items, with
    the style and the limit of the source and the dictionary of the
    section; and that dictionary keeps each of its five keys.  What a run
    can change of the defaults is the values in the section. *)
Theorem generate_keeps_default_keys (verbose : bool) (inputs : list string)
    (w : world) :
  wf (mem w) ->
  let w' := world_of (generate verbose inputs w) in
  Store.read (mem w') DEFAULT_CONFIG = Some default_config
  /\ lookup_path (mem w') (VDict DEFAULT_CONFIG) ["commit_style"]
     = Some (VStr "conventional")
  /\ lookup_path (mem w') (VDict DEFAULT_CONFIG) ["diff_truncation_limit"]
     = Some (VInt 4000)
  /\ lookup_path (mem w') (VDict DEFAULT_CONFIG) ["ai"] = Some (VDict DEFAULT_AI)
  /\ forall k, In k section_keys ->
       is_Some (lookup_path (mem w') (VDict DEFAULT_CONFIG) ["ai"; k]).
Proof.
  intros Hwf w'. pose proof (stable_generate verbose inputs w Hwf) as Hwf'.
  fold w' in Hwf'. pose proof (wf_config _ Hwf') as Hc.
  split; [exact Hc |].
  split; [now rewrite (lookup_path_one _ _ _ _ Hc) |].
  split; [now rewrite (lookup_path_one _ _ _ _ Hc) |].
  split; [now rewrite (lookup_path_one _ _ _ _ Hc) |].
  intros k Hk. destruct (wf_ai _ Hwf') as (a & Ha & Hkeys).
  rewrite (lookup_path_cons _ _ _ _ _ Hc).
  change (Dict.get default_config "ai") with (Some (VDict DEFAULT_AI)).
  cbv beta iota. rewrite (lookup_path_one _ _ _ _ Ha).
  specialize (Hkeys k Hk). unfold Dict.mem in Hkeys.
  destruct (Dict.get a k); [eauto | discriminate].
Qed.

Lemma generate_keeps_default_keys_witness :
  let w := Sample.started
             (Some (Yaml (DMap [("ai", DMap [("provider", DStr "anthropic")])])))
             Sample.no_environ (Sample.git_prints ("true" ++ Str.nl))
             Sample.no_network in
  lookup_path (mem (world_of (generate false ["y"] w))) (VDict DEFAULT_CONFIG)
    ["commit_style"]
  = Some (VStr "conventional").
Proof.
  intros w.
  apply (proj1 (proj2 (generate_keeps_default_keys false ["y"] w wf_imported))).
Defined.
